(** * The fully connected (inner product) layer of the dnn module

    A shallow embedding of [modules/dnn/src/layers/fully_connected_layer.cpp]:
    the weight preparation done by the constructor, shape inference, the
    cost estimate, and the striped forward pass with its two dot-product
    kernels (the 4-wide [CV_SIMD128] loop and the scalar loop).

    Conventions.
    - [float] values are exact rationals ([Qc]): there is no rounding, no
      infinity and no NaN, and a sum does not depend on the order of its
      terms.  What is proved of the values computed holds of the code under
      exact arithmetic only.
    - [int] and [size_t] values are integers of [Z]; every conversion the
      source performs between the two is written out with its wrap-around,
      and a signed overflow is reported as undefined behaviour.
    - a [float*] is a buffer: a total function from offsets to values.  What
      lies outside a matrix is whatever the memory holds there; a load past
      the end of a matrix (the 4-wide loop, past an input row whose length
      is not a multiple of 4) or through the data pointer of an empty
      matrix (an empty bias) is not told apart from a load inside it.
    - the AVX2 kernel [fastGEMM1T_avx2] lives in another translation unit;
      the model covers the code of this file, i.e. [useAVX2_ = false]. *)

From Stdlib Require Import ZArith QArith Qcanon List Lia Bool.
Import ListNotations.
Open Scope Z_scope.

(** ** Machine integers *)

Definition INT_MIN : Z := - 2 ^ 31.
Definition INT_MAX : Z := 2 ^ 31 - 1.

(** [(int)x]: conversion of an integer value to a 32-bit [int]. *)
Definition to_int (x : Z) : Z := (x + 2 ^ 31) mod 2 ^ 32 - 2 ^ 31.

(** [(size_t)x], and the result of every [size_t] operation: 64 bits. *)
Definition to_size_t (x : Z) : Z := x mod 2 ^ 64.

Definition in_int (x : Z) : bool := (INT_MIN <=? x) && (x <=? INT_MAX).

(** [long] and [int64] are 64-bit signed. *)
Definition in_long (x : Z) : bool := (- 2 ^ 63 <=? x) && (x <=? 2 ^ 63 - 1).

(** ** Outcomes of a call *)

Inductive Error : Type :=
| StsAssert      (* a CV_Assert that does not hold *)
| StsBadArg.     (* a CV_Error raised by a Mat operation *)

Inductive outcome (A : Type) : Type :=
| Ok (a : A)
| Throw (e : Error)   (* a cv::Exception reaches the caller *)
| Undefined           (* the C++ program has undefined behaviour *)
| OutOfFuel.          (* the loop did not finish within the model's bound *)

Arguments Ok {A} a.
Arguments Throw {A} e.
Arguments Undefined {A}.
Arguments OutOfFuel {A}.

Definition bind {A B : Type} (m : outcome A) (k : A -> outcome B) : outcome B :=
  match m with
  | Ok a => k a
  | Throw e => Throw e
  | Undefined => Undefined
  | OutOfFuel => OutOfFuel
  end.

Notation "x <- m ;; k" := (bind m (fun x => k))
  (at level 61, m at next level, right associativity).

Definition CV_Assert (b : bool) : outcome unit :=
  if b then Ok tt else Throw StsAssert.

(** Signed arithmetic on [int]: an overflow is undefined behaviour. *)
Definition int_op (x : Z) : outcome Z :=
  if in_int x then Ok x else Undefined.

Definition long_op (x : Z) : outcome Z :=
  if in_long x then Ok x else Undefined.

(** ** Floats and buffers *)

Definition float : Type := Qc.

Definition fzero : float := Q2Qc 0.

Definition of_Z (z : Z) : float := Q2Qc (inject_Z z).

Definition buffer : Type := Z -> float.

(** [p[i] = v] *)
Definition store (b : buffer) (i : Z) (v : float) : buffer :=
  fun a => if a =? i then v else b a.

(** The pointer [p + o]. *)
Definition shift (b : buffer) (o : Z) : buffer := fun k => b (o + k).

(** ** Loops *)

(** [for (i = i0; cond i; i += step) s = body i s], run for at most [fuel]
    rounds; the index reached is returned with the state. *)
Fixpoint for_ {S : Type} (fuel : nat) (cond : Z -> bool) (step : Z)
         (body : Z -> S -> S) (i : Z) (s : S) : Z * S :=
  match fuel with
  | O => (i, s)
  | S fuel' =>
      if cond i then for_ fuel' cond step body (i + step) (body i s)
      else (i, s)
  end.

(** ** Matrices

    [cv::Mat] restricted to what the layer touches: dense single-channel
    tensors, and 2-D matrices whose rows are [step1] elements apart. *)

Inductive ElemType : Type := CV_8U | CV_32F | CV_64F.

Definition ElemType_eqb (a b : ElemType) : bool :=
  match a, b with
  | CV_8U, CV_8U | CV_32F, CV_32F | CV_64F, CV_64F => true
  | _, _ => false
  end.

Definition MatShape : Type := list Z.

Record Mat : Type := mkMat {
  size : MatShape;     (* size[0..dims) *)
  type : ElemType;
  step1 : Z;           (* elements from one row to the next *)
  data : buffer
}.

Definition dims (m : Mat) : Z := Z.of_nat (length (size m)).

Definition rows (m : Mat) : Z :=
  match size m with
  | [] => 0
  | [r; _] => r
  | _ => -1
  end.

Definition cols (m : Mat) : Z :=
  match size m with
  | [] => 0
  | [_; c] => c
  | _ => -1
  end.

Definition prod (l : list Z) : Z := fold_right Z.mul 1 l.

(** [Mat::total()] *)
Definition total (m : Mat) : Z :=
  match size m with
  | [] => 0
  | l => prod l
  end.

Definition empty (m : Mat) : bool := total m =? 0.

Definition isContinuous (m : Mat) : bool :=
  match size m with
  | [r; c] => (step1 m =? c) || (r <=? 1)
  | _ => true
  end.

(** [m.ptr<float>(r)] of a 2-D matrix, as an offset into [data m]. *)
Definition row_ofs (m : Mat) (r : Z) : Z := r * step1 m.

(** The element in row [r], column [c] of a 2-D matrix. *)
Definition at_ (m : Mat) (r c : Z) : float := data m (row_ofs m r + c).

(** [Mat::total(startDim, endDim)]: the product of the sizes of the
    dimensions in [startDim, min(endDim, dims)). *)
Definition total_range (m : Mat) (startDim endDim : Z) : outcome Z :=
  _ <- CV_Assert ((0 <=? startDim) && (startDim <=? endDim)) ;;
  Ok (prod (firstn (Z.to_nat (endDim - startDim))
                   (skipn (Z.to_nat startDim) (size m)))).

(** [Mat::reshape(1, new_rows)] belongs to the OpenCV core library.  The
    model follows its documented behaviour on single-channel matrices: the
    same data seen as [new_rows] rows of equal length; [new_rows = 0]
    leaves the header as it is; the row count of a 2-D matrix can only be
    changed when the matrix is continuous. *)
Definition reshape (m : Mat) (new_rows : Z) : outcome Mat :=
  if new_rows =? 0 then Ok m
  else if (dims m =? 2) && (new_rows =? rows m) then Ok m
  else if new_rows <? 0 then Throw StsBadArg
  else if negb (isContinuous m) then Throw StsBadArg
  else if total m <? new_rows then Throw StsBadArg
  else if negb (total m mod new_rows =? 0) then Throw StsBadArg
  else Ok (mkMat [new_rows; total m / new_rows] (type m)
                 (total m / new_rows) (data m)).

(** [alignSize(sz, n)] of the core library: [(sz + n-1) & -n]. *)
Definition alignSize (sz n : Z) : Z :=
  to_size_t (Z.land (to_size_t (sz + n - 1)) (to_size_t (- n))).

(** [Mat::zeros(1, n, type)]: a fresh row of [n] zeros; [heap] is what the
    memory around the allocation holds. *)
Definition zeros (n : Z) (t : ElemType) (heap : buffer) : Mat :=
  mkMat [1; n] t n (fun a => if (0 <=? a) && (a <? n) then fzero else heap a).

(** Modelled from the spec: [clamp], [total] and [shape] of
    opencv2/dnn/shape_utils.hpp, which this file only calls.  [outerSize]
    is "the product of dimensions up to a configured axis"; a negative axis
    counts from the last dimension; the element count of a shape is the
    product of its dimensions, computed in [int]. *)
Definition clamp (ax dims_ : Z) : outcome Z :=
  if ax <? 0 then int_op (ax + dims_) else Ok ax.

(** Modelled from the spec: the running product of [total], formed in
    [int]. *)
Fixpoint int_prod (l : list Z) (elems : Z) : outcome Z :=
  match l with
  | [] => Ok elems
  | d :: l' => e <- int_op (elems * d) ;; int_prod l' e
  end.

(** Modelled from the spec: [total(shape, start, end)], the product of the
    dimensions in [start, end); an empty shape has no elements. *)
Definition shape_total (s : MatShape) (start end_ : Z) : outcome Z :=
  match s with
  | [] => Ok 0
  | _ =>
      _ <- CV_Assert ((0 <=? start) && (start <? Z.of_nat (length s))
                      && (end_ <=? Z.of_nat (length s)) && (start <=? end_)) ;;
      int_prod (firstn (Z.to_nat (end_ - start)) (skipn (Z.to_nat start) s)) 1
  end.

(** Modelled from the spec: [total(shape)], the element count of a shape. *)
Definition shape_total_all (s : MatShape) : outcome Z :=
  shape_total s 0 (Z.of_nat (length s)).

(** Modelled from the spec: [shape(a, b)], the two-dimensional shape. *)
Definition shape (a b : Z) : MatShape := [a; b].

(** [std::vector::resize(n, x)]: elements already present are kept. *)
Definition resize {A : Type} (v : list A) (n : nat) (x : A) : list A :=
  firstn n v ++ repeat x (n - length v).

(** ** The layer *)

Definition VEC_ALIGN : Z := 8.

Record LayerParams : Type := mkParams {
  num_output : Z;
  bias_term : bool;
  axis_param : Z
}.

Record FullyConnectedLayerImpl : Type := mkLayer {
  blobs : list Mat;
  bias : bool;
  axis : Z;
  weightsMat : Mat;
  biasMat : Mat
}.

(** [a / b] on [int]. *)
Definition int_div (a b : Z) : outcome Z :=
  if b =? 0 then Undefined else int_op (Z.quot a b).

(** The contents of [weightsBuf] once [wpadding.setTo(0)] and
    [blobs[0].copyTo(weightsMat)] have run: rows of [vecsize_aligned]
    elements, the first [vecsize] of each copied from [w], the others zero;
    [heap] is the content of the fresh allocation and of what surrounds it. *)
Definition padded (heap : buffer) (w : Mat) (vecsize vecsize_aligned : Z) : buffer :=
  fun a =>
    let r := a / vecsize_aligned in
    let c := a mod vecsize_aligned in
    if (0 <=? r) && (r <? rows w) then
      if c <? vecsize then at_ w r c else fzero
    else heap a.

(** The constructor, from the blobs that [setParamsFrom] has stored. *)
Definition FullyConnectedLayerImpl_new (params : LayerParams) (blobs0 : list Mat)
           (heap : buffer) : outcome FullyConnectedLayerImpl :=
  let n := Z.of_nat (length blobs0) in
  _ <- CV_Assert ((1 <=? n) && (n <=? 2)) ;;
  match blobs0 with
  | [] => Undefined
  | b0 :: rest =>
      let numOutput := num_output params in
      innerSize <- int_div (to_int (total b0)) numOutput ;;
      let bias_ := bias_term params in
      _ <- CV_Assert ((2 <=? dims b0)
                      && (to_size_t (innerSize * numOutput) =? total b0)) ;;
      _ <- CV_Assert (negb bias_
                      || ((n =? 2)
                          && match rest with
                             | b1 :: _ => to_size_t numOutput =? total b1
                             | [] => false
                             end)) ;;
      w0 <- reshape b0 numOutput ;;
      let vecsize := cols w0 in
      wm <- (if negb (Z.rem vecsize VEC_ALIGN =? 0) then
               let vecsize_aligned := to_int (alignSize vecsize VEC_ALIGN) in
               if vecsize_aligned <? 0 then Throw StsBadArg
               else Ok (mkMat [rows w0; vecsize] (type w0) vecsize_aligned
                              (padded heap w0 vecsize vecsize_aligned))
             else Ok w0) ;;
      match rest with
      | b1 :: _ =>
          if bias_ then
            bm <- reshape b1 1 ;;
            Ok (mkLayer [wm; bm] bias_ (axis_param params) wm bm)
          else
            Ok (mkLayer (wm :: rest) bias_ (axis_param params) wm
                        (zeros numOutput (type wm) heap))
      | [] =>
          if bias_ then Undefined
          else Ok (mkLayer [wm] bias_ (axis_param params) wm
                           (zeros numOutput (type wm) heap))
      end
  end.

(** [getMemoryShapes]; [outputs] is the vector the caller passes in. *)
Definition getMemoryShapes (l : FullyConnectedLayerImpl) (inputs : list MatShape)
           (requiredOutputs : Z) (outputs : list MatShape)
  : outcome (bool * list MatShape) :=
  _ <- CV_Assert (0 <? Z.of_nat (length inputs)) ;;
  let n := Z.of_nat (length (blobs l)) in
  _ <- CV_Assert ((1 <=? n) && (n <=? 2)) ;;
  match blobs l, inputs with
  | b0 :: brest, in0 :: _ =>
      _ <- CV_Assert (dims b0 =? 2) ;;
      cAxis <- clamp (axis l) (Z.of_nat (length in0)) ;;
      outerSize <- shape_total in0 0 cAxis ;;
      let numOutput := nth 0 (size b0) 0 in
      let outputs' := resize outputs (length inputs) (shape outerSize numOutput) in
      if bias l then
        match brest with
        | b1 :: _ =>
            _ <- CV_Assert (to_size_t numOutput =? total b1) ;;
            Ok (false, outputs')
        | [] => Undefined
        end
      else Ok (false, outputs')
  | _, _ => Undefined
  end.

(** [getFLOPS]: [flops] is a [long]; the product is formed in [int]. *)
Fixpoint getFLOPS_loop (innerSize : Z) (outputs : list MatShape) (flops : Z)
  : outcome Z :=
  match outputs with
  | [] => Ok flops
  | o :: outputs' =>
      a <- int_op (3 * innerSize) ;;
      t <- shape_total_all o ;;
      b <- int_op (a * t) ;;
      flops' <- long_op (flops + b) ;;
      getFLOPS_loop innerSize outputs' flops'
  end.

Definition getFLOPS (l : FullyConnectedLayerImpl) (inputs outputs : list MatShape)
  : outcome Z :=
  match blobs l with
  | b0 :: _ => getFLOPS_loop (nth 1 (size b0) 0) outputs 0
  | [] => Undefined
  end.

(** ** Universal intrinsics used by the 4-wide kernel *)

Record vfloat32x4 : Type := mkv {
  lane0 : float; lane1 : float; lane2 : float; lane3 : float
}.

Definition v_setall_f32 (x : float) : vfloat32x4 := mkv x x x x.

(** [v_load(p + k)] and [v_load_aligned(p + k)]: four consecutive floats. *)
Definition v_load (p : buffer) (k : Z) : vfloat32x4 :=
  mkv (p k) (p (k + 1)) (p (k + 2)) (p (k + 3)).

Definition v_add (a b : vfloat32x4) : vfloat32x4 :=
  mkv (lane0 a + lane0 b)%Qc (lane1 a + lane1 b)%Qc
      (lane2 a + lane2 b)%Qc (lane3 a + lane3 b)%Qc.

Definition v_mul (a b : vfloat32x4) : vfloat32x4 :=
  mkv (lane0 a * lane0 b)%Qc (lane1 a * lane1 b)%Qc
      (lane2 a * lane2 b)%Qc (lane3 a * lane3 b)%Qc.

Definition v_reduce_sum (a : vfloat32x4) : float :=
  (lane0 a + lane1 a + lane2 a + lane3 a)%Qc.

Definition v_reduce_sum4 (a b c d : vfloat32x4) : vfloat32x4 :=
  mkv (v_reduce_sum a) (v_reduce_sum b) (v_reduce_sum c) (v_reduce_sum d).

(** [v_store(p + k, v)] *)
Definition v_store (p : buffer) (k : Z) (v : vfloat32x4) : buffer :=
  store (store (store (store p k (lane0 v)) (k + 1) (lane1 v))
               (k + 2) (lane2 v)) (k + 3) (lane3 v).

(** ** The parallel loop body *)

Record Range : Type := mkRange { start : Z; end_ : Z }.

Record FullConnected : Type := mkFullConnected {
  srcMat_ : Mat;
  weights_ : Mat;
  biasMat_ : Mat;
  dstMat_ : Mat;       (* the header; the cells are threaded as a buffer *)
  nstripes_ : Z
}.

(** The constructor of [FullConnected]. *)
Definition FullConnected_new (srcMat weights biasMat dstMat : Mat) (nstripes : Z)
  : outcome FullConnected :=
  _ <- CV_Assert ((dims srcMat =? 2) && (cols srcMat =? cols weights)
                  && (rows dstMat =? rows srcMat) && (cols dstMat =? rows weights)
                  && ElemType_eqb (type srcMat) (type weights)
                  && ElemType_eqb (type weights) (type dstMat)
                  && ElemType_eqb (type srcMat) CV_32F
                  && (empty biasMat
                      || (ElemType_eqb (type biasMat) (type srcMat)
                          && isContinuous biasMat
                          && (to_int (total biasMat) =? cols dstMat)))) ;;
  Ok (mkFullConnected srcMat weights biasMat dstMat nstripes).

Section Kernel.

(** One run of [nw] output cells of one sample: [sptr] is the sample's
    row, [w] the weight buffer with the run's first row at offset [wofs0]
    and rows [wstep] apart, [biasptr] the bias from the run's first
    column on, and [dofs] the offset of the run's first cell in the
    destination. *)
Variables (sptr w biasptr : buffer) (wstep wofs0 dofs vecsize nw : Z).

(** The state of a loop over rows: the offset of [wptr], and [dst]. *)
Definition rows_state : Type := (Z * buffer)%type.

Definition scalar_dot (wofs : Z) (s0 : float) : float :=
  snd (for_ (Z.to_nat vecsize) (fun k => k <? vecsize) 1
            (fun k s0 => (s0 + sptr k * w (wofs + k)%Z)%Qc) 0 s0).

(** The body of the scalar loop over the rows of the run. *)
Definition scalar_row_body (i : Z) (st : rows_state) : rows_state :=
  let s0 := scalar_dot (fst st) (biasptr i) in
  (fst st + wstep, store (snd st) (dofs + i) s0).

Definition scalar_rows (i0 : Z) (st : rows_state) : Z * rows_state :=
  for_ (Z.to_nat (nw - i0)) (fun i => i <? nw) 1 scalar_row_body i0 st.

Definition vs4 : Type := (vfloat32x4 * vfloat32x4 * vfloat32x4 * vfloat32x4)%type.

(** The body of the loop over [k] of the 4-wide kernel. *)
Definition simd_body (wofs : Z) (k : Z) (vs : vs4) : vs4 :=
  let '(vs0, vs1, vs2, vs3) := vs in
  let v := v_load sptr k in
  (v_add vs0 (v_mul v (v_load w (wofs + k))),
   v_add vs1 (v_mul v (v_load w (wofs + wstep + k))),
   v_add vs2 (v_mul v (v_load w (wofs + wstep * 2 + k))),
   v_add vs3 (v_mul v (v_load w (wofs + wstep * 3 + k)))).

Definition simd_dot (wofs : Z) : vs4 :=
  let z := v_setall_f32 fzero in
  snd (for_ (Z.to_nat vecsize) (fun k => k <? vecsize) 4
            (simd_body wofs) 0 (z, z, z, z)).

(** The body of the 4-wide loop over the rows of the run. *)
Definition simd_row_body (i : Z) (st : rows_state) : rows_state :=
  let '(vs0, vs1, vs2, vs3) := simd_dot (fst st) in
  let s := v_reduce_sum4 vs0 vs1 vs2 vs3 in
  let s := v_add s (v_load biasptr i) in
  (fst st + 4 * wstep, v_store (snd st) (dofs + i) s).

Definition simd_rows (st : rows_state) : Z * rows_state :=
  for_ (Z.to_nat nw) (fun i => i <=? nw - 4) 4 simd_row_body 0 st.

(** The block guarded by [#if CV_SIMD128], then the scalar loop that
    finishes the run; [simd128] tells whether the block is compiled in. *)
Definition kernel (simd128 : bool) (dst : buffer) : outcome buffer :=
  if simd128 then
    _ <- int_op (nw - 4) ;;
    let '(i, st) := simd_rows (wofs0, dst) in
    Ok (snd (snd (scalar_rows i st)))
  else
    Ok (snd (snd (scalar_rows 0 (wofs0, dst)))).

End Kernel.

Section Body.

Variables (simd128 : bool) (fc : FullConnected).

Definition stripeSize_of (total_ nstripes : Z) : Z :=
  to_size_t (total_ + to_size_t nstripes - 1) / to_size_t nstripes.

Definition stripeStart_of (total_ nstripes : Z) (r : Range) : Z :=
  to_size_t (to_size_t (start r) * stripeSize_of total_ nstripes).

Definition stripeEnd_of (total_ nstripes : Z) (r : Range) : Z :=
  if end_ r =? nstripes then total_
  else Z.min (to_size_t (to_size_t (end_ r) * stripeSize_of total_ nstripes))
             total_.

(** The [for( size_t ofs = stripeStart; ofs < stripeEnd; )] loop. *)
Fixpoint stripe_loop (fuel : nat) (stripeEnd ofs : Z) (dst : buffer)
  : outcome buffer :=
  match fuel with
  | O => OutOfFuel
  | S fuel' =>
      if ofs <? stripeEnd then
        let src := srcMat_ fc in
        let weights := weights_ fc in
        let nw0 := rows weights in
        let vecsize := cols src in
        let wstep := step1 weights in
        let sampleIdx := to_int (ofs / to_size_t nw0) in
        let delta :=
          to_int (to_size_t (ofs - to_size_t (to_size_t sampleIdx * to_size_t nw0))) in
        let sptr := shift (data src) (row_ofs src sampleIdx) in
        let wofs := row_ofs weights delta in
        let dofs := row_ofs (dstMat_ fc) sampleIdx + delta in
        let biasptr := shift (data (biasMat_ fc)) delta in
        rest <- int_op (nw0 - delta) ;;
        let nw := Z.min rest (to_int (to_size_t (stripeEnd - ofs))) in
        dst' <- kernel sptr (data weights) biasptr wstep wofs dofs vecsize nw
                       simd128 dst ;;
        stripe_loop fuel' stripeEnd (to_size_t (ofs + to_size_t nw)) dst'
      else Ok dst
  end.

(** [operator()(const Range& r)].  Every round of the loop but the last
    ends a sample, so [nsamples + 1] tests of the loop condition are enough
    whenever the loop makes progress. *)
Definition FullConnected_call (r : Range) (dst : buffer) : outcome buffer :=
  let nsamples := rows (srcMat_ fc) in
  let nw0 := rows (weights_ fc) in
  let nstripes := nstripes_ fc in
  let total_ := to_size_t (to_size_t nsamples * to_size_t nw0) in
  if to_size_t nstripes =? 0 then Undefined
  else
    stripe_loop (S (Z.to_nat nsamples)) (stripeEnd_of total_ nstripes r)
                (stripeStart_of total_ nstripes r) dst.

End Body.

(** [parallel_for_(Range(0, nstripes), body, nstripes)]: the runtime cuts the
    range into consecutive sub-ranges, listed in [split], and hands each to
    the body.  The sub-ranges run here one after the other. *)
Fixpoint parallel_for_ (split : list Range)
         (body : Range -> buffer -> outcome buffer) (dst : buffer)
  : outcome buffer :=
  match split with
  | [] => Ok dst
  | r :: split' => dst' <- body r dst ;; parallel_for_ split' body dst'
  end.

(** A cut of [Range(a, n)] into consecutive non-empty sub-ranges. *)
Fixpoint is_split (a n : Z) (split : list Range) : bool :=
  match split with
  | [] => a =? n
  | r :: split' => (start r =? a) && (a <? end_ r) && (end_ r <=? n)
                   && is_split (end_ r) n split'
  end.

(** One sub-range per stripe. *)
Definition unit_split (n : Z) : list Range :=
  map (fun s => mkRange (Z.of_nat s) (Z.of_nat s + 1)) (seq 0 (Z.to_nat n)).

Section Forward.

Variables (simd128 : bool) (l : FullyConnectedLayerImpl).
(** [getNumThreads()], and how [parallel_for_] cuts the range. *)
Variables (getNumThreads : Z) (split : list Range).

(** One round of the loop of [forward]: [x] is [*input[i]], [y] is
    [output[i]]; the result is [output[i]] after the round. *)
Definition forward_one (outerSize : Z) (x y : Mat) : outcome Mat :=
  srcMat <- reshape x outerSize ;;
  dstMat <- reshape y outerSize ;;
  let nstripes := getNumThreads in
  fconn <- FullConnected_new srcMat (weightsMat l) (biasMat l) dstMat nstripes ;;
  d <- parallel_for_ split (FullConnected_call simd128 fconn) (data dstMat) ;;
  Ok (mkMat (size y) (type y) (step1 y) d).

(** The loop of [forward]; the outputs are returned as the call leaves
    them, also when it does not complete. *)
Fixpoint forward_loop (outerSize : Z) (input output : list Mat)
  : outcome unit * list Mat :=
  match input with
  | [] => (Ok tt, output)
  | x :: input' =>
      match output with
      | [] => (Undefined, [])
      | y :: output' =>
          match forward_one outerSize x y with
          | Ok y' =>
              let (res, ys) := forward_loop outerSize input' output' in
              (res, y' :: ys)
          | Throw e => (Throw e, output)
          | Undefined => (Undefined, output)
          | OutOfFuel => (OutOfFuel, output)
          end
      end
  end.

Definition forward (input output : list Mat) : outcome unit * list Mat :=
  match input with
  | [] => (Undefined, output)
  | x0 :: _ =>
      match (axisCan <- clamp (axis l) (dims x0) ;; total_range x0 0 axisCan) with
      | Ok t => forward_loop (to_int t) input output
      | Throw e => (Throw e, output)
      | Undefined => (Undefined, output)
      | OutOfFuel => (OutOfFuel, output)
      end
  end.

End Forward.

(** ** Notions used to state the properties *)

(** Stripe [s] of [nstripes], as [operator()] computes its bounds when it is
    handed [Range(s, s+1)]: the offsets [ofs] with [start <= ofs < end]. *)
Definition stripe (total_ nstripes s : Z) : Z * Z :=
  (stripeStart_of total_ nstripes (mkRange s (s + 1)),
   stripeEnd_of total_ nstripes (mkRange s (s + 1))).

Definition in_stripe (total_ nstripes s ofs : Z) : Prop :=
  fst (stripe total_ nstripes s) <= ofs < snd (stripe total_ nstripes s).

(** [x[0]*w[0] + ... + x[n-1]*w[n-1]] *)
Fixpoint dot (n : nat) (x w : buffer) : float :=
  match n with
  | O => fzero
  | S n' => (dot n' x w + x (Z.of_nat n') * w (Z.of_nat n'))%Qc
  end.

(** Row [r] of a 2-D matrix, as a pointer. *)
Definition row (m : Mat) (r : Z) : buffer := shift (data m) (row_ofs m r).

(** What the layer is meant to put in cell [(i, j)] of the output. *)
Definition affine (l : FullyConnectedLayerImpl) (srcMat : Mat) (i j : Z) : float :=
  (data (biasMat l) j
   + dot (Z.to_nat (cols (weightsMat l))) (row srcMat i) (row (weightsMat l) j))%Qc.

Definition same_cells (a b : buffer) : Prop := forall i, a i = b i.

(** Two matrices with the same header and the same cells. *)
Definition Mat_equiv (a b : Mat) : Prop :=
  size a = size b /\ type a = type b /\ step1 a = step1 b
  /\ same_cells (data a) (data b).

(** A header that a [Mat] can have: every dimension is a non-negative
    [int], the cells fit in the address space, and the rows of a 2-D matrix
    do not overlap. *)
Definition size_ok (m : Mat) : bool :=
  forallb (fun d => (0 <=? d) && (d <=? INT_MAX)) (size m)
  && (prod (size m) <? 2 ^ 62)
  && match size m with
     | [_; c] => c <=? step1 m
     | _ => true
     end.

(** A dense tensor: the rows of a 2-D matrix follow one another. *)
Definition dense (m : Mat) : bool :=
  match size m with
  | [_; c] => step1 m =? c
  | _ => true
  end.

(** The width the 4-wide kernel reads of a row of [c] columns. *)
Definition roundup4 (c : Z) : Z := 4 * ((c + 3) / 4).

(** The columns of the weight rows that lie beyond the logical width, as
    far as the 4-wide kernel reads them, are zero, and belong to the row. *)
Definition pad_zero (w : Mat) : Prop :=
  forall r k, 0 <= r < rows w -> cols w <= k < roundup4 (cols w) ->
              at_ w r k = fzero.

(** The cells one run of the kernel leaves behind. *)
Definition kernel_cells (sptr w biasptr : buffer) (wstep wofs0 dofs vecsize nw : Z)
           (dst : buffer) : buffer :=
  fun a =>
    if (dofs <=? a) && (a <? dofs + nw) then
      (biasptr (a - dofs)%Z
       + dot (Z.to_nat vecsize) sptr (shift w (wofs0 + (a - dofs) * wstep)%Z))%Qc
    else dst a.

(** The four accumulators of the 4-wide kernel hold, lane by lane, the
    dot products of the first [n] columns with four consecutive rows. *)
Definition dots_ok (sptr w : buffer) (wstep wofs : Z) (n : nat) (vs : vs4) : Prop :=
  let '(vs0, vs1, vs2, vs3) := vs in
  v_reduce_sum vs0 = dot n sptr (shift w wofs)
  /\ v_reduce_sum vs1 = dot n sptr (shift w (wofs + wstep))
  /\ v_reduce_sum vs2 = dot n sptr (shift w (wofs + wstep * 2))
  /\ v_reduce_sum vs3 = dot n sptr (shift w (wofs + wstep * 3)).

(** The length of the run that starts at offset [ofs] of a stripe that ends
    at [stripeEnd], as [operator()] computes it: up to the end of the sample
    or of the stripe, the latter distance converted to [int]. *)
Definition run_length (nw0 stripeEnd ofs : Z) : Z :=
  Z.min (nw0 - ofs mod nw0) (to_int (stripeEnd - ofs)).

(** The call of the kernel in the round of the loop that starts at offset
    [ofs], with the indices decoded, and the cells it is meant to leave. *)
Definition run_kernel (simd128 : bool) (fc : FullConnected) (stripeEnd ofs : Z)
           (dst : buffer) : outcome buffer :=
  let nw0 := rows (weights_ fc) in
  kernel (row (srcMat_ fc) (ofs / nw0)) (data (weights_ fc))
         (shift (data (biasMat_ fc)) (ofs mod nw0))
         (step1 (weights_ fc)) (row_ofs (weights_ fc) (ofs mod nw0))
         (row_ofs (dstMat_ fc) (ofs / nw0) + ofs mod nw0)
         (cols (srcMat_ fc)) (run_length nw0 stripeEnd ofs) simd128 dst.

Definition run_cells (fc : FullConnected) (stripeEnd ofs : Z) (dst : buffer)
  : buffer :=
  let nw0 := rows (weights_ fc) in
  kernel_cells (row (srcMat_ fc) (ofs / nw0)) (data (weights_ fc))
               (shift (data (biasMat_ fc)) (ofs mod nw0))
               (step1 (weights_ fc)) (row_ofs (weights_ fc) (ofs mod nw0))
               (row_ofs (dstMat_ fc) (ofs / nw0) + ofs mod nw0)
               (cols (srcMat_ fc)) (run_length nw0 stripeEnd ofs) dst.

(** Two loop bodies that work on the same matrices with weights and bias
    that hold the same values inside the weight matrix and the bias row. *)
Definition same_problem (fc1 fc2 : FullConnected) : Prop :=
  srcMat_ fc1 = srcMat_ fc2 /\ dstMat_ fc1 = dstMat_ fc2
  /\ nstripes_ fc1 = nstripes_ fc2
  /\ size (weights_ fc1) = size (weights_ fc2)
  /\ step1 (weights_ fc1) = step1 (weights_ fc2)
  /\ (forall r k, 0 <= r < rows (weights_ fc1) -> 0 <= k < cols (weights_ fc1) ->
         at_ (weights_ fc1) r k = at_ (weights_ fc2) r k)
  /\ (forall j, 0 <= j < rows (weights_ fc1) ->
         data (biasMat_ fc1) j = data (biasMat_ fc2) j).

(** Two layers whose weight matrices and bias rows have the same headers
    and hold the same values. *)
Definition same_layer (l1 l2 : FullyConnectedLayerImpl) : Prop :=
  axis l1 = axis l2
  /\ size (weightsMat l1) = size (weightsMat l2)
  /\ type (weightsMat l1) = type (weightsMat l2)
  /\ step1 (weightsMat l1) = step1 (weightsMat l2)
  /\ (forall r k, 0 <= r < rows (weightsMat l1) -> 0 <= k < cols (weightsMat l1) ->
         at_ (weightsMat l1) r k = at_ (weightsMat l2) r k)
  /\ size (biasMat l1) = size (biasMat l2)
  /\ type (biasMat l1) = type (biasMat l2)
  /\ step1 (biasMat l1) = step1 (biasMat l2)
  /\ (forall j, 0 <= j < rows (weightsMat l1) ->
         data (biasMat l1) j = data (biasMat l2) j).

(** What the constructor establishes about the weight matrix, as far as
    the forward pass relies on it. *)
Definition layer_ok (l : FullyConnectedLayerImpl) : Prop :=
  size_ok (weightsMat l) = true /\ dims (weightsMat l) = 2
  /\ pad_zero (weightsMat l).

(** The output cell of flattened offset [ofs]: where it lies in the
    destination, and the value the layer is meant to give it. *)
Definition cell_addr (fc : FullConnected) (ofs : Z) : Z :=
  let nw0 := rows (weights_ fc) in
  row_ofs (dstMat_ fc) (ofs / nw0) + ofs mod nw0.

Definition cell_value (fc : FullConnected) (ofs : Z) : float :=
  let nw0 := rows (weights_ fc) in
  (data (biasMat_ fc) (ofs mod nw0)
   + dot (Z.to_nat (cols (srcMat_ fc))) (row (srcMat_ fc) (ofs / nw0))
         (row (weights_ fc) (ofs mod nw0)))%Qc.

(** [d] is [dst] with the cells of the offsets in [lo, hi) filled in. *)
Definition filled (fc : FullConnected) (lo hi : Z) (dst d : buffer) : Prop :=
  (forall ofs, lo <= ofs < hi -> d (cell_addr fc ofs) = cell_value fc ofs)
  /\ (forall a, (forall ofs, lo <= ofs < hi -> cell_addr fc ofs <> a) ->
                d a = dst a).

(** No sub-range that the runtime hands to the body spans more than
    [INT_MAX] cells of an output of [cells] cells. *)
Definition range_fits (cells nstripes : Z) (r : Range) : bool :=
  stripeEnd_of cells nstripes r - stripeStart_of cells nstripes r <=? INT_MAX.

Definition fits (cells nstripes : Z) (split : list Range) : bool :=
  forallb (range_fits cells nstripes) split.

(** Two outcomes that agree: the same kind of outcome, and results related
    by [R]; when [ub] is set, undefined behaviour of the first run is
    matched by anything. *)
Definition agree {A : Type} (ub : bool) (R : A -> A -> Prop)
           (o1 o2 : outcome A) : Prop :=
  match o1, o2 with
  | Undefined, Undefined => True
  | Undefined, _ => ub = true
  | Ok a, Ok b => R a b
  | Throw e1, Throw e2 => e1 = e2
  | OutOfFuel, OutOfFuel => True
  | _, _ => False
  end.

(** Two calls of [forward] that agree: they end the same way and leave
    the same outputs; when [ub] is set, undefined behaviour of the first
    call is matched by anything. *)
Definition results_agree (ub : bool) (r1 r2 : outcome unit * list Mat) : Prop :=
  (ub = true /\ fst r1 = Undefined)
  \/ (fst r1 = fst r2 /\ Forall2 Mat_equiv (snd r1) (snd r2)).

(** The batch row count as [forward] computes it, from [*input[0]], and as
    [getMemoryShapes] computes it, from [inputs[0]]. *)
Definition forward_outerSize (l : FullyConnectedLayerImpl) (x0 : Mat) : outcome Z :=
  axisCan <- clamp (axis l) (dims x0) ;; total_range x0 0 axisCan.

Definition shapes_outerSize (l : FullyConnectedLayerImpl) (in0 : MatShape)
  : outcome Z :=
  cAxis <- clamp (axis l) (Z.of_nat (length in0)) ;; shape_total in0 0 cAxis.

(** The checks that a round of [forward] makes on [*input[i]] and
    [output[i]] before the parallel loop starts: the two calls of [reshape]
    and the assertion of the [FullConnected] constructor. *)
Definition checks_pass (l : FullyConnectedLayerImpl) (nstripes outerSize : Z)
           (x y : Mat) : Prop :=
  exists srcMat dstMat fc,
    reshape x outerSize = Ok srcMat /\ reshape y outerSize = Ok dstMat
    /\ FullConnected_new srcMat (weightsMat l) (biasMat l) dstMat nstripes = Ok fc.

(** The bias of output [j] as the blobs given to the constructor have it:
    the cell of the bias blob, or zero when the bias term is disabled. *)
Definition raw_bias (params : LayerParams) (rest : list Mat) (j : Z) : float :=
  if bias_term params then
    match rest with
    | b1 :: _ => data b1 j
    | [] => fzero
    end
  else fzero.

(** The number of offsets in a stripe. *)
Definition stripe_cells (total_ nstripes s : Z) : Z :=
  Z.max 0 (snd (stripe total_ nstripes s) - fst (stripe total_ nstripes s)).

(** [n] rounds of a loop whose index advances by [step]. *)
Fixpoint loop_n {S : Type} (n : nat) (step : Z) (body : Z -> S -> S)
         (i : Z) (s : S) : S :=
  match n with
  | O => s
  | S n' => loop_n n' step body (i + step) (body i s)
  end.

(** The cost estimate in unbounded arithmetic. *)
Definition flops_sum (innerSize : Z) (outputs : list MatShape) : Z :=
  fold_right (fun o acc => 3 * innerSize * prod o + acc) 0 outputs.

(** ** Concrete data for the examples *)

(** A buffer that holds the integers of [l] from offset 0 on, and [heap]
    elsewhere. *)
Definition of_list (l : list Z) (heap : buffer) : buffer :=
  fun a => if a <? 0 then heap a else nth (Z.to_nat a) (map of_Z l) (heap a).

Definition zero_heap : buffer := fun _ => fzero.

(** Memory whose cells all differ from what the examples compute. *)
Definition junk : buffer := fun a => of_Z (1000 + a).

(** A dense tensor of floats. *)
Definition tensor (shape_ : MatShape) (cells : buffer) : Mat :=
  mkMat shape_ CV_32F (last shape_ 0) cells.

(** * Properties *)

(** ** Machine arithmetic *)

Lemma to_size_t_small x : 0 <= x < 2 ^ 64 -> to_size_t x = x.
Proof. intros; unfold to_size_t; apply Z.mod_small; lia. Qed.

Lemma to_int_small x : INT_MIN <= x <= INT_MAX -> to_int x = x.
Proof.
  unfold to_int, INT_MIN, INT_MAX; intros.
  rewrite Z.mod_small; lia.
Qed.

(** The stripe size, when the sum [total + nstripes - 1] fits in 64 bits
    and when it wraps around. *)
Lemma stripeSize_nowrap total_ n :
  0 <= total_ -> 1 <= n <= INT_MAX -> total_ + n - 1 < 2 ^ 64 ->
  let S := stripeSize_of total_ n in
  S = (total_ + n - 1) / n /\ total_ <= n * S /\ n * S <= total_ + n - 1 /\ 0 <= S.
Proof.
  intros Ht Hn Hw S. subst S. unfold stripeSize_of, INT_MAX in *.
  rewrite (to_size_t_small n) by lia.
  rewrite to_size_t_small by lia.
  split; [reflexivity|].
  pose proof (Z.div_mod (total_ + n - 1) n ltac:(lia)).
  pose proof (Z.mod_pos_bound (total_ + n - 1) n ltac:(lia)).
  pose proof (Z.div_pos (total_ + n - 1) n ltac:(lia) ltac:(lia)).
  nia.
Qed.

Lemma stripeSize_wrap total_ n :
  0 <= total_ < 2 ^ 64 -> 1 <= n <= INT_MAX -> 2 ^ 64 <= total_ + n - 1 ->
  stripeSize_of total_ n = 0.
Proof.
  intros Ht Hn Hw. unfold stripeSize_of, INT_MAX, to_size_t in *.
  rewrite (Z.mod_small n) by lia.
  replace ((total_ + n - 1) mod 2 ^ 64) with (total_ + n - 1 - 2 ^ 64).
  - apply Z.div_small. lia.
  - apply Z.mod_unique with (q := 1); lia.
Qed.

(** The bounds of a stripe in closed form, in both cases. *)
Lemma stripe_nowrap total_ n s :
  0 <= total_ -> 1 <= n <= INT_MAX -> total_ + n - 1 < 2 ^ 64 -> 0 <= s < n ->
  stripe total_ n s =
    (s * stripeSize_of total_ n, Z.min ((s + 1) * stripeSize_of total_ n) total_).
Proof.
  intros Ht Hn Hw Hs.
  destruct (stripeSize_nowrap total_ n Ht Hn Hw) as (_ & H1 & H2 & H3).
  unfold stripe, stripeStart_of, stripeEnd_of; cbn [start end_].
  unfold INT_MAX in *.
  rewrite (to_size_t_small s) by lia.
  rewrite (to_size_t_small (s * _)) by nia.
  f_equal.
  destruct (Z.eqb_spec (s + 1) n) as [E|E].
  - rewrite E. lia.
  - rewrite (to_size_t_small (s + 1)) by lia.
    rewrite (to_size_t_small ((s + 1) * _)) by nia. reflexivity.
Qed.

Lemma stripe_wrap total_ n s :
  0 <= total_ < 2 ^ 64 -> 1 <= n <= INT_MAX -> 2 ^ 64 <= total_ + n - 1 -> 0 <= s < n ->
  stripe total_ n s = (0, if s + 1 =? n then total_ else 0).
Proof.
  intros Ht Hn Hw Hs.
  unfold stripe, stripeStart_of, stripeEnd_of; cbn [start end_].
  rewrite (stripeSize_wrap total_ n Ht Hn Hw).
  rewrite !Z.mul_0_r. change (to_size_t 0) with 0.
  destruct (s + 1 =? n); [reflexivity | f_equal; lia].
Qed.


Lemma stripe_bounds total_ n s :
  0 <= total_ < 2 ^ 64 -> 1 <= n <= INT_MAX -> 0 <= s < n ->
  0 <= fst (stripe total_ n s) /\ snd (stripe total_ n s) <= total_.
Proof.
  intros Ht Hn Hs.
  destruct (Z_lt_le_dec (total_ + n - 1) (2 ^ 64)) as [Hw|Hw].
  - rewrite stripe_nowrap by lia. cbn [fst snd].
    destruct (stripeSize_nowrap total_ n ltac:(lia) Hn Hw) as (_ & H1 & H2 & H3).
    split; [nia | lia].
  - rewrite stripe_wrap by lia. cbn [fst snd].
    destruct (s + 1 =? n); lia.
Qed.

Lemma stripe_next total_ n s :
  0 <= total_ < 2 ^ 64 -> 1 <= n <= INT_MAX -> 0 <= s -> s + 1 < n ->
  snd (stripe total_ n s) <= fst (stripe total_ n (s + 1)).
Proof.
  intros Ht Hn Hs Hs1.
  destruct (Z_lt_le_dec (total_ + n - 1) (2 ^ 64)) as [Hw|Hw].
  - rewrite !stripe_nowrap by lia. cbn [fst snd]. lia.
  - rewrite !stripe_wrap by lia. cbn [fst snd].
    destruct (Z.eqb_spec (s + 1) n); lia.
Qed.

Lemma stripe_start_mono total_ n s t :
  0 <= total_ < 2 ^ 64 -> 1 <= n <= INT_MAX -> 0 <= s <= t -> t < n ->
  fst (stripe total_ n s) <= fst (stripe total_ n t).
Proof.
  intros Ht Hn Hs Hs1.
  destruct (Z_lt_le_dec (total_ + n - 1) (2 ^ 64)) as [Hw|Hw].
  - rewrite !stripe_nowrap by lia. cbn [fst snd].
    destruct (stripeSize_nowrap total_ n ltac:(lia) Hn Hw) as (_ & H1 & H2 & H3).
    nia.
  - rewrite !stripe_wrap by lia. cbn [fst snd]. lia.
Qed.

Lemma stripe_cover total_ n ofs :
  0 <= total_ < 2 ^ 64 -> 1 <= n <= INT_MAX -> 0 <= ofs < total_ ->
  exists s, 0 <= s < n /\ in_stripe total_ n s ofs.
Proof.
  intros Ht Hn Ho. unfold in_stripe.
  destruct (Z_lt_le_dec (total_ + n - 1) (2 ^ 64)) as [Hw|Hw].
  - destruct (stripeSize_nowrap total_ n ltac:(lia) Hn Hw) as (_ & H1 & H2 & H3).
    set (S := stripeSize_of total_ n) in *.
    assert (0 < S) by nia.
    pose proof (Z.div_mod ofs S ltac:(lia)).
    pose proof (Z.mod_pos_bound ofs S ltac:(lia)).
    assert (0 <= ofs / S) by (apply Z.div_pos; lia).
    assert (ofs / S < n) by (apply Z.div_lt_upper_bound; nia).
    exists (ofs / S). split; [lia|].
    rewrite stripe_nowrap by lia. fold S. cbn [fst snd].
    split; [nia|]. apply Z.min_glb_lt; nia.
  - exists (n - 1). split; [lia|].
    rewrite stripe_wrap by lia. cbn [fst snd].
    replace (n - 1 + 1 =? n) with true by (symmetry; apply Z.eqb_eq; lia). lia.
Qed.

Lemma stripe_ordered total_ n s t x y :
  0 <= total_ < 2 ^ 64 -> 1 <= n <= INT_MAX -> 0 <= s < t -> t < n ->
  in_stripe total_ n s x -> in_stripe total_ n t y -> x < y.
Proof.
  unfold in_stripe. intros Ht Hn Hs Htn Hx Hy.
  pose proof (stripe_next total_ n s Ht Hn ltac:(lia) ltac:(lia)).
  pose proof (stripe_start_mono total_ n (s + 1) t Ht Hn ltac:(lia) ltac:(lia)).
  lia.
Qed.

(** C2: for every [total] of [size_t] and every stripe count [n >= 1] of
    [int] (also [n > total]), the stripes that [operator()] computes are
    pairwise disjoint and cover [0, total) exactly once: every offset below
    [total] lies in exactly one stripe, a stripe holds only offsets below
    [total], the offsets of an earlier stripe precede those of a later one,
    and a stripe that is not empty starts where the one before it ends. *)
Theorem stripes_partition total_ n :
  0 <= total_ < 2 ^ 64 -> 1 <= n <= INT_MAX ->
  (forall ofs, 0 <= ofs < total_ ->
     exists s, (0 <= s < n /\ in_stripe total_ n s ofs) /\
               forall s', 0 <= s' < n -> in_stripe total_ n s' ofs -> s' = s) /\
  (forall s ofs, 0 <= s < n -> in_stripe total_ n s ofs -> 0 <= ofs < total_) /\
  (forall s t x y, 0 <= s < t -> t < n ->
     in_stripe total_ n s x -> in_stripe total_ n t y -> x < y) /\
  (forall s, 0 <= s -> s + 1 < n ->
     fst (stripe total_ n (s + 1)) < snd (stripe total_ n (s + 1)) ->
     snd (stripe total_ n s) = fst (stripe total_ n (s + 1))).
Proof.
  intros Ht Hn.
  split; [|split; [|split]].
  - intros ofs Ho.
    destruct (stripe_cover total_ n ofs Ht Hn Ho) as (s & Hs & Hin).
    exists s. split; [tauto|].
    intros s' Hs' Hin'.
    destruct (Z.lt_trichotomy s' s) as [L|[E|L]]; [|exact E|].
    + pose proof (stripe_ordered total_ n s' s ofs ofs Ht Hn ltac:(lia) ltac:(lia) Hin' Hin). lia.
    + pose proof (stripe_ordered total_ n s s' ofs ofs Ht Hn ltac:(lia) ltac:(lia) Hin Hin'). lia.
  - intros s ofs Hs Hin. unfold in_stripe in Hin.
    pose proof (stripe_bounds total_ n s Ht Hn Hs). lia.
  - intros s t x y Hs Htn. apply stripe_ordered; assumption.
  - intros s Hs Hs1.
    destruct (Z_lt_le_dec (total_ + n - 1) (2 ^ 64)) as [Hw|Hw].
    + rewrite !stripe_nowrap by lia. cbn [fst snd]. lia.
    + rewrite !stripe_wrap by lia. cbn [fst snd].
      destruct (Z.eqb_spec (s + 1) n); destruct (Z.eqb_spec (s + 1 + 1) n); lia.
Qed.

Lemma stripes_partition_witness :
  map (stripe 3 4) [0; 1; 2; 3] = [(0, 1); (1, 2); (2, 3); (3, 3)]
  /\ forall ofs, 0 <= ofs < 3 ->
       exists s, (0 <= s < 4 /\ in_stripe 3 4 s ofs) /\
                 forall s', 0 <= s' < 4 -> in_stripe 3 4 s' ofs -> s' = s.
Proof.
  split; [reflexivity|].
  exact (proj1 (stripes_partition 3 4 ltac:(lia) ltac:(unfold INT_MAX; lia))).
Defined.

(** ** Weight preparation *)

(** Equations between floats, by the ring laws of the rationals. *)
Ltac fring := unfold fzero, float in *; ring.

Lemma land_clear3 y :
  0 <= y < 2 ^ 64 -> Z.land y (2 ^ 64 - 8) = 8 * (y / 8).
Proof.
  intros Hy.
  change (2 ^ 64 - 8) with (Z.shiftl (Z.ones 61) 3).
  replace (8 * (y / 8)) with (Z.shiftl (Z.shiftr y 3) 3)
    by (rewrite Z.shiftl_mul_pow2, Z.shiftr_div_pow2 by lia;
        change (2 ^ 3) with 8; lia).
  apply Z.bits_inj'. intros n Hn.
  rewrite Z.land_spec.
  destruct (Z_lt_le_dec n 3) as [L|L].
  - rewrite !Z.shiftl_spec_low by lia. apply andb_false_r.
  - rewrite !Z.shiftl_spec by lia. rewrite Z.shiftr_spec by lia.
    replace (n - 3 + 3) with n by lia.
    destruct (Z_lt_le_dec n 64) as [L'|L'].
    + rewrite Z.ones_spec_low by lia. apply andb_true_r.
    + rewrite Z.ones_spec_high by lia.
      rewrite andb_false_r. symmetry.
      destruct (Z.eq_dec y 0) as [->|Hy0]; [apply Z.bits_0|].
      apply Z.bits_above_log2; [lia|].
      apply Z.log2_lt_pow2; [lia|].
      apply Z.lt_le_trans with (2 ^ 64); [lia|].
      apply Z.pow_le_mono_r; lia.
Qed.

Lemma alignSize_8 sz :
  0 <= sz <= INT_MAX -> alignSize sz VEC_ALIGN = 8 * ((sz + 7) / 8).
Proof.
  unfold INT_MAX, alignSize, VEC_ALIGN. intros H.
  replace (sz + 8 - 1) with (sz + 7) by lia.
  rewrite (to_size_t_small (sz + 7)) by lia.
  change (to_size_t (- 8)) with (2 ^ 64 - 8).
  rewrite land_clear3 by lia.
  apply to_size_t_small.
  pose proof (Z.div_mod (sz + 7) 8 ltac:(lia)).
  pose proof (Z.mod_pos_bound (sz + 7) 8 ltac:(lia)).
  lia.
Qed.

Lemma bind_Ok {A B} (m : outcome A) (k : A -> outcome B) b :
  bind m k = Ok b -> exists a, m = Ok a /\ k a = Ok b.
Proof. destruct m; cbn; try discriminate. eauto. Qed.

Lemma CV_Assert_Ok b u : CV_Assert b = Ok u -> b = true.
Proof. destruct b; cbn; [reflexivity | discriminate]. Qed.

Lemma int_op_Ok x y : int_op x = Ok y -> y = x /\ INT_MIN <= x <= INT_MAX.
Proof.
  unfold int_op, in_int.
  destruct (Z.leb_spec INT_MIN x); destruct (Z.leb_spec x INT_MAX);
    cbn [andb]; intros E; inversion E; subst; lia.
Qed.

Lemma int_op_in x : INT_MIN <= x <= INT_MAX -> int_op x = Ok x.
Proof.
  intros H. unfold int_op, in_int.
  replace (INT_MIN <=? x) with true by (symmetry; apply Z.leb_le; lia).
  replace (x <=? INT_MAX) with true by (symmetry; apply Z.leb_le; lia).
  reflexivity.
Qed.

Lemma to_int_range x : INT_MIN <= to_int x <= INT_MAX.
Proof.
  unfold to_int, INT_MIN, INT_MAX.
  pose proof (Z.mod_pos_bound (x + 2 ^ 31) (2 ^ 32) ltac:(lia)). lia.
Qed.

Lemma to_size_t_range x : 0 <= to_size_t x < 2 ^ 64.
Proof. unfold to_size_t. apply Z.mod_pos_bound. lia. Qed.

Lemma size_ok_inv m :
  size_ok m = true ->
  Forall (fun d => 0 <= d <= INT_MAX) (size m) /\ prod (size m) < 2 ^ 62
  /\ (dims m = 2 -> cols m <= step1 m).
Proof.
  unfold size_ok. rewrite !andb_true_iff. intros [[H1 H2] H3].
  split; [|split].
  - rewrite forallb_forall in H1. apply Forall_forall. intros d Hd.
    specialize (H1 d Hd). apply andb_true_iff in H1. destruct H1. lia.
  - lia.
  - unfold dims, cols. destruct (size m) as [|a [|b [|c t]]]; cbn; try lia.
Qed.

Lemma prod_nonneg l : Forall (fun d => 0 <= d <= INT_MAX) l -> 0 <= prod l.
Proof. unfold prod. induction 1; cbn; [lia | nia]. Qed.

Lemma total_nonneg m : size_ok m = true -> 0 <= total m < 2 ^ 62.
Proof.
  intros H. destruct (size_ok_inv m H) as (H1 & H2 & _).
  pose proof (prod_nonneg _ H1). unfold total.
  destruct (size m); [cbn; lia | lia].
Qed.

(** The division check of the constructor: when it holds for a tensor that
    exists, [numOutput] divides the element count, which fits an [int]. *)
Lemma inner_size_check t n innerSize :
  0 <= t < 2 ^ 62 -> 0 < n ->
  int_div (to_int t) n = Ok innerSize ->
  to_size_t (innerSize * n) = t ->
  t <= INT_MAX /\ innerSize * n = t /\ 0 <= innerSize /\ innerSize = t / n.
Proof.
  intros Ht Hn Hd He. unfold int_div in Hd.
  destruct (Z.eqb_spec n 0); [lia|].
  apply int_op_Ok in Hd. destruct Hd as [-> _].
  pose proof (to_int_range t) as Hr.
  set (ti := to_int t) in *.
  pose proof (Z.quot_rem' ti n) as Hq.
  pose proof (Z.rem_bound_abs ti n ltac:(lia)) as Hrem.
  pose proof (Z.rem_sign_mul ti n ltac:(lia)) as Hsgn.
  generalize dependent (Z.rem ti n). generalize dependent (Z.quot ti n).
  intros q He r Hq Hrem Hsgn.
  unfold INT_MIN, INT_MAX in *.
  assert (Hp : 0 <= q * n).
  { destruct (Z_lt_le_dec (q * n) 0) as [L|L]; [|exact L]. exfalso.
    assert (q < 0) by nia.
    assert (n * q <= - n) by nia.
    assert (ti < 0) by lia.
    assert (r <= 0) by nia.
    assert (- 2 ^ 31 <= q * n) by lia.
    unfold to_size_t in He.
    assert (q * n + 2 ^ 64 = t); [|lia].
    rewrite <- He. apply Z.mod_unique with (q := -1); lia. }
  assert (Hle : q * n <= 2 ^ 31 - 1).
  { destruct (Z_le_gt_dec q 0) as [L|L]; [nia|].
    assert (n <= n * q) by nia.
    assert (0 < ti) by lia.
    assert (0 <= r) by nia. lia. }
  rewrite to_size_t_small in He by lia.
  assert (Hti : ti = t) by (subst ti; apply to_int_small; unfold INT_MIN, INT_MAX; lia).
  assert (Hq0 : 0 <= q).
  { destruct (Z_lt_le_dec q 0) as [L|L]; [|exact L].
    assert (q * n <= - n) by nia. lia. }
  split; [lia|]. split; [exact He|]. split; [exact Hq0|].
  apply Z.div_unique_exact; lia.
Qed.

(** What [reshape] returns for a dense tensor and a row count other than
    zero. *)
Lemma reshape_dense m n w0 :
  size_ok m = true -> dense m = true -> n <> 0 ->
  reshape m n = Ok w0 ->
  exists c, size w0 = [n; c] /\ 0 < n /\ 0 <= c /\ step1 w0 = c
            /\ data w0 = data m /\ type w0 = type m /\ n * c = total m
            /\ (total m <= INT_MAX -> n <= INT_MAX).
Proof.
  intros Hok Hd Hn. unfold reshape.
  destruct (size_ok_inv m Hok) as (Hf & Hp & _).
  pose proof (total_nonneg m Hok) as Ht.
  destruct (Z.eqb_spec n 0) as [|_]; [contradiction|].
  destruct ((dims m =? 2) && (n =? rows m)) eqn:E.
  - apply andb_true_iff in E. destruct E as [E1 E2].
    apply Z.eqb_eq in E1, E2. intros [= <-].
    unfold dims, rows, dense, total in *.
    destruct (size m) as [|r [|c [|x t]]] eqn:Es; cbn in E1; try lia.
    inversion Hf as [|? ? Hr Hf']; subst. inversion Hf' as [|? ? Hc _]; subst.
    exists c. apply Z.eqb_eq in Hd. cbn [prod fold_right].
    repeat split; try lia.
  - destruct (Z.ltb_spec n 0); [discriminate|].
    destruct (isContinuous m); cbn [negb]; [|discriminate].
    destruct (Z.ltb_spec (total m) n); [discriminate|].
    destruct (Z.eqb_spec (total m mod n) 0) as [Em|]; cbn [negb]; [|discriminate].
    intros [= <-]. cbn [size step1 data type].
    exists (total m / n).
    pose proof (Z.div_mod (total m) n ltac:(lia)).
    assert (0 <= total m / n) by (apply Z.div_pos; lia).
    repeat split; try lia; nia.
Qed.

Lemma dot_zero_tail x w n m :
  (forall k, Z.of_nat n <= k < Z.of_nat (n + m) -> w k = fzero) ->
  dot (n + m) x w = dot n x w.
Proof.
  induction m as [|m IH]; intros H.
  - now rewrite Nat.add_0_r.
  - rewrite Nat.add_succ_r. cbn [dot].
    rewrite IH by (intros k Hk; apply H; lia).
    rewrite (H (Z.of_nat (n + m))) by lia.
    fring.
Qed.

Lemma at_padded heap w0 c stride r k :
  0 < stride -> 0 <= r < rows w0 -> 0 <= k < stride ->
  padded heap w0 c stride (r * stride + k) =
    if k <? c then at_ w0 r k else fzero.
Proof.
  intros Hs Hr Hk. unfold padded.
  assert (Hq : (r * stride + k) / stride = r)
    by (symmetry; apply Z.div_unique with (r := k); lia).
  assert (Hm : (r * stride + k) mod stride = k)
    by (symmetry; apply Z.mod_unique with (q := r); lia).
  cbv zeta. rewrite Hq, Hm.
  replace (0 <=? r) with true by (symmetry; apply Z.leb_le; lia).
  replace (r <? rows w0) with true by (symmetry; apply Z.ltb_lt; lia).
  reflexivity.
Qed.

(** Everything the constructor guarantees about the layer it returns, for
    a dense weight tensor. *)
Lemma new_spec params b0 rest heap l :
  size_ok b0 = true -> dense b0 = true ->
  FullyConnectedLayerImpl_new params (b0 :: rest) heap = Ok l ->
  let n := num_output params in
  exists c stride,
    0 < n <= INT_MAX /\ 0 <= c /\ n * c = total b0 /\ total b0 <= INT_MAX
    /\ 2 <= dims b0 /\ (length rest <= 1)%nat
    /\ size (weightsMat l) = [n; c] /\ step1 (weightsMat l) = stride
    /\ type (weightsMat l) = type b0
    /\ c <= stride <= INT_MAX /\ stride = 8 * ((c + 7) / 8)
    /\ (c mod 8 = 0 -> stride = c /\ data (weightsMat l) = data b0)
    /\ (forall r k, 0 <= r < n -> 0 <= k < c ->
          at_ (weightsMat l) r k = data b0 (r * c + k))
    /\ (forall r k, 0 <= r < n -> c <= k < stride ->
          at_ (weightsMat l) r k = fzero)
    /\ hd (weightsMat l) (blobs l) = weightsMat l
    /\ (1 <= length (blobs l) <= 2)%nat
    /\ bias l = bias_term params /\ axis l = axis_param params
    /\ (bias_term params = false ->
          biasMat l = zeros n (type (weightsMat l)) heap)
    /\ (bias_term params = true ->
          exists b1, rest = [b1] /\ total b1 = n
                     /\ reshape b1 1 = Ok (biasMat l)
                     /\ nth 1 (blobs l) b1 = biasMat l).
Proof.
  intros Hok Hd Hnew n.
  unfold FullyConnectedLayerImpl_new in Hnew. fold n in Hnew.
  apply bind_Ok in Hnew. destruct Hnew as ([] & Hlen & Hnew).
  apply CV_Assert_Ok in Hlen.
  apply bind_Ok in Hnew. destruct Hnew as (innerSize & Hdiv & Hnew).
  apply bind_Ok in Hnew. destruct Hnew as ([] & Hchk & Hnew).
  apply CV_Assert_Ok, andb_true_iff in Hchk. destruct Hchk as [Hdims Hsz].
  apply bind_Ok in Hnew. destruct Hnew as ([] & Hb & Hnew).
  apply CV_Assert_Ok in Hb.
  apply bind_Ok in Hnew. destruct Hnew as (w0 & Hre & Hnew).
  apply bind_Ok in Hnew. destruct Hnew as (wm & Hwm & Hnew).
  assert (Hn0 : n <> 0).
  { unfold int_div in Hdiv. destruct (Z.eqb_spec n 0); [discriminate|assumption]. }
  destruct (reshape_dense b0 n w0 Hok Hd Hn0 Hre)
    as (c & Hsw & Hn & Hc & Hst & Hdat & Hty & Hnc & Hnmax).
  pose proof (total_nonneg b0 Hok) as Ht.
  apply Z.eqb_eq in Hsz.
  destruct (inner_size_check (total b0) n innerSize Ht Hn Hdiv Hsz)
    as (Htmax & _ & _ & _).
  assert (Hcols : cols w0 = c) by (unfold cols; rewrite Hsw; reflexivity).
  assert (Hrows : rows w0 = n) by (unfold rows; rewrite Hsw; reflexivity).
  assert (Hcmax : c <= INT_MAX) by (unfold INT_MAX in *; nia).
  rewrite Hcols, Hrows in Hwm.
  assert (Hrem : Z.rem c VEC_ALIGN = c mod 8)
    by (unfold VEC_ALIGN; apply Z.rem_mod_nonneg; lia).
  rewrite Hrem in Hwm.
  (* the weight matrix *)
  assert (HW : exists stride,
             size wm = [n; c] /\ step1 wm = stride /\ type wm = type b0
             /\ c <= stride <= INT_MAX /\ stride = 8 * ((c + 7) / 8)
             /\ (c mod 8 = 0 -> stride = c /\ data wm = data b0)
             /\ (forall r k, 0 <= r < n -> 0 <= k < c ->
                   at_ wm r k = data b0 (r * c + k))
             /\ (forall r k, 0 <= r < n -> c <= k < stride ->
                   at_ wm r k = fzero)).
  { destruct (Z.eqb_spec (c mod 8) 0) as [E|E]; cbn [negb] in Hwm.
    - injection Hwm as <-. exists c.
      pose proof (Z.div_mod c 8 ltac:(lia)) as Hdc.
      assert (Hs8 : c = 8 * ((c + 7) / 8)).
      { f_equal. rewrite <- (Z.div_unique (c + 7) 8 (c / 8) 7); lia. }
      repeat split; try assumption; try lia.
      all: intros r k Hr Hk; try lia.
      unfold at_, row_ofs. rewrite Hst, Hdat. reflexivity.
    - rewrite alignSize_8 in Hwm by lia.
      pose proof (Z.div_mod (c + 7) 8 ltac:(lia)) as Hdm.
      pose proof (Z.mod_pos_bound (c + 7) 8 ltac:(lia)) as Hmb.
      pose proof (Z.div_mod c 8 ltac:(lia)) as Hdc.
      pose proof (Z.mod_pos_bound c 8 ltac:(lia)) as Hmc.
      set (a := 8 * ((c + 7) / 8)) in *.
      assert (Ha : c <= a <= c + 7) by lia.
      assert (Hamod : a mod 8 = 0)
        by (subst a; rewrite Z.mul_comm; apply Z.mod_mul; lia).
      assert (Hai : to_int a = a).
      { destruct (Z_le_gt_dec a INT_MAX) as [L|L];
          [apply to_int_small; unfold INT_MIN, INT_MAX in *; lia|].
        exfalso. unfold INT_MAX in *.
        assert (a = 2 ^ 31) by lia.
        rewrite H in Hwm. cbn in Hwm. discriminate. }
      rewrite Hai in Hwm.
      destruct (Z.ltb_spec a 0); [discriminate|].
      injection Hwm as <-. exists a. cbn [size step1 type data].
      assert (a <= INT_MAX).
      { destruct (Z_le_gt_dec a INT_MAX) as [L|L]; [exact L|].
        exfalso. unfold INT_MAX in *. assert (Ea : a = 2 ^ 31) by lia.
        rewrite Ea in Hai. cbv in Hai. discriminate. }
      assert (Hpos : 0 < a) by lia.
      split; [reflexivity|]. split; [reflexivity|]. split; [assumption|].
      split; [lia|]. split; [reflexivity|]. split; [intros; lia|].
      split; intros r k Hr Hk; unfold at_, row_ofs; cbn [step1 data];
        rewrite at_padded by lia.
      + replace (k <? c) with true by (symmetry; apply Z.ltb_lt; lia).
        unfold at_, row_ofs. rewrite Hst, Hdat. reflexivity.
      + replace (k <? c) with false by (symmetry; apply Z.ltb_ge; lia).
        reflexivity. }
  destruct HW as (stride & W1 & W2 & W3 & W4 & Wm & W5 & W7 & W8).
  exists c, stride.
  assert (Hrest : (length rest <= 1)%nat).
  { apply andb_true_iff in Hlen. destruct Hlen as [_ Hlen].
    apply Z.leb_le in Hlen. cbn [length] in Hlen. lia. }
  destruct rest as [|b1 rest'].
  - destruct (bias_term params) eqn:Eb; [discriminate|].
    injection Hnew as <-. cbn [weightsMat biasMat blobs bias axis hd length].
    repeat split; try assumption; try lia; try congruence;
      try (match goal with H : c mod 8 = 0 |- _ => destruct (W5 H); congruence end).
  - destruct (bias_term params) eqn:Eb.
    + apply bind_Ok in Hnew. destruct Hnew as (bm & Hbm & Hnew).
      injection Hnew as <-. cbn [weightsMat biasMat blobs bias axis hd length].
      cbn [negb orb] in Hb. apply andb_true_iff in Hb. destruct Hb as [Hb1 Hb2].
      apply Z.eqb_eq in Hb2.
      rewrite to_size_t_small in Hb2 by (unfold INT_MAX in *; lia).
      assert (rest' = []) by (destruct rest'; [reflexivity | cbn in Hrest; lia]).
      subst rest'.
      repeat split; try assumption; try lia; try congruence;
        try (match goal with H : c mod 8 = 0 |- _ => destruct (W5 H); congruence end).
      exists b1. repeat split; congruence.
    + injection Hnew as <-. cbn [weightsMat biasMat blobs bias axis hd length].
      cbn [length] in Hrest.
      repeat split; try assumption; try lia; try congruence;
        try (match goal with H : c mod 8 = 0 |- _ => destruct (W5 H); congruence end).
Qed.

(** C3: after the weights are prepared, the stored matrix has [numOutputs]
    rows; its row stride is at least [innerSize] and a multiple of 8; a row
    read over the whole stride gives the [innerSize] original values and
    then zeros, so that a dot product over the stride equals the one over
    [innerSize]; and when [innerSize] is a multiple of 8 the stride is
    [innerSize] and the matrix still is the buffer of the raw tensor. *)
Theorem weights_padded params b0 rest heap l :
  size_ok b0 = true -> dense b0 = true ->
  FullyConnectedLayerImpl_new params (b0 :: rest) heap = Ok l ->
  let w := weightsMat l in
  let innerSize := cols w in
  let stride := step1 w in
  rows w = num_output params
  /\ num_output params * innerSize = total b0
  /\ innerSize <= stride /\ stride mod VEC_ALIGN = 0
  /\ (forall r k, 0 <= r < rows w -> 0 <= k < stride ->
        row w r k = if k <? innerSize then data b0 (r * innerSize + k)
                    else fzero)
  /\ (forall r x, 0 <= r < rows w ->
        dot (Z.to_nat stride) x (row w r) = dot (Z.to_nat innerSize) x (row w r))
  /\ (innerSize mod VEC_ALIGN = 0 -> stride = innerSize /\ data w = data b0).
Proof.
  intros Hok Hd Hnew w innerSize stride.
  destruct (new_spec params b0 rest heap l Hok Hd Hnew)
    as (c & s & Hn & Hc & Hnc & _ & _ & _ & Hsz & Hst & _ & Hcs & Hmod
        & Hsame & Hlow & Hhigh & _).
  assert (Ec : innerSize = c) by (unfold innerSize, cols, w; rewrite Hsz; reflexivity).
  assert (Er : rows w = num_output params)
    by (unfold rows, w; rewrite Hsz; reflexivity).
  assert (Es : stride = s) by exact Hst.
  rewrite Ec, Es, Er. unfold VEC_ALIGN.
  split; [reflexivity|]. split; [exact Hnc|]. split; [lia|].
  split; [rewrite Hmod, Z.mul_comm; apply Z.mod_mul; lia|].
  split; [|split].
  - intros r k Hr Hk. change (row w r k) with (at_ w r k).
    destruct (Z.ltb_spec k c).
    + apply Hlow; lia.
    + apply Hhigh; lia.
  - intros r x Hr.
    replace (Z.to_nat s) with (Z.to_nat c + Z.to_nat (s - c))%nat by lia.
    apply dot_zero_tail. intros k Hk.
    change (row w r k) with (at_ w r k). apply Hhigh; lia.
  - exact Hsame.
Qed.

(** The scenario of the specification: [innerSize = 10] gives rows of 16
    elements whose columns 10 to 15 are zero. *)
Lemma weights_padded_witness :
  let b0 := tensor [3; 10] junk in
  exists l,
    size_ok b0 = true /\ dense b0 = true
    /\ FullyConnectedLayerImpl_new (mkParams 3 true 1) [b0; tensor [3] junk] junk = Ok l
    /\ step1 (weightsMat l) = 16
    /\ (forall r x, 0 <= r < rows (weightsMat l) ->
          dot (Z.to_nat (step1 (weightsMat l))) x (row (weightsMat l) r)
          = dot (Z.to_nat (cols (weightsMat l))) x (row (weightsMat l) r)).
Proof.
  intros b0. eexists.
  split; [reflexivity|]. split; [reflexivity|]. split; [vm_compute; reflexivity|].
  split; [reflexivity|].
  apply (weights_padded (mkParams 3 true 1) b0 [tensor [3] junk] junk);
    reflexivity.
Defined.

Lemma CV_Assert_true b : b = true -> CV_Assert b = Ok tt.
Proof. intros ->. reflexivity. Qed.

Lemma biasMat_size params b0 rest heap l :
  size_ok b0 = true -> dense b0 = true ->
  Forall (fun b => size_ok b = true /\ dense b = true) rest ->
  FullyConnectedLayerImpl_new params (b0 :: rest) heap = Ok l ->
  size (biasMat l) = [1; num_output params]
  /\ step1 (biasMat l) = num_output params
  /\ (forall b1, bias_term params = true -> rest = [b1] ->
        type (biasMat l) = type b1 /\ data (biasMat l) = data b1).
Proof.
  intros Hok Hd Hrest Hnew.
  destruct (new_spec params b0 rest heap l Hok Hd Hnew)
    as (c & s & Hn & _ & _ & _ & _ & _ & _ & _ & _ & _ & _ & _ & _ & _ & _ & _
        & _ & _ & Hnb & Hb).
  destruct (bias_term params) eqn:Eb.
  - destruct (Hb eq_refl) as (b1 & -> & Ht & Hre & _).
    inversion Hrest as [|? ? [Hok1 Hd1] _]; subst.
    destruct (reshape_dense b1 1 (biasMat l) Hok1 Hd1 ltac:(lia) Hre)
      as (c1 & Hs1 & _ & _ & Hst1 & Hda1 & Hty1 & Hc1 & _).
    assert (E : c1 = num_output params) by lia.
    rewrite Hs1, Hst1, E. split; [reflexivity|]. split; [reflexivity|].
    intros b1' _ [= <-]. split; assumption.
  - rewrite (Hnb eq_refl). split; [reflexivity|]. split; [reflexivity|].
    intros b1 Hb1. discriminate.
Qed.

(** C6, as the code has it: the constructor accepts the blobs only if there
    are one or two of them, the weight tensor has at least two dimensions
    and [numOutputs * innerSize] elements for some [innerSize >= 0], and,
    with the bias enabled, the bias tensor has [numOutputs] elements; it
    does accept them when moreover [innerSize] is positive and rows of
    that length can be padded; the prepared weight matrix then has
    [numOutputs] rows and the bias vector [numOutputs] elements. *)
Theorem construction_checked params blobs0 heap :
  let n := num_output params in
  Forall (fun b => size_ok b = true /\ dense b = true) blobs0 ->
  (forall l, FullyConnectedLayerImpl_new params blobs0 heap = Ok l ->
     exists b0 rest innerSize,
       blobs0 = b0 :: rest /\ (length rest <= 1)%nat /\ 2 <= dims b0
       /\ 0 <= innerSize /\ total b0 = n * innerSize
       /\ (bias_term params = true -> exists b1, rest = [b1] /\ total b1 = n)
       /\ rows (weightsMat l) = n /\ cols (weightsMat l) = innerSize
       /\ size (biasMat l) = [1; n])
  /\ (forall b0 rest innerSize,
        blobs0 = b0 :: rest -> (length rest <= 1)%nat -> 2 <= dims b0 ->
        0 < n -> 0 < innerSize <= INT_MAX - 7 -> total b0 = n * innerSize ->
        total b0 <= INT_MAX ->
        (bias_term params = true -> exists b1, rest = [b1] /\ total b1 = n) ->
        exists l, FullyConnectedLayerImpl_new params blobs0 heap = Ok l).
Proof.
  intros n Hall. split.
  - intros l Hnew.
    destruct blobs0 as [|b0 rest]; [discriminate|].
    inversion Hall as [|? ? [Hok Hd] Hrest]; subst.
    destruct (new_spec params b0 rest heap l Hok Hd Hnew)
      as (c & s & Hn & Hc & Hnc & _ & Hdims & Hlen & Hsz & _ & _ & _ & _ & _
          & _ & _ & _ & _ & _ & _ & _ & Hb).
    destruct (biasMat_size params b0 rest heap l Hok Hd Hrest Hnew) as (Hbs & _).
    exists b0, rest, c. fold n in Hnc, Hbs.
    repeat split; try assumption; try lia.
    + intros Eb. destruct (Hb Eb) as (b1 & E1 & E2 & _). eauto.
    + unfold rows. rewrite Hsz. reflexivity.
    + unfold cols. rewrite Hsz. reflexivity.
  - intros b0 rest innerSize -> Hlen Hdims Hn Hi Ht Htmax Hb.
    inversion Hall as [|? ? [Hok Hd] Hrest]; subst.
    unfold FullyConnectedLayerImpl_new. fold n.
    rewrite CV_Assert_true
      by (cbn [length]; apply andb_true_iff; split;
          [apply Z.leb_le | apply Z.leb_le]; lia).
    cbn [bind].
    pose proof (total_nonneg b0 Hok) as Htn.
    assert (Hti : to_int (total b0) = total b0)
      by (apply to_int_small; unfold INT_MIN, INT_MAX in *; lia).
    assert (Hq : Z.quot (total b0) n = innerSize)
      by (rewrite Ht; rewrite Z.mul_comm; apply Z.quot_mul; lia).
    unfold int_div. rewrite Hti, Hq.
    destruct (Z.eqb_spec n 0); [lia|].
    rewrite int_op_in by (unfold INT_MIN, INT_MAX in *; lia).
    cbn [bind].
    rewrite CV_Assert_true.
    2:{ apply andb_true_iff. split; [apply Z.leb_le; lia|].
        apply Z.eqb_eq. rewrite to_size_t_small by lia. lia. }
    cbn [bind].
    rewrite CV_Assert_true.
    2:{ destruct (bias_term params); [|reflexivity].
        destruct (Hb eq_refl) as (b1 & -> & Hb1). cbn [negb orb length].
        apply andb_true_iff. split; [reflexivity|].
        apply Z.eqb_eq. rewrite to_size_t_small by (unfold INT_MAX in *; nia).
        lia. }
    cbn [bind].
    (* the weights can be reshaped *)
    assert (Hre : exists w0, reshape b0 n = Ok w0).
    { unfold reshape.
      destruct (Z.eqb_spec n 0); [lia|].
      destruct ((dims b0 =? 2) && (n =? rows b0)); [eauto|].
      destruct (Z.ltb_spec n 0); [lia|].
      assert (Hcont : isContinuous b0 = true).
      { unfold isContinuous, dense in *.
        destruct (size b0) as [|r [|c [|x t]]]; try reflexivity.
        rewrite Hd. reflexivity. }
      rewrite Hcont. cbn [negb].
      destruct (Z.ltb_spec (total b0) n); [nia|].
      replace (total b0 mod n) with 0
        by (rewrite Ht, Z.mul_comm; symmetry; apply Z.mod_mul; lia).
      cbn. eauto. }
    destruct Hre as (w0 & Hre). rewrite Hre. cbn [bind].
    destruct (reshape_dense b0 n w0 Hok Hd ltac:(lia) Hre)
      as (c & Hsw & _ & Hc & _ & _ & _ & Hnc & _).
    assert (c = innerSize) by nia. subst c.
    assert (Hcols : cols w0 = innerSize) by (unfold cols; rewrite Hsw; reflexivity).
    rewrite Hcols.
    assert (Hwm : exists wm,
               (if negb (Z.rem innerSize VEC_ALIGN =? 0)
                then
                  if to_int (alignSize innerSize VEC_ALIGN) <? 0
                  then Throw StsBadArg
                  else Ok (mkMat [rows w0; innerSize] (type w0)
                             (to_int (alignSize innerSize VEC_ALIGN))
                             (padded heap w0 innerSize
                                (to_int (alignSize innerSize VEC_ALIGN))))
                else Ok w0) = Ok wm).
    { destruct (negb (Z.rem innerSize VEC_ALIGN =? 0)); [|eauto].
      rewrite alignSize_8 by lia.
      pose proof (Z.div_mod (innerSize + 7) 8 ltac:(lia)).
      pose proof (Z.mod_pos_bound (innerSize + 7) 8 ltac:(lia)).
      rewrite to_int_small by (unfold INT_MIN, INT_MAX in *; lia).
      destruct (Z.ltb_spec (8 * ((innerSize + 7) / 8)) 0); [lia|]. eauto. }
    destruct Hwm as (wm & ->). cbn [bind].
    destruct rest as [|b1 rest'].
    + destruct (bias_term params); [|eauto].
      destruct (Hb eq_refl) as (b1 & E & _). discriminate.
    + destruct (bias_term params); [|eauto].
      destruct (Hb eq_refl) as (b1' & E & Hb1). injection E as <- ->.
      inversion Hrest as [|? ? [Hok1 Hd1] _]; subst.
      assert (Hre1 : exists bm, reshape b1 1 = Ok bm).
      { unfold reshape. change (1 =? 0) with false. cbv iota.
        destruct ((dims b1 =? 2) && (1 =? rows b1)); [eauto|].
        change (1 <? 0) with false. cbv iota.
        assert (Hcont : isContinuous b1 = true).
        { unfold isContinuous, dense in *.
          destruct (size b1) as [|r [|c [|x t]]]; try reflexivity.
          rewrite Hd1. reflexivity. }
        rewrite Hcont. cbn [negb].
        destruct (Z.ltb_spec (total b1) 1); [lia|].
        rewrite Z.mod_1_r. cbn [Z.eqb negb]. eexists. reflexivity. }
      destruct Hre1 as (bm & ->). cbn [bind]. eauto.
Qed.

Lemma construction_checked_witness :
  let blobs0 := [tensor [3; 2] (of_list [1; 0; 0; 1; 1; 1] junk);
                 tensor [3] zero_heap] in
  Forall (fun b => size_ok b = true /\ dense b = true) blobs0
  /\ exists l, FullyConnectedLayerImpl_new (mkParams 3 true 1) blobs0 junk = Ok l.
Proof.
  intros blobs0.
  assert (H : Forall (fun b => size_ok b = true /\ dense b = true) blobs0)
    by (repeat constructor).
  split; [exact H|].
  destruct (construction_checked (mkParams 3 true 1) blobs0 junk H) as [_ Hsuff].
  apply (Hsuff (tensor [3; 2] (of_list [1; 0; 0; 1; 1; 1] junk))
               [tensor [3] zero_heap] 2).
  - reflexivity.
  - cbn; lia.
  - cbn; lia.
  - cbn; lia.
  - unfold INT_MAX; lia.
  - reflexivity.
  - unfold INT_MAX; cbn; lia.
  - intros _. exists (tensor [3] zero_heap). split; reflexivity.
Defined.

(** C6 as stated fails in both directions: a weight tensor of 3 rows and
    no column is accepted although its element count is [3 * innerSize] for
    no positive [innerSize]; and three blobs are rejected although the
    weight and bias tensors have the required element counts. *)
Lemma construction_not_iff :
  let w30 := tensor [3; 0] zero_heap in
  let w := tensor [3; 2] (of_list [1; 0; 0; 1; 1; 1] junk) in
  let b := tensor [3] zero_heap in
  ((exists l, FullyConnectedLayerImpl_new (mkParams 3 false 1) [w30] junk = Ok l)
   /\ ~ (exists innerSize, 0 < innerSize /\ total w30 = 3 * innerSize))
  /\ (FullyConnectedLayerImpl_new (mkParams 3 true 1) [w; b; b] junk
        = Throw StsAssert
      /\ (exists innerSize, 0 < innerSize /\ total w = 3 * innerSize)
      /\ total b = 3).
Proof.
  intros w30 w b. split; split.
  - eexists. vm_compute. reflexivity.
  - intros (i & Hi & E). change (total w30) with 0 in E. lia.
  - reflexivity.
  - split; [exists 2; split; [lia | reflexivity] | reflexivity].
Qed.

(** ** The cost estimate *)

Lemma long_op_in x : - 2 ^ 63 <= x <= 2 ^ 63 - 1 -> long_op x = Ok x.
Proof.
  intros H. unfold long_op, in_long.
  replace (- 2 ^ 63 <=? x) with true by (symmetry; apply Z.leb_le; lia).
  replace (x <=? 2 ^ 63 - 1) with true by (symmetry; apply Z.leb_le; lia).
  reflexivity.
Qed.

(** As long as no product leaves [int] and the sum stays in [long], the
    loop of [getFLOPS] adds up [3 * innerSize * total(outputs[i])]. *)
Lemma getFLOPS_loop_exact innerSize outputs :
  0 <= 3 * innerSize <= INT_MAX ->
  Forall (fun o => shape_total_all o = Ok (prod o)
                   /\ 0 <= prod o /\ 3 * innerSize * prod o <= INT_MAX) outputs ->
  forall flops, 0 <= flops -> flops + flops_sum innerSize outputs <= 2 ^ 63 - 1 ->
  getFLOPS_loop innerSize outputs flops = Ok (flops + flops_sum innerSize outputs).
Proof.
  intros Hi. induction 1 as [|o outputs (Ht & Hp & Hm) Hall IH]; intros flops Hf Hs.
  - cbn. f_equal. lia.
  - cbn [getFLOPS_loop flops_sum fold_right] in *.
    fold (flops_sum innerSize outputs) in *.
    assert (0 <= flops_sum innerSize outputs).
    { clear -Hi Hall.
      induction Hall as [|x l (_ & Hx & _) _ IH']; [cbn; lia|].
      unfold flops_sum. cbn [fold_right]. fold (flops_sum innerSize l).
      assert (0 <= 3 * innerSize * prod x) by (apply Z.mul_nonneg_nonneg; lia).
      lia. }
    assert (0 <= 3 * innerSize * prod o) by (apply Z.mul_nonneg_nonneg; lia).
    rewrite int_op_in by (unfold INT_MIN in *; lia). cbn [bind].
    rewrite Ht. cbn [bind].
    rewrite int_op_in by (unfold INT_MIN in *; lia). cbn [bind].
    rewrite long_op_in by lia. cbn [bind].
    rewrite IH by lia. f_equal. lia.
Qed.

Lemma getFLOPS_exact l w rest inputs outputs :
  blobs l = w :: rest ->
  0 <= 3 * cols w <= INT_MAX -> dims w = 2 ->
  Forall (fun o => shape_total_all o = Ok (prod o)
                   /\ 0 <= prod o /\ 3 * cols w * prod o <= INT_MAX) outputs ->
  flops_sum (cols w) outputs <= 2 ^ 63 - 1 ->
  getFLOPS l inputs outputs = Ok (flops_sum (cols w) outputs).
Proof.
  intros Hb Hc Hd Hall Hs. unfold getFLOPS. rewrite Hb.
  assert (E : nth 1 (size w) 0 = cols w).
  { unfold cols, dims in *. destruct (size w) as [|a [|b [|c t]]]; cbn in *; lia. }
  rewrite E. rewrite getFLOPS_loop_exact; auto; lia.
Qed.

(** C8 fails on the code: the product [3*innerSize*total(outputs[i])] is
    formed in [int] before it is added to the [long] accumulator.  For the
    first fully connected layer of VGG-16 (25088 inputs, 4096 outputs) and
    a batch of 32 the exact count is 9865003008, and the [int] product
    overflows; for a layer of 715827883 inputs already [3*innerSize]
    overflows. *)
Theorem getFLOPS_int_overflow :
  (exists l,
      FullyConnectedLayerImpl_new (mkParams 4096 false 1)
        [tensor [4096; 25088] zero_heap] zero_heap = Ok l
      /\ cols (weightsMat l) = 25088
      /\ getFLOPS l [[32; 25088]] [[32; 4096]] = Undefined
      /\ flops_sum 25088 [[32; 4096]] = 9865003008)
  /\ (exists l,
        FullyConnectedLayerImpl_new (mkParams 1 false 1)
          [tensor [1; 715827883] zero_heap] zero_heap = Ok l
        /\ cols (weightsMat l) = 715827883
        /\ getFLOPS l [[1; 715827883]] [[1; 1]] = Undefined).
Proof.
  split.
  - eexists. split; [reflexivity|].
    split; [reflexivity|]. split; reflexivity.
  - eexists. split; [reflexivity|].
    split; reflexivity.
Qed.

(** ** Counted loops *)

(** A [for] loop whose condition is [i < hi] runs its [n] rounds when the
    fuel allows for them. *)
Lemma for_trips {S : Type} (cond : Z -> bool) (hi c : Z) (body : Z -> S -> S) :
  0 < c -> (forall j, cond j = (j <? hi)) ->
  forall (n fuel : nat) i s,
    (n <= fuel)%nat -> hi <= i + c * Z.of_nat n ->
    ((0 < n)%nat -> i + c * (Z.of_nat n - 1) < hi) ->
    for_ fuel cond c body i s = (i + c * Z.of_nat n, loop_n n c body i s).
Proof.
  intros Hc Hcond. induction n as [|n IH]; intros fuel i s Hf Hhi Hlo.
  - replace (i + c * Z.of_nat 0) with i by lia. cbn [loop_n].
    destruct fuel as [|fuel]; [reflexivity|]. cbn [for_].
    rewrite Hcond. replace (i <? hi) with false by (symmetry; apply Z.ltb_ge; lia).
    reflexivity.
  - destruct fuel as [|fuel]; [lia|]. cbn [for_ loop_n].
    rewrite Hcond.
    replace (i <? hi) with true by (symmetry; apply Z.ltb_lt; nia).
    rewrite IH by (try lia; try nia).
    f_equal. lia.
Qed.

(** ** The dot products *)

Section KernelFacts.

Variables (sptr w biasptr : buffer) (wstep wofs0 dofs vecsize nw : Z).

Lemma scalar_dot_loop wofs s0 (m : nat) :
  forall n : nat,
    loop_n m 1 (fun k s => (s + sptr k * w (wofs + k)%Z)%Qc) (Z.of_nat n)
           (s0 + dot n sptr (shift w wofs))%Qc
    = (s0 + dot (n + m) sptr (shift w wofs))%Qc.
Proof.
  induction m as [|m IH]; intros n.
  - now rewrite Nat.add_0_r.
  - cbn [loop_n].
    replace (Z.of_nat n + 1) with (Z.of_nat (S n)) by lia.
    replace (s0 + dot n sptr (shift w wofs) + sptr (Z.of_nat n) * w (wofs + Z.of_nat n)%Z)%Qc
      with (s0 + dot (S n) sptr (shift w wofs))%Qc
      by (cbn [dot]; unfold shift; fring).
    rewrite IH. f_equal. f_equal. lia.
Qed.

Lemma scalar_dot_spec wofs s0 :
  scalar_dot sptr w vecsize wofs s0
  = (s0 + dot (Z.to_nat vecsize) sptr (shift w wofs))%Qc.
Proof.
  unfold scalar_dot.
  rewrite (for_trips _ vecsize 1 _ ltac:(lia) (fun j => eq_refl)
                     (Z.to_nat vecsize)) by lia.
  cbn [snd].
  pose proof (scalar_dot_loop wofs s0 (Z.to_nat vecsize) 0) as H.
  cbn [dot Z.of_nat Nat.add] in H. rewrite <- H.
  f_equal. fring.
Qed.

Lemma reduce_step (a : vfloat32x4) (p q : buffer) (k o : Z) :
  v_reduce_sum (v_add a (v_mul (v_load p k) (v_load q (o + k))))
  = (v_reduce_sum a + p k * q (o + k)%Z + p (k + 1)%Z * q (o + (k + 1))%Z
     + p (k + 2)%Z * q (o + (k + 2))%Z + p (k + 3)%Z * q (o + (k + 3))%Z)%Qc.
Proof.
  unfold v_reduce_sum, v_add, v_mul, v_load. cbn [lane0 lane1 lane2 lane3].
  replace (o + k + 1) with (o + (k + 1)) by lia.
  replace (o + k + 2) with (o + (k + 2)) by lia.
  replace (o + k + 3) with (o + (k + 3)) by lia.
  fring.
Qed.

Lemma dot_step4 (n : nat) (x y : buffer) :
  dot (4 + n) x y
  = (dot n x y + x (Z.of_nat n) * y (Z.of_nat n)
     + x (Z.of_nat n + 1)%Z * y (Z.of_nat n + 1)%Z
     + x (Z.of_nat n + 2)%Z * y (Z.of_nat n + 2)%Z
     + x (Z.of_nat n + 3)%Z * y (Z.of_nat n + 3)%Z)%Qc.
Proof.
  change (4 + n)%nat with (S (S (S (S n)))). cbn [dot].
  replace (Z.of_nat (S n)) with (Z.of_nat n + 1) by lia.
  replace (Z.of_nat (S (S n))) with (Z.of_nat n + 2) by lia.
  replace (Z.of_nat (S (S (S n)))) with (Z.of_nat n + 3) by lia.
  reflexivity.
Qed.

Lemma simd_dot_loop wofs (m : nat) :
  forall (n : nat) vs,
    dots_ok sptr w wstep wofs n vs ->
    dots_ok sptr w wstep wofs (4 * m + n)
            (loop_n m 4 (simd_body sptr w wstep wofs) (Z.of_nat n) vs).
Proof.
  induction m as [|m IH]; intros n vs H.
  - exact H.
  - cbn [loop_n].
    replace (Z.of_nat n + 4) with (Z.of_nat (4 + n)) by lia.
    replace (4 * S m + n)%nat with (4 * m + (4 + n))%nat by lia.
    apply IH.
    destruct vs as [[[vs0 vs1] vs2] vs3]. destruct H as (H0 & H1 & H2 & H3).
    unfold simd_body, dots_ok.
    rewrite !reduce_step, !dot_step4, H0, H1, H2, H3.
    unfold shift. repeat split; reflexivity.
Qed.

Lemma simd_dot_spec wofs :
  dots_ok sptr w wstep wofs (4 * Z.to_nat ((vecsize + 3) / 4))
          (simd_dot sptr w wstep vecsize wofs).
Proof.
  unfold simd_dot.
  pose proof (Z.div_mod (vecsize + 3) 4 ltac:(lia)) as Hd.
  pose proof (Z.mod_pos_bound (vecsize + 3) 4 ltac:(lia)) as Hm.
  rewrite (for_trips _ vecsize 4 _ ltac:(lia) (fun j => eq_refl)
                     (Z.to_nat ((vecsize + 3) / 4))) by lia.
  cbn [snd].
  replace (4 * Z.to_nat ((vecsize + 3) / 4))%nat
    with (4 * Z.to_nat ((vecsize + 3) / 4) + 0)%nat by lia.
  apply (simd_dot_loop wofs _ 0%nat).
  unfold dots_ok, v_setall_f32, v_reduce_sum. cbn [dot lane0 lane1 lane2 lane3].
  repeat split; fring.
Qed.

End KernelFacts.

(** ** The loops over the rows of a run *)

Section RunFacts.

Variables (sptr w biasptr : buffer) (wstep wofs0 dofs vecsize nw : Z).
Variable dst : buffer.

Local Notation "'cells' c" :=
  (kernel_cells sptr w biasptr wstep wofs0 dofs vecsize c dst)
  (at level 10, c at level 9).
Local Notation "'scalar_body'" :=
  (scalar_row_body sptr w biasptr wstep dofs vecsize).
Local Notation "'simd_rbody'" :=
  (simd_row_body sptr w biasptr wstep dofs vecsize).

Lemma cells_none c : c <= 0 -> same_cells dst (cells c).
Proof.
  intros Hc a. unfold kernel_cells.
  destruct (Z.leb_spec dofs a); destruct (Z.ltb_spec a (dofs + c));
    cbn [andb]; try reflexivity; lia.
Qed.

Lemma cells_step c d v :
  0 <= c -> same_cells d (cells c) ->
  v = (biasptr c
       + dot (Z.to_nat vecsize) sptr (shift w (wofs0 + c * wstep)))%Qc ->
  same_cells (store d (dofs + c) v) (cells (c + 1)).
Proof.
  intros Hc Hd Hv a. unfold store.
  destruct (Z.eqb_spec a (dofs + c)) as [->|Ha].
  - unfold kernel_cells.
    replace (dofs <=? dofs + c) with true by (symmetry; apply Z.leb_le; lia).
    replace (dofs + c <? dofs + (c + 1)) with true
      by (symmetry; apply Z.ltb_lt; lia).
    cbn [andb]. replace (dofs + c - dofs) with c by lia. exact Hv.
  - rewrite (Hd a). unfold kernel_cells.
    destruct (Z.leb_spec dofs a); destruct (Z.ltb_spec a (dofs + c));
      destruct (Z.ltb_spec a (dofs + (c + 1)));
      cbn [andb]; try reflexivity; lia.
Qed.

Lemma scalar_rows_loop (n : nat) :
  forall i st,
    0 <= i -> fst st = wofs0 + i * wstep -> same_cells (snd st) (cells i) ->
    same_cells (snd (loop_n n 1 scalar_body i st)) (cells (i + Z.of_nat n)).
Proof.
  induction n as [|n IH]; intros i st Hi Hw Hd.
  - cbn [loop_n]. replace (i + Z.of_nat 0) with i by lia. exact Hd.
  - cbn [loop_n].
    replace (i + Z.of_nat (S n)) with (i + 1 + Z.of_nat n) by lia.
    apply IH; [lia | |].
    + unfold scalar_row_body. cbn [fst]. rewrite Hw. ring.
    + unfold scalar_row_body. cbn [snd].
      apply cells_step; [exact Hi | exact Hd |].
      rewrite scalar_dot_spec, Hw. reflexivity.
Qed.

(** The columns that the 4-wide kernel reads beyond [vecsize] hold
    zeros in every row of the run. *)
Hypothesis pad :
  forall j k, 0 <= j < nw -> vecsize <= k < roundup4 vecsize ->
              w (wofs0 + j * wstep + k) = fzero.

Lemma dot_padded j :
  0 <= j < nw ->
  dot (4 * Z.to_nat ((vecsize + 3) / 4)) sptr (shift w (wofs0 + j * wstep))
  = dot (Z.to_nat vecsize) sptr (shift w (wofs0 + j * wstep)).
Proof.
  intros Hj.
  pose proof (Z.div_mod (vecsize + 3) 4 ltac:(lia)) as Hd.
  pose proof (Z.mod_pos_bound (vecsize + 3) 4 ltac:(lia)) as Hm.
  replace (4 * Z.to_nat ((vecsize + 3) / 4))%nat
    with (Z.to_nat vecsize
          + (4 * Z.to_nat ((vecsize + 3) / 4) - Z.to_nat vecsize))%nat by lia.
  apply dot_zero_tail. intros k Hk. unfold shift.
  apply pad; [exact Hj|]. unfold roundup4. lia.
Qed.

Lemma simd_rows_loop (m : nat) :
  forall i st,
    0 <= i -> i + 4 * Z.of_nat m <= nw ->
    fst st = wofs0 + i * wstep -> same_cells (snd st) (cells i) ->
    let r := loop_n m 4 simd_rbody i st in
    fst r = wofs0 + (i + 4 * Z.of_nat m) * wstep
    /\ same_cells (snd r) (cells (i + 4 * Z.of_nat m)).
Proof.
  induction m as [|m IH]; intros i st Hi Hle Hw Hd.
  - cbn [loop_n]. replace (i + 4 * Z.of_nat 0) with i by lia. split; assumption.
  - cbn [loop_n].
    replace (i + 4 * Z.of_nat (S m)) with (i + 4 + 4 * Z.of_nat m) by lia.
    apply IH; [lia | lia | |].
    + unfold simd_row_body.
      destruct (simd_dot sptr w wstep vecsize (fst st)) as [[[vs0 vs1] vs2] vs3].
      cbn [fst]. rewrite Hw. ring.
    + unfold simd_row_body.
      pose proof (simd_dot_spec sptr w wstep vecsize (fst st)) as Hs.
      destruct (simd_dot sptr w wstep vecsize (fst st)) as [[[vs0 vs1] vs2] vs3].
      destruct Hs as (H0 & H1 & H2 & H3). cbn [snd].
      unfold v_store, v_reduce_sum4, v_add, v_load.
      cbn [lane0 lane1 lane2 lane3].
      rewrite H0, H1, H2, H3, Hw.
      replace (dofs + i + 1) with (dofs + (i + 1)) by lia.
      replace (dofs + i + 2) with (dofs + (i + 2)) by lia.
      replace (dofs + i + 3) with (dofs + (i + 3)) by lia.
      replace (i + 4) with (i + 3 + 1) by lia.
      apply cells_step; [lia | |].
      2:{ rewrite <- dot_padded by lia.
          replace (wofs0 + (i + 3) * wstep) with (wofs0 + i * wstep + wstep * 3)
            by ring.
          fring. }
      replace (i + 3) with (i + 2 + 1) by lia.
      apply cells_step; [lia | |].
      2:{ rewrite <- dot_padded by lia.
          replace (wofs0 + (i + 2) * wstep) with (wofs0 + i * wstep + wstep * 2)
            by ring.
          fring. }
      replace (i + 2) with (i + 1 + 1) by lia.
      apply cells_step; [lia | |].
      2:{ rewrite <- dot_padded by lia.
          replace (wofs0 + (i + 1) * wstep) with (wofs0 + i * wstep + wstep)
            by ring.
          fring. }
      apply cells_step; [lia | exact Hd |].
      rewrite <- dot_padded by lia. fring.
Qed.

End RunFacts.

(** ** One run of the kernel *)

(** The scalar kernel leaves the affine values in the cells of the run and
    touches no other cell. *)
Lemma kernel_scalar_spec sptr w biasptr wstep wofs0 dofs vecsize nw dst :
  exists d,
    kernel sptr w biasptr wstep wofs0 dofs vecsize nw false dst = Ok d
    /\ same_cells d (kernel_cells sptr w biasptr wstep wofs0 dofs vecsize nw dst).
Proof.
  unfold kernel, scalar_rows. eexists. split; [reflexivity|].
  rewrite (for_trips _ nw 1 _ ltac:(lia) (fun j => eq_refl) (Z.to_nat (nw - 0)))
    by lia.
  cbn [snd].
  destruct (Z_le_gt_dec nw 0) as [Hn|Hn].
  - replace (Z.to_nat (nw - 0)) with 0%nat by lia. cbn [loop_n snd].
    apply cells_none. exact Hn.
  - pose proof (scalar_rows_loop sptr w biasptr wstep wofs0 dofs vecsize dst
                  (Z.to_nat (nw - 0)) 0 (wofs0, dst)) as H.
    replace (0 + Z.of_nat (Z.to_nat (nw - 0))) with nw in H by lia.
    apply H; [lia | cbn [fst]; ring |].
    cbn [snd]. apply cells_none. lia.
Qed.

(** So does the 4-wide kernel, when the columns it reads beyond [vecsize]
    are zero and [nw - 4] is an [int]. *)
Lemma kernel_simd_spec sptr w biasptr wstep wofs0 dofs vecsize nw dst :
  INT_MIN <= nw - 4 <= INT_MAX ->
  (forall j k, 0 <= j < nw -> vecsize <= k < roundup4 vecsize ->
               w (wofs0 + j * wstep + k) = fzero) ->
  exists d,
    kernel sptr w biasptr wstep wofs0 dofs vecsize nw true dst = Ok d
    /\ same_cells d (kernel_cells sptr w biasptr wstep wofs0 dofs vecsize nw dst).
Proof.
  intros Hnw pad. unfold kernel. rewrite int_op_in by exact Hnw. cbn [bind].
  unfold simd_rows.
  pose proof (Z.div_mod nw 4 ltac:(lia)) as Hd.
  pose proof (Z.mod_pos_bound nw 4 ltac:(lia)) as Hm.
  assert (Hcond : forall j, (j <=? nw - 4) = (j <? nw - 3)).
  { intros j. destruct (Z.leb_spec j (nw - 4)); destruct (Z.ltb_spec j (nw - 3));
      try reflexivity; lia. }
  rewrite (for_trips (fun i => i <=? nw - 4) (nw - 3) 4 _ ltac:(lia) Hcond
                     (Z.to_nat (nw / 4))) by lia.
  set (m := Z.to_nat (nw / 4)).
  eexists. split; [reflexivity|].
  unfold scalar_rows.
  rewrite (for_trips _ nw 1 _ ltac:(lia) (fun j => eq_refl)
                     (Z.to_nat (nw - (0 + 4 * Z.of_nat m)))) by lia.
  cbn [snd].
  destruct (Z_le_gt_dec nw 0) as [Hn|Hn].
  - replace m with 0%nat by lia.
    replace (Z.to_nat (nw - (0 + 4 * Z.of_nat 0))) with 0%nat by lia.
    cbn [loop_n snd]. apply cells_none. exact Hn.
  - destruct (simd_rows_loop sptr w biasptr wstep wofs0 dofs vecsize nw dst pad
                m 0 (wofs0, dst)) as [Hw Hc];
      [lia | lia | cbn [fst]; ring | cbn [snd]; apply cells_none; lia |].
    pose proof (scalar_rows_loop sptr w biasptr wstep wofs0 dofs vecsize dst
                  (Z.to_nat (nw - (0 + 4 * Z.of_nat m))) (0 + 4 * Z.of_nat m)
                  (loop_n m 4 (simd_row_body sptr w biasptr wstep dofs vecsize)
                          0 (wofs0, dst))) as H.
    replace (0 + 4 * Z.of_nat m
             + Z.of_nat (Z.to_nat (nw - (0 + 4 * Z.of_nat m)))) with nw in H by lia.
    apply H; [lia | exact Hw | exact Hc].
Qed.

Lemma kernel_simd_undefined sptr w biasptr wstep wofs0 dofs vecsize nw dst :
  ~ (INT_MIN <= nw - 4 <= INT_MAX) ->
  kernel sptr w biasptr wstep wofs0 dofs vecsize nw true dst = Undefined.
Proof.
  intros H. unfold kernel, int_op, in_int.
  destruct (Z.leb_spec INT_MIN (nw - 4)); destruct (Z.leb_spec (nw - 4) INT_MAX);
    cbn [andb bind]; try reflexivity; lia.
Qed.

(** ** The loop over the runs of a stripe *)

Section StripeLoop.

Variables (simd128 : bool) (fc : FullConnected).

Local Notation "'nsamples'" := (rows (srcMat_ fc)).
Local Notation "'nw0'" := (rows (weights_ fc)).

Hypothesis nsamples_int : 0 <= nsamples <= INT_MAX.
Hypothesis nw0_int : 0 <= nw0 <= INT_MAX.

Lemma total_exact :
  to_size_t (to_size_t nsamples * to_size_t nw0) = nsamples * nw0.
Proof.
  unfold INT_MAX in *.
  rewrite (to_size_t_small nsamples), (to_size_t_small nw0) by lia.
  apply to_size_t_small. nia.
Qed.

(** Inside the loop the offset decodes to a sample and a column of the
    output without any wrap-around. *)
Lemma index_facts stripeEnd ofs :
  0 <= ofs < stripeEnd -> stripeEnd <= nsamples * nw0 ->
  0 < nw0
  /\ to_int (ofs / to_size_t nw0) = ofs / nw0
  /\ 0 <= ofs / nw0 < nsamples
  /\ to_int (to_size_t (ofs - to_size_t (to_size_t (ofs / nw0) * to_size_t nw0)))
     = ofs mod nw0
  /\ 0 <= ofs mod nw0 < nw0
  /\ to_size_t (stripeEnd - ofs) = stripeEnd - ofs.
Proof.
  intros Ho He. unfold INT_MAX, INT_MIN in *.
  assert (Hn : 0 < nw0) by nia.
  pose proof (Z.div_mod ofs nw0 ltac:(lia)) as Hd.
  pose proof (Z.mod_pos_bound ofs nw0 Hn) as Hm.
  assert (Hq : 0 <= ofs / nw0) by (apply Z.div_pos; lia).
  assert (Hq' : ofs / nw0 < nsamples) by (apply Z.div_lt_upper_bound; nia).
  rewrite (to_size_t_small nw0) by lia.
  rewrite (to_size_t_small (ofs / nw0)) by lia.
  rewrite (to_size_t_small (ofs / nw0 * nw0)) by nia.
  replace (ofs - ofs / nw0 * nw0) with (ofs mod nw0) by lia.
  rewrite (to_size_t_small (ofs mod nw0)) by lia.
  rewrite (to_size_t_small (stripeEnd - ofs)) by nia.
  rewrite !to_int_small by (unfold INT_MAX, INT_MIN; lia).
  repeat split; lia.
Qed.

(** One round of the loop, with the indices decoded. *)
Lemma stripe_loop_step fuel stripeEnd ofs dst :
  0 <= ofs < stripeEnd -> stripeEnd <= nsamples * nw0 ->
  stripe_loop simd128 fc (S fuel) stripeEnd ofs dst =
    dst' <- run_kernel simd128 fc stripeEnd ofs dst ;;
    stripe_loop simd128 fc fuel stripeEnd
                (to_size_t (ofs + to_size_t (run_length nw0 stripeEnd ofs))) dst'.
Proof.
  intros Ho He.
  destruct (index_facts stripeEnd ofs Ho He) as (Hn & E1 & Hq & E2 & Hm & E3).
  cbn [stripe_loop].
  replace (ofs <? stripeEnd) with true by (symmetry; apply Z.ltb_lt; lia).
  cbv zeta. rewrite E1, E2, E3.
  rewrite int_op_in by (unfold INT_MIN, INT_MAX in *; lia).
  cbn [bind]. reflexivity.
Qed.

Lemma stripe_loop_done fuel stripeEnd ofs dst :
  stripeEnd <= ofs ->
  stripe_loop simd128 fc (S fuel) stripeEnd ofs dst = Ok dst.
Proof.
  intros H. cbn [stripe_loop].
  replace (ofs <? stripeEnd) with false by (symmetry; apply Z.ltb_ge; lia).
  reflexivity.
Qed.

(** The stripe bounds lie within the output. *)
Lemma stripeEnd_le total_ nstripes r : stripeEnd_of total_ nstripes r <= total_.
Proof. unfold stripeEnd_of. destruct (end_ r =? nstripes); lia. Qed.

Lemma stripeStart_nonneg total_ nstripes r : 0 <= stripeStart_of total_ nstripes r.
Proof. unfold stripeStart_of. apply to_size_t_range. Qed.

End StripeLoop.

(** ** Runs that agree *)

Lemma agree_bind {A B : Type} ub (R : A -> A -> Prop) (R' : B -> B -> Prop)
      (m1 m2 : outcome A) (k1 k2 : A -> outcome B) :
  agree ub R m1 m2 ->
  (forall a b, R a b -> agree ub R' (k1 a) (k2 b)) ->
  agree ub R' (bind m1 k1) (bind m2 k2).
Proof.
  intros Hm Hk. destruct m1, m2; cbn in *; try contradiction; try congruence;
    auto.
  - destruct (k2 a); cbn; auto.
Qed.

Lemma agree_refl {A : Type} ub (R : A -> A -> Prop) (o : outcome A) :
  (forall a, R a a) -> agree ub R o o.
Proof. intros H. destruct o; cbn; auto. Qed.

Lemma same_cells_refl d : same_cells d d.
Proof. intros a. reflexivity. Qed.

Lemma same_cells_trans d1 d2 d3 :
  same_cells d1 d2 -> same_cells d2 d3 -> same_cells d1 d3.
Proof. intros H1 H2 a. rewrite H1. apply H2. Qed.

Lemma same_cells_sym d1 d2 : same_cells d1 d2 -> same_cells d2 d1.
Proof. intros H a. symmetry. apply H. Qed.

Lemma dot_ext (n : nat) x y1 y2 :
  (forall k, 0 <= k < Z.of_nat n -> y1 k = y2 k) ->
  dot n x y1 = dot n x y2.
Proof.
  induction n as [|n IH]; intros H; [reflexivity|].
  cbn [dot]. rewrite IH by (intros k Hk; apply H; lia).
  rewrite (H (Z.of_nat n)) by lia. reflexivity.
Qed.

(** The cells of a run depend on the bias and on the weights only through
    the entries that belong to the run. *)
Lemma kernel_cells_ext sptr w1 w2 b1 b2 wstep wofs0 dofs vecsize nw d1 d2 :
  (forall i, 0 <= i < nw -> b1 i = b2 i) ->
  (forall i k, 0 <= i < nw -> 0 <= k < vecsize ->
               w1 (wofs0 + i * wstep + k) = w2 (wofs0 + i * wstep + k)) ->
  same_cells d1 d2 ->
  same_cells (kernel_cells sptr w1 b1 wstep wofs0 dofs vecsize nw d1)
             (kernel_cells sptr w2 b2 wstep wofs0 dofs vecsize nw d2).
Proof.
  intros Hb Hw Hd a. unfold kernel_cells.
  destruct (Z.leb_spec dofs a); destruct (Z.ltb_spec a (dofs + nw));
    cbn [andb]; try apply Hd.
  rewrite Hb by lia. f_equal.
  apply dot_ext. intros k Hk. unfold shift. apply Hw; lia.
Qed.

Section RunKernel.

Variables (fc : FullConnected).

Local Notation "'nsamples'" := (rows (srcMat_ fc)).
Local Notation "'nw0'" := (rows (weights_ fc)).

Hypothesis nsamples_int : 0 <= nsamples <= INT_MAX.
Hypothesis nw0_int : 0 <= nw0 <= INT_MAX.

Lemma run_length_le stripeEnd ofs :
  0 <= ofs < stripeEnd -> stripeEnd <= nsamples * nw0 ->
  run_length nw0 stripeEnd ofs <= nw0 - ofs mod nw0 <= INT_MAX.
Proof.
  intros Ho He.
  destruct (index_facts fc nsamples_int nw0_int stripeEnd ofs Ho He)
    as (Hn & _ & _ & _ & Hm & _).
  unfold run_length. lia.
Qed.

Lemma run_kernel_scalar stripeEnd ofs dst :
  exists d, run_kernel false fc stripeEnd ofs dst = Ok d
            /\ same_cells d (run_cells fc stripeEnd ofs dst).
Proof. unfold run_kernel, run_cells. apply kernel_scalar_spec. Qed.

Lemma run_kernel_simd stripeEnd ofs dst :
  0 <= ofs < stripeEnd -> stripeEnd <= nsamples * nw0 ->
  pad_zero (weights_ fc) -> cols (srcMat_ fc) = cols (weights_ fc) ->
  INT_MIN <= run_length nw0 stripeEnd ofs - 4 ->
  exists d, run_kernel true fc stripeEnd ofs dst = Ok d
            /\ same_cells d (run_cells fc stripeEnd ofs dst).
Proof.
  intros Ho He Hpad Hcols Hnw.
  destruct (index_facts fc nsamples_int nw0_int stripeEnd ofs Ho He)
    as (Hn & _ & _ & _ & Hm & _).
  pose proof (run_length_le stripeEnd ofs Ho He) as Hle.
  unfold run_kernel, run_cells. apply kernel_simd_spec; [lia|].
  intros j k Hj Hk. rewrite Hcols in Hk.
  replace (row_ofs (weights_ fc) (ofs mod nw0) + j * step1 (weights_ fc) + k)
    with (row_ofs (weights_ fc) (ofs mod nw0 + j) + k)
    by (unfold row_ofs; ring).
  apply (Hpad (ofs mod nw0 + j) k); lia.
Qed.

Lemma run_kernel_undefined stripeEnd ofs dst :
  run_length nw0 stripeEnd ofs - 4 < INT_MIN ->
  run_kernel true fc stripeEnd ofs dst = Undefined.
Proof.
  intros H. unfold run_kernel. apply kernel_simd_undefined. lia.
Qed.

End RunKernel.

(** The rounds of two bodies that work on the same problem agree, whether
    both use the same kernel or the first the 4-wide and the second the
    scalar one. *)
Lemma run_cells_agree fc1 fc2 stripeEnd ofs d1 d2 :
  same_problem fc1 fc2 ->
  0 <= rows (srcMat_ fc1) <= INT_MAX -> 0 <= rows (weights_ fc1) <= INT_MAX ->
  cols (srcMat_ fc1) = cols (weights_ fc1) ->
  0 <= ofs < stripeEnd ->
  stripeEnd <= rows (srcMat_ fc1) * rows (weights_ fc1) ->
  same_cells d1 d2 ->
  same_cells (run_cells fc1 stripeEnd ofs d1) (run_cells fc2 stripeEnd ofs d2).
Proof.
  intros (Esrc & Edst & _ & Esz & Est & Hw & Hb) Hs Hn Hcols Ho He Hd.
  assert (Er : rows (weights_ fc2) = rows (weights_ fc1))
    by (unfold rows; rewrite Esz; reflexivity).
  destruct (index_facts fc1 Hs Hn stripeEnd ofs Ho He)
    as (Hpos & _ & Hq & _ & Hm & _).
  pose proof (run_length_le fc1 Hs Hn stripeEnd ofs Ho He) as Hle.
  unfold run_cells, row_ofs. rewrite <- Esrc, <- Edst, <- Est, Er.
  apply kernel_cells_ext.
  - intros i Hi. unfold shift. apply Hb. lia.
  - intros i k Hi Hk.
    specialize (Hw (ofs mod rows (weights_ fc1) + i) k ltac:(lia) ltac:(lia)).
    unfold at_, row_ofs in Hw. rewrite <- Est in Hw.
    replace (ofs mod rows (weights_ fc1) * step1 (weights_ fc1)
             + i * step1 (weights_ fc1) + k)
      with ((ofs mod rows (weights_ fc1) + i) * step1 (weights_ fc1) + k) by ring.
    exact Hw.
  - exact Hd.
Qed.

Lemma run_kernel_agree ub s1 s2 fc1 fc2 stripeEnd ofs d1 d2 :
  same_problem fc1 fc2 ->
  0 <= rows (srcMat_ fc1) <= INT_MAX -> 0 <= rows (weights_ fc1) <= INT_MAX ->
  cols (srcMat_ fc1) = cols (weights_ fc1) ->
  s1 = s2 \/ (ub = true /\ s1 = true /\ s2 = false) ->
  (s1 = true -> pad_zero (weights_ fc1)) ->
  (s2 = true -> pad_zero (weights_ fc2)) ->
  0 <= ofs < stripeEnd ->
  stripeEnd <= rows (srcMat_ fc1) * rows (weights_ fc1) ->
  same_cells d1 d2 ->
  agree ub same_cells (run_kernel s1 fc1 stripeEnd ofs d1)
        (run_kernel s2 fc2 stripeEnd ofs d2).
Proof.
  intros Hsame Hs Hn Hcols Hk Hp1 Hp2 Ho He Hd.
  pose proof (run_cells_agree fc1 fc2 stripeEnd ofs d1 d2 Hsame Hs Hn Hcols
                Ho He Hd) as Hcells.
  destruct Hsame as (Esrc & Edst & _ & Esz & Est & Hw & Hb).
  assert (Er : rows (weights_ fc2) = rows (weights_ fc1))
    by (unfold rows; rewrite Esz; reflexivity).
  assert (Ec : cols (weights_ fc2) = cols (weights_ fc1))
    by (unfold cols; rewrite Esz; reflexivity).
  assert (Hs2 : 0 <= rows (srcMat_ fc2) <= INT_MAX) by (rewrite <- Esrc; exact Hs).
  assert (Hn2 : 0 <= rows (weights_ fc2) <= INT_MAX) by (rewrite Er; exact Hn).
  assert (He2 : stripeEnd <= rows (srcMat_ fc2) * rows (weights_ fc2))
    by (rewrite <- Esrc, Er; exact He).
  assert (Hcols2 : cols (srcMat_ fc2) = cols (weights_ fc2))
    by (rewrite <- Esrc, Ec; exact Hcols).
  assert (Hok : forall s fc d0,
             (s = true -> pad_zero (weights_ fc)) ->
             0 <= rows (srcMat_ fc) <= INT_MAX ->
             0 <= rows (weights_ fc) <= INT_MAX ->
             cols (srcMat_ fc) = cols (weights_ fc) ->
             stripeEnd <= rows (srcMat_ fc) * rows (weights_ fc) ->
             (s = true -> INT_MIN <= run_length (rows (weights_ fc)) stripeEnd ofs - 4) ->
             exists d, run_kernel s fc stripeEnd ofs d0 = Ok d
                       /\ same_cells d (run_cells fc stripeEnd ofs d0)).
  { intros s fc d0 Hp Hs' Hn' Hc' He' HL. destruct s.
    - apply run_kernel_simd; auto.
    - apply run_kernel_scalar. }
  destruct (Z_lt_le_dec (run_length (rows (weights_ fc1)) stripeEnd ofs - 4)
                        INT_MIN) as [L|L].
  - destruct s1.
    + rewrite run_kernel_undefined by exact L.
      destruct s2.
      * rewrite run_kernel_undefined by (rewrite Er; exact L). exact I.
      * destruct (run_kernel_scalar fc2 stripeEnd ofs d2) as (d & -> & _).
        cbn. destruct Hk as [Hk|(Hk & _)]; [discriminate | exact Hk].
    + assert (s2 = false) by (destruct Hk as [Hk|(_ & Hk & _)]; congruence).
      subst s2.
      destruct (run_kernel_scalar fc1 stripeEnd ofs d1) as (e1 & -> & H1).
      destruct (run_kernel_scalar fc2 stripeEnd ofs d2) as (e2 & -> & H2).
      cbn. eapply same_cells_trans; [exact H1|].
      eapply same_cells_trans; [exact Hcells|]. apply same_cells_sym. exact H2.
  - destruct (Hok s1 fc1 d1 Hp1 Hs Hn Hcols He (fun _ => L)) as (e1 & -> & H1).
    destruct (Hok s2 fc2 d2 Hp2 Hs2 Hn2 Hcols2 He2
                  (fun _ => ltac:(rewrite Er; exact L))) as (e2 & -> & H2).
    cbn. eapply same_cells_trans; [exact H1|].
    eapply same_cells_trans; [exact Hcells|]. apply same_cells_sym. exact H2.
Qed.

(** The loops over the runs of a stripe agree. *)
Lemma stripe_loop_agree ub s1 s2 fc1 fc2 :
  same_problem fc1 fc2 ->
  0 <= rows (srcMat_ fc1) <= INT_MAX -> 0 <= rows (weights_ fc1) <= INT_MAX ->
  cols (srcMat_ fc1) = cols (weights_ fc1) ->
  s1 = s2 \/ (ub = true /\ s1 = true /\ s2 = false) ->
  (s1 = true -> pad_zero (weights_ fc1)) ->
  (s2 = true -> pad_zero (weights_ fc2)) ->
  forall fuel stripeEnd ofs d1 d2,
    0 <= ofs -> stripeEnd <= rows (srcMat_ fc1) * rows (weights_ fc1) ->
    same_cells d1 d2 ->
    agree ub same_cells (stripe_loop s1 fc1 fuel stripeEnd ofs d1)
          (stripe_loop s2 fc2 fuel stripeEnd ofs d2).
Proof.
  intros Hsame Hs Hn Hcols Hk Hp1 Hp2.
  assert (Esrc : srcMat_ fc1 = srcMat_ fc2) by apply Hsame.
  assert (Er : rows (weights_ fc2) = rows (weights_ fc1)).
  { destruct Hsame as (_ & _ & _ & Esz & _). unfold rows. rewrite Esz. reflexivity. }
  induction fuel as [|fuel IH]; intros stripeEnd ofs d1 d2 Ho He Hd.
  - exact I.
  - destruct (Z_lt_le_dec ofs stripeEnd) as [L|L].
    + rewrite (stripe_loop_step s1 fc1 Hs Hn) by lia.
      rewrite (stripe_loop_step s2 fc2) by (rewrite <- ?Esrc, ?Er; lia).
      rewrite Er.
      eapply agree_bind.
      * apply run_kernel_agree; auto; lia.
      * intros a b Hab. apply IH; [apply to_size_t_range | exact He | exact Hab].
    + rewrite !stripe_loop_done by lia. exact Hd.
Qed.

(** ** The stripes of one matrix *)

Lemma FullConnected_call_agree ub s1 s2 fc1 fc2 r d1 d2 :
  same_problem fc1 fc2 ->
  0 <= rows (srcMat_ fc1) <= INT_MAX -> 0 <= rows (weights_ fc1) <= INT_MAX ->
  cols (srcMat_ fc1) = cols (weights_ fc1) ->
  s1 = s2 \/ (ub = true /\ s1 = true /\ s2 = false) ->
  (s1 = true -> pad_zero (weights_ fc1)) ->
  (s2 = true -> pad_zero (weights_ fc2)) ->
  same_cells d1 d2 ->
  agree ub same_cells (FullConnected_call s1 fc1 r d1)
        (FullConnected_call s2 fc2 r d2).
Proof.
  intros Hsame Hs Hn Hcols Hk Hp1 Hp2 Hd.
  pose proof Hsame as (Esrc & _ & En & Esz & _).
  assert (Er : rows (weights_ fc2) = rows (weights_ fc1))
    by (unfold rows; rewrite Esz; reflexivity).
  unfold FullConnected_call. rewrite <- Esrc, <- En, Er.
  destruct (to_size_t (nstripes_ fc1) =? 0); [exact I|].
  apply stripe_loop_agree; auto.
  - apply stripeStart_nonneg.
  - rewrite <- (total_exact fc1 Hs Hn). apply stripeEnd_le.
Qed.

Lemma parallel_for_agree ub (body1 body2 : Range -> buffer -> outcome buffer)
      split :
  (forall r d1 d2, same_cells d1 d2 ->
                   agree ub same_cells (body1 r d1) (body2 r d2)) ->
  forall d1 d2, same_cells d1 d2 ->
    agree ub same_cells (parallel_for_ split body1 d1)
          (parallel_for_ split body2 d2).
Proof.
  intros Hb. induction split as [|r split IH]; intros d1 d2 Hd.
  - exact Hd.
  - cbn [parallel_for_]. eapply agree_bind; [apply Hb; exact Hd|].
    intros a b Hab. apply IH. exact Hab.
Qed.

(** The rows of a reshaped matrix are an [int]. *)
Lemma reshape_rows_int x o m :
  size_ok x = true -> INT_MIN <= o <= INT_MAX ->
  reshape x o = Ok m -> dims m = 2 -> 0 <= rows m <= INT_MAX.
Proof.
  intros Hok Ho Hr Hd.
  assert (Hx : dims x = 2 -> 0 <= rows x <= INT_MAX).
  { destruct (size_ok_inv x Hok) as (Hf & _). unfold dims, rows.
    destruct (size x) as [|a [|b [|c t]]]; cbn [length]; try lia.
    intros _. apply Forall_inv in Hf. cbv beta in Hf. exact Hf. }
  unfold reshape in Hr.
  destruct (o =? 0); [injection Hr as <-; auto|].
  destruct ((dims x =? 2) && (o =? rows x)); [injection Hr as <-; auto|].
  destruct (Z.ltb_spec o 0); [discriminate|].
  destruct (negb (isContinuous x)); [discriminate|].
  destruct (total x <? o); [discriminate|].
  destruct (negb (total x mod o =? 0)); [discriminate|].
  injection Hr as <-. unfold rows. cbn [size]. lia.
Qed.

Lemma Mat_equiv_refl m : Mat_equiv m m.
Proof. repeat split. Qed.

Lemma same_layer_check l1 l2 srcMat dstMat n :
  same_layer l1 l2 ->
  (exists fc1 fc2,
      FullConnected_new srcMat (weightsMat l1) (biasMat l1) dstMat n = Ok fc1
      /\ FullConnected_new srcMat (weightsMat l2) (biasMat l2) dstMat n = Ok fc2
      /\ same_problem fc1 fc2
      /\ weights_ fc1 = weightsMat l1 /\ weights_ fc2 = weightsMat l2
      /\ srcMat_ fc1 = srcMat
      /\ dims srcMat = 2 /\ cols srcMat = cols (weightsMat l1))
  \/ (FullConnected_new srcMat (weightsMat l1) (biasMat l1) dstMat n
        = Throw StsAssert
      /\ FullConnected_new srcMat (weightsMat l2) (biasMat l2) dstMat n
           = Throw StsAssert).
Proof.
  intros (_ & Esz & Ety & Est & Hw & Ebs & Ebt & Ebst & Hb).
  unfold FullConnected_new.
  assert (Er : rows (weightsMat l2) = rows (weightsMat l1))
    by (unfold rows; rewrite Esz; reflexivity).
  assert (Ec : cols (weightsMat l2) = cols (weightsMat l1))
    by (unfold cols; rewrite Esz; reflexivity).
  assert (Ee : empty (biasMat l2) = empty (biasMat l1))
    by (unfold empty, total; rewrite Ebs; reflexivity).
  assert (Et : total (biasMat l2) = total (biasMat l1))
    by (unfold total; rewrite Ebs; reflexivity).
  assert (Ei : isContinuous (biasMat l2) = isContinuous (biasMat l1))
    by (unfold isContinuous; rewrite Ebs, Ebst; reflexivity).
  rewrite Er, Ec, Ee, Et, Ei, <- Ety, <- Ebt.
  match goal with |- context [CV_Assert ?b] => destruct b eqn:Eb end.
  - left. cbn [CV_Assert bind]. do 2 eexists.
    split; [reflexivity|]. split; [reflexivity|].
    rewrite !andb_true_iff in Eb.
    destruct Eb as [[[[[[[D C] _] _] _] _] _] _].
    apply Z.eqb_eq in D, C.
    cbn [srcMat_ weights_ dstMat_ biasMat_ nstripes_].
    repeat split; auto.
  - right. cbn [CV_Assert bind]. split; reflexivity.
Qed.

(** ** Whole calls *)

Section ForwardAgree.

Variables (ub s1 s2 : bool) (l1 l2 : FullyConnectedLayerImpl).
Variables (n : Z) (split : list Range).

Hypothesis layers : same_layer l1 l2.
Hypothesis ok1 : layer_ok l1.
Hypothesis ok2 : layer_ok l2.
Hypothesis kernels : s1 = s2 \/ (ub = true /\ s1 = true /\ s2 = false).

Lemma forward_one_agree outerSize x y :
  size_ok x = true -> INT_MIN <= outerSize <= INT_MAX ->
  agree ub Mat_equiv (forward_one s1 l1 n split outerSize x y)
        (forward_one s2 l2 n split outerSize x y).
Proof.
  intros Hx Ho. unfold forward_one.
  destruct (reshape x outerSize) as [srcMat| | |] eqn:Esrc; cbn [bind];
    try (cbn; auto; fail).
  destruct (reshape y outerSize) as [dstMat| | |] eqn:Edst; cbn [bind];
    try (cbn; auto; fail).
  destruct (same_layer_check l1 l2 srcMat dstMat n layers)
    as [(fc1 & fc2 & -> & -> & Hsame & W1 & W2 & S1 & Hd & Hc)|[-> ->]];
    [|cbn; reflexivity].
  cbn [bind].
  destruct ok1 as (Hok1 & Hdims1 & Hpad1). destruct ok2 as (_ & _ & Hpad2).
  assert (A1 : 0 <= rows (srcMat_ fc1) <= INT_MAX)
    by (rewrite S1; exact (reshape_rows_int x outerSize srcMat Hx Ho Esrc Hd)).
  assert (A2 : 0 <= rows (weights_ fc1) <= INT_MAX).
  { rewrite W1. destruct (size_ok_inv _ Hok1) as (Hf & _).
    unfold dims, rows in *.
    destruct (size (weightsMat l1)) as [|a [|b [|c t]]]; cbn in Hdims1; try lia.
    apply Forall_inv in Hf. exact Hf. }
  assert (A3 : cols (srcMat_ fc1) = cols (weights_ fc1))
    by (rewrite S1, W1; exact Hc).
  assert (A4 : s1 = true -> pad_zero (weights_ fc1))
    by (intros _; rewrite W1; exact Hpad1).
  assert (A5 : s2 = true -> pad_zero (weights_ fc2))
    by (intros _; rewrite W2; exact Hpad2).
  eapply agree_bind.
  - apply parallel_for_agree; [|apply same_cells_refl].
    intros r d1 d2 Hd12.
    exact (FullConnected_call_agree ub s1 s2 fc1 fc2 r d1 d2 Hsame A1 A2 A3
             kernels A4 A5 Hd12).
  - intros a b Hab. cbn. repeat split. exact Hab.
Qed.

Lemma forward_loop_agree outerSize input :
  Forall (fun x => size_ok x = true) input -> INT_MIN <= outerSize <= INT_MAX ->
  forall output,
    results_agree ub (forward_loop s1 l1 n split outerSize input output)
                  (forward_loop s2 l2 n split outerSize input output).
Proof.
  intros Hin Ho. induction Hin as [|x input Hx _ IH]; intros output.
  - right. split; [reflexivity|].
    cbn. induction output; constructor; auto using Mat_equiv_refl.
  - assert (Hrefl : forall o : list Mat, Forall2 Mat_equiv o o)
      by (induction o; constructor; auto using Mat_equiv_refl).
    cbn [forward_loop].
    destruct output as [|y output]; [right; split; [reflexivity | constructor]|].
    pose proof (forward_one_agree outerSize x y Hx Ho) as H1.
    destruct (forward_one s1 l1 n split outerSize x y) as [y1| | |];
      destruct (forward_one s2 l2 n split outerSize x y) as [y2| | |];
      cbn in H1; try contradiction;
      try (left; split; [exact H1 | reflexivity]);
      try (right; split; [congruence | apply Hrefl]).
    specialize (IH output).
    destruct (forward_loop s1 l1 n split outerSize input output) as [r1 o1].
    destruct (forward_loop s2 l2 n split outerSize input output) as [r2 o2].
    destruct IH as [[U E]|[E F]]; cbn [fst snd] in *.
    + left. split; assumption.
    + right. split; [exact E|]. constructor; assumption.
Qed.

Lemma forward_agree input output :
  Forall (fun x => size_ok x = true) input ->
  results_agree ub (forward s1 l1 n split input output)
                (forward s2 l2 n split input output).
Proof.
  intros Hin. unfold forward.
  assert (Hrefl : forall o : list Mat, Forall2 Mat_equiv o o)
    by (induction o; constructor; auto using Mat_equiv_refl).
  destruct input as [|x0 input]; [right; split; [reflexivity | apply Hrefl]|].
  destruct layers as (<- & _).
  destruct (axisCan <- clamp (axis l1) (dims x0);; total_range x0 0 axisCan);
    try (right; split; [reflexivity | apply Hrefl]).
  apply forward_loop_agree; [exact Hin | apply to_int_range].
Qed.

End ForwardAgree.

(** ** Layers made by the constructor *)

Lemma same_layer_refl l : same_layer l l.
Proof. repeat split. Qed.

(** The constructor leaves a weight matrix that the kernels can read. *)
Lemma new_layer_ok params b0 rest heap l :
  size_ok b0 = true -> dense b0 = true ->
  FullyConnectedLayerImpl_new params (b0 :: rest) heap = Ok l ->
  layer_ok l.
Proof.
  intros Hok Hd Hnew.
  destruct (new_spec params b0 rest heap l Hok Hd Hnew)
    as (c & s & Hn & Hc & Hnc & Ht & _ & _ & Hsz & Hst & _ & Hcs & Hs8
        & _ & _ & Hhigh & _).
  pose proof (Z.div_mod (c + 7) 8 ltac:(lia)) as Hd8.
  pose proof (Z.mod_pos_bound (c + 7) 8 ltac:(lia)) as Hm8.
  pose proof (Z.div_mod (c + 3) 4 ltac:(lia)) as Hd4.
  pose proof (Z.mod_pos_bound (c + 3) 4 ltac:(lia)) as Hm4.
  split; [|split].
  - unfold size_ok. rewrite Hsz, Hst. cbn [forallb prod fold_right].
    unfold INT_MAX in *.
    repeat (apply andb_true_iff; split); try apply Z.leb_le; try apply Z.ltb_lt;
      try reflexivity; try lia; nia.
  - unfold dims. rewrite Hsz. reflexivity.
  - intros r k Hr Hk.
    assert (Er : rows (weightsMat l) = num_output params)
      by (unfold rows; rewrite Hsz; reflexivity).
    assert (Ec : cols (weightsMat l) = c)
      by (unfold cols; rewrite Hsz; reflexivity).
    rewrite Er in Hr. rewrite Ec in Hk. unfold roundup4 in Hk.
    apply Hhigh; lia.
Qed.

(** Two layers made from the same weights have the same weight matrix,
    whatever the memory held when each was made. *)
Lemma new_same_weights p1 p2 b0 rest1 rest2 heap1 heap2 l1 l2 :
  size_ok b0 = true -> dense b0 = true ->
  num_output p1 = num_output p2 ->
  FullyConnectedLayerImpl_new p1 (b0 :: rest1) heap1 = Ok l1 ->
  FullyConnectedLayerImpl_new p2 (b0 :: rest2) heap2 = Ok l2 ->
  size (weightsMat l1) = size (weightsMat l2)
  /\ type (weightsMat l1) = type (weightsMat l2)
  /\ step1 (weightsMat l1) = step1 (weightsMat l2)
  /\ (forall r k, 0 <= r < rows (weightsMat l1) -> 0 <= k < cols (weightsMat l1) ->
        at_ (weightsMat l1) r k = at_ (weightsMat l2) r k).
Proof.
  intros Hok Hd En H1 H2.
  destruct (new_spec p1 b0 rest1 heap1 l1 Hok Hd H1)
    as (c1 & s1 & Hn1 & Hc1 & Hnc1 & _ & _ & _ & Hsz1 & Hst1 & Hty1 & _ & Hs1
        & _ & Hlow1 & _).
  destruct (new_spec p2 b0 rest2 heap2 l2 Hok Hd H2)
    as (c2 & s2 & Hn2 & Hc2 & Hnc2 & _ & _ & _ & Hsz2 & Hst2 & Hty2 & _ & Hs2
        & _ & Hlow2 & _).
  rewrite En in *.
  assert (c1 = c2) by nia. subst c2.
  rewrite Hsz1, Hsz2, Hst1, Hst2, Hty1, Hty2, Hs1, Hs2.
  repeat split.
  intros r k Hr Hk.
  assert (Er : rows (weightsMat l1) = num_output p2)
    by (unfold rows; rewrite Hsz1; reflexivity).
  assert (Ec : cols (weightsMat l1) = c1)
    by (unfold cols; rewrite Hsz1; reflexivity).
  rewrite Hlow1, Hlow2 by lia. reflexivity.
Qed.

(** ** The two kernels, and the bias term *)

(** With the padding columns of the weight matrix zero, a forward pass
    through the 4-wide kernel and one through the scalar kernel end the same
    way and leave the same value in every output cell, unless the 4-wide
    run has undefined behaviour. *)
Lemma simd_and_scalar_agree l nthreads split input output :
  layer_ok l ->
  Forall (fun x => size_ok x = true) input ->
  results_agree true (forward true l nthreads split input output)
                (forward false l nthreads split input output).
Proof.
  intros Hl Hin.
  apply forward_agree; auto using same_layer_refl.
Qed.

Lemma simd_and_scalar_agree_witness :
  let blobs0 := [tensor [3; 2] (of_list [1; 0; 0; 1; 1; 1] junk)] in
  let x := tensor [5; 2] (of_list [2; 3; 4; 5; 6; 7; 8; 9; 10; 11] junk) in
  let y := tensor [5; 3] junk in
  exists l,
    FullyConnectedLayerImpl_new (mkParams 3 false 1) blobs0 junk = Ok l
    /\ layer_ok l
    /\ Forall (fun x => size_ok x = true) [x]
    /\ fst (forward true l 2 (unit_split 2) [x] [y]) = Ok tt
    /\ results_agree true (forward true l 2 (unit_split 2) [x] [y])
                     (forward false l 2 (unit_split 2) [x] [y]).
Proof.
  intros blobs0 x y. eexists. split; [reflexivity|].
  match goal with |- layer_ok ?l /\ _ => assert (Hl : layer_ok l) end.
  { split; [reflexivity|]. split; [reflexivity|].
    intros r k Hr Hk.
    change (0 <= r < 3) in Hr. change (2 <= k < 4) in Hk.
    assert (Er : r = 0 \/ r = 1 \/ r = 2) by lia.
    assert (Ek : k = 2 \/ k = 3) by lia.
    destruct Er as [->|[->| ->]]; destruct Ek as [->| ->]; reflexivity. }
  assert (Hx : Forall (fun x => size_ok x = true) [x]) by (repeat constructor).
  split; [exact Hl|]. split; [exact Hx|].
  split; [vm_compute; reflexivity|].
  apply simd_and_scalar_agree; assumption.
Defined.

(** C7: a layer made with the bias disabled has the all-zero bias row of
    length [numOutputs], and its forward pass ends the same way and leaves
    the same outputs as that of a layer made from the same weights with the
    bias enabled and an all-zero bias tensor. *)
Theorem bias_disabled_is_zero_bias p0 p1 w rest0 b heap0 heap1 l0 l1 :
  bias_term p0 = false -> bias_term p1 = true ->
  num_output p0 = num_output p1 -> axis_param p0 = axis_param p1 ->
  size_ok w = true -> dense w = true ->
  Forall (fun m => size_ok m = true /\ dense m = true) rest0 ->
  size_ok b = true -> dense b = true -> type b = type w ->
  (forall j, 0 <= j < num_output p1 -> data b j = fzero) ->
  FullyConnectedLayerImpl_new p0 (w :: rest0) heap0 = Ok l0 ->
  FullyConnectedLayerImpl_new p1 [w; b] heap1 = Ok l1 ->
  (size (biasMat l0) = [1; num_output p0]
   /\ forall j, 0 <= j < num_output p0 -> data (biasMat l0) j = fzero)
  /\ forall simd128 nthreads split input output,
       Forall (fun x => size_ok x = true) input ->
       fst (forward simd128 l0 nthreads split input output)
       = fst (forward simd128 l1 nthreads split input output)
       /\ Forall2 Mat_equiv
                  (snd (forward simd128 l0 nthreads split input output))
                  (snd (forward simd128 l1 nthreads split input output)).
Proof.
  intros B0 B1 En Ea Hw Hdw Hrest Hb Hdb Hty Hzero H0 H1.
  destruct (new_spec p0 w rest0 heap0 l0 Hw Hdw H0)
    as (c0 & s0 & Hn0 & _ & _ & _ & _ & _ & Hsz0 & _ & Hty0 & _ & _ & _ & _ & _
        & _ & _ & _ & Hax0 & Hz0 & _).
  destruct (new_spec p1 w [b] heap1 l1 Hw Hdw H1)
    as (c1 & s1 & Hn1 & _ & _ & _ & _ & _ & Hsz1 & _ & Hty1 & _ & _ & _ & _ & _
        & _ & _ & _ & Hax1 & _ & _).
  destruct (biasMat_size p0 w rest0 heap0 l0 Hw Hdw Hrest H0) as (S0 & T0 & _).
  destruct (biasMat_size p1 w [b] heap1 l1 Hw Hdw
              ltac:(repeat constructor; assumption) H1) as (S1 & T1 & D1).
  destruct (D1 b B1 eq_refl) as (Ty1 & Da1).
  specialize (Hz0 B0).
  assert (Hbias0 : forall j, 0 <= j < num_output p0 -> data (biasMat l0) j = fzero).
  { intros j Hj. rewrite Hz0. cbn [zeros data].
    replace (0 <=? j) with true by (symmetry; apply Z.leb_le; lia).
    replace (j <? num_output p0) with true by (symmetry; apply Z.ltb_lt; lia).
    reflexivity. }
  split; [split; [exact S0 | exact Hbias0]|].
  intros simd128 nthreads split input output Hin.
  destruct (new_same_weights p0 p1 w rest0 [b] heap0 heap1 l0 l1 Hw Hdw En H0 H1)
    as (W1 & W2 & W3 & W4).
  assert (Hsame : same_layer l0 l1).
  { assert (Er : rows (weightsMat l0) = num_output p0)
      by (unfold rows; rewrite Hsz0; reflexivity).
    unfold same_layer. rewrite Hax0, Hax1, S0, S1, T0, T1, En.
    repeat split; try assumption.
    - rewrite Ty1, Hty, Hz0. cbn [zeros type]. exact Hty0.
    - intros j Hj. rewrite Er in Hj.
      rewrite Hbias0 by exact Hj. rewrite Da1, Hzero by lia. reflexivity. }
  pose proof (forward_agree false simd128 simd128 l0 l1 nthreads split Hsame
                (new_layer_ok _ _ _ _ _ Hw Hdw H0)
                (new_layer_ok _ _ _ _ _ Hw Hdw H1)
                (or_introl eq_refl) input output Hin) as [[U _]|H];
    [discriminate | exact H].
Qed.

Lemma bias_disabled_is_zero_bias_witness :
  let w := tensor [3; 2] (of_list [1; 0; 0; 1; 1; 1] junk) in
  let b := tensor [3] zero_heap in
  let x := tensor [1; 2] (of_list [2; 3] junk) in
  let y := tensor [1; 3] junk in
  exists l0 l1,
    FullyConnectedLayerImpl_new (mkParams 3 false 1) [w] junk = Ok l0
    /\ FullyConnectedLayerImpl_new (mkParams 3 true 1) [w; b] zero_heap = Ok l1
    /\ (forall j, 0 <= j < 3 -> data b j = fzero)
    /\ fst (forward true l0 4 (unit_split 4) [x] [y])
       = fst (forward true l1 4 (unit_split 4) [x] [y])
    /\ Forall2 Mat_equiv (snd (forward true l0 4 (unit_split 4) [x] [y]))
                 (snd (forward true l1 4 (unit_split 4) [x] [y])).
Proof.
  intros w b x y. do 2 eexists.
  split; [reflexivity|]. split; [reflexivity|].
  assert (Hz : forall j, 0 <= j < 3 -> data b j = fzero) by (intros; reflexivity).
  split; [exact Hz|].
  refine (proj2 (bias_disabled_is_zero_bias
                   (mkParams 3 false 1) (mkParams 3 true 1) w [] b junk zero_heap
                   _ _ eq_refl eq_refl eq_refl eq_refl eq_refl eq_refl
                   (Forall_nil _) eq_refl eq_refl eq_refl Hz eq_refl eq_refl)
                true 4 (unit_split 4) [x] [y] _).
  repeat constructor.
Defined.

(** ** Stripes that fit an [int] *)

Section Filling.

Variables (simd128 : bool) (fc : FullConnected).

Local Notation "'nsamples'" := (rows (srcMat_ fc)).
Local Notation "'nw0'" := (rows (weights_ fc)).

Hypothesis nsamples_int : 0 <= nsamples <= INT_MAX.
Hypothesis nw0_int : 0 <= nw0 <= INT_MAX.
Hypothesis cols_eq : cols (srcMat_ fc) = cols (weights_ fc).
Hypothesis padding : simd128 = true -> pad_zero (weights_ fc).
Hypothesis dst_rows : 0 < nw0 -> nw0 <= step1 (dstMat_ fc).

Lemma cell_addr_inj o1 o2 :
  0 <= o1 -> 0 <= o2 -> cell_addr fc o1 = cell_addr fc o2 -> o1 = o2.
Proof.
  unfold cell_addr, row_ofs. intros H1 H2 E.
  destruct (Z.eq_dec nw0 0) as [Z0|Z0].
  - rewrite Z0 in E. rewrite !Z.div_0_r, !Z.mod_0_r in E. lia.
  - specialize (dst_rows ltac:(lia)).
    pose proof (Z.div_mod o1 nw0 Z0). pose proof (Z.div_mod o2 nw0 Z0).
    pose proof (Z.mod_pos_bound o1 nw0 ltac:(lia)).
    pose proof (Z.mod_pos_bound o2 nw0 ltac:(lia)).
    assert (0 <= o1 / nw0) by (apply Z.div_pos; lia).
    assert (0 <= o2 / nw0) by (apply Z.div_pos; lia).
    assert (o1 / nw0 = o2 / nw0) by nia.
    nia.
Qed.

Lemma filled_empty lo hi dst : hi <= lo -> filled fc lo hi dst dst.
Proof. intros H. split; [intros; lia | reflexivity]. Qed.

Lemma filled_same lo hi dst d d' :
  same_cells d d' -> filled fc lo hi dst d -> filled fc lo hi dst d'.
Proof.
  intros E [H1 H2]. split.
  - intros o Ho. rewrite <- E. apply H1. exact Ho.
  - intros a Ha. rewrite <- E. apply H2. exact Ha.
Qed.

Lemma filled_range lo hi lo' hi' dst d :
  (forall o, lo <= o < hi <-> lo' <= o < hi') ->
  filled fc lo hi dst d -> filled fc lo' hi' dst d.
Proof.
  intros E [H1 H2]. split.
  - intros o Ho. apply H1. apply E. exact Ho.
  - intros a Ha. apply H2. intros o Ho. apply Ha. apply E. exact Ho.
Qed.

Lemma filled_compose lo mid hi dst d1 d2 :
  0 <= lo <= mid -> mid <= hi ->
  filled fc lo mid dst d1 -> filled fc mid hi d1 d2 -> filled fc lo hi dst d2.
Proof.
  intros Hl Hm [A1 A2] [B1 B2]. split.
  - intros o Ho. destruct (Z_lt_le_dec o mid) as [L|L].
    + rewrite B2; [apply A1; lia|].
      intros o' Ho' E. apply cell_addr_inj in E; lia.
    + apply B1. lia.
  - intros a Ha. rewrite B2 by (intros o Ho; apply Ha; lia).
    apply A2. intros o Ho. apply Ha. lia.
Qed.

(** Within a run the offsets decode to the sample of the run. *)
Lemma run_decode ofs t :
  0 <= ofs -> 0 < nw0 -> 0 <= t < nw0 - ofs mod nw0 ->
  (ofs + t) / nw0 = ofs / nw0 /\ (ofs + t) mod nw0 = ofs mod nw0 + t.
Proof.
  intros Ho Hn Ht.
  pose proof (Z.div_mod ofs nw0 ltac:(lia)) as Hd.
  pose proof (Z.mod_pos_bound ofs nw0 Hn) as Hm.
  split.
  - symmetry. apply Z.div_unique with (r := ofs mod nw0 + t); lia.
  - symmetry. apply Z.mod_unique with (q := ofs / nw0); lia.
Qed.

(** A run of a stripe that fits an [int] has at least one cell, ends at the
    end of its sample or of the stripe, and fills exactly its cells. *)
Lemma run_filled stripeEnd ofs dst :
  0 <= ofs < stripeEnd -> stripeEnd <= nsamples * nw0 ->
  stripeEnd - ofs <= INT_MAX ->
  let nw := run_length nw0 stripeEnd ofs in
  1 <= nw /\ ofs + nw <= stripeEnd
  /\ (ofs + nw < stripeEnd -> ofs + nw = (ofs / nw0 + 1) * nw0)
  /\ to_size_t (ofs + to_size_t nw) = ofs + nw
  /\ filled fc ofs (ofs + nw) dst (run_cells fc stripeEnd ofs dst).
Proof.
  intros Ho He Hfit nw.
  destruct (index_facts fc nsamples_int nw0_int stripeEnd ofs Ho He)
    as (Hn & _ & Hq & _ & Hm & _).
  pose proof (Z.div_mod ofs nw0 ltac:(lia)) as Hd.
  assert (Enw : nw = Z.min (nw0 - ofs mod nw0) (stripeEnd - ofs)).
  { unfold nw, run_length. rewrite to_int_small; [reflexivity|].
    unfold INT_MIN, INT_MAX in *. lia. }
  assert (H1 : 1 <= nw) by lia.
  assert (H2 : ofs + nw <= stripeEnd) by lia.
  split; [exact H1|]. split; [exact H2|]. split; [|split].
  - intros L. assert (nw = nw0 - ofs mod nw0) by lia. nia.
  - unfold INT_MAX in *.
    rewrite (to_size_t_small nw) by lia. apply to_size_t_small. nia.
  - split.
    + intros o Hoo.
      destruct (run_decode ofs (o - ofs) ltac:(lia) Hn ltac:(lia)) as [Eq Em].
      replace (ofs + (o - ofs)) with o in Eq, Em by lia.
      unfold cell_addr, cell_value, run_cells, kernel_cells. rewrite Eq, Em.
      fold nw.
      match goal with |- (if ?b then _ else _) = _ =>
        replace b with true
          by (symmetry; apply andb_true_iff; split;
              [apply Z.leb_le | apply Z.ltb_lt]; lia) end.
      replace (row_ofs (dstMat_ fc) (ofs / nw0) + (ofs mod nw0 + (o - ofs))
               - (row_ofs (dstMat_ fc) (ofs / nw0) + ofs mod nw0))
        with (o - ofs) by lia.
      unfold shift at 1. f_equal. unfold row.
      replace (row_ofs (weights_ fc) (ofs mod nw0) + (o - ofs) * step1 (weights_ fc))
        with (row_ofs (weights_ fc) (ofs mod nw0 + (o - ofs)))
        by (unfold row_ofs; ring).
      reflexivity.
    + intros a Ha. unfold run_cells, kernel_cells. fold nw.
      match goal with |- (if ?b then _ else _) = _ => destruct b eqn:Eb end;
        [|reflexivity].
      exfalso. apply andb_true_iff in Eb. destruct Eb as [Eb1 Eb2].
      apply Z.leb_le in Eb1. apply Z.ltb_lt in Eb2.
      set (t := a - (row_ofs (dstMat_ fc) (ofs / nw0) + ofs mod nw0)) in *.
      apply (Ha (ofs + t)); [lia|].
      destruct (run_decode ofs t ltac:(lia) Hn ltac:(lia)) as [Eq Em].
      unfold cell_addr. rewrite Eq, Em. lia.
Qed.

(** The loop over the runs terminates within its fuel and fills the cells
    from [ofs] to the end of the stripe. *)
Lemma stripe_loop_filled (fuel : nat) :
  forall stripeEnd ofs dst,
    0 <= ofs -> stripeEnd <= nsamples * nw0 -> stripeEnd - ofs <= INT_MAX ->
    (1 <= fuel)%nat ->
    (ofs < stripeEnd -> 1 + nsamples - ofs / nw0 <= Z.of_nat fuel) ->
    exists d, stripe_loop simd128 fc fuel stripeEnd ofs dst = Ok d
              /\ filled fc ofs stripeEnd dst d.
Proof.
  induction fuel as [|fuel IH]; intros stripeEnd ofs dst Ho He Hfit Hf1 Hfuel;
    [lia|].
  destruct (Z_lt_le_dec ofs stripeEnd) as [L|L].
  - rewrite (stripe_loop_step simd128 fc nsamples_int nw0_int) by lia.
    destruct (index_facts fc nsamples_int nw0_int stripeEnd ofs ltac:(lia) He)
      as (Hn & _ & Hq & _ & Hm & _).
    destruct (run_filled stripeEnd ofs dst ltac:(lia) He Hfit)
      as (N1 & N2 & N3 & N4 & Hrun).
    assert (Hk : exists d1, run_kernel simd128 fc stripeEnd ofs dst = Ok d1
                            /\ same_cells d1 (run_cells fc stripeEnd ofs dst)).
    { destruct simd128 eqn:Es.
      - apply run_kernel_simd; auto; try lia. unfold INT_MIN. lia.
      - apply run_kernel_scalar. }
    destruct Hk as (d1 & -> & Hd1). cbn [bind]. rewrite N4.
    set (nw := run_length nw0 stripeEnd ofs) in *.
    destruct (IH stripeEnd (ofs + nw) d1) as (d2 & E2 & F2); try lia.
    + intros L'. rewrite (N3 L'), Z.div_mul by lia. lia.
    + exists d2. split; [exact E2|].
      apply (filled_compose ofs (ofs + nw) stripeEnd dst d1 d2); try lia;
        [|exact F2].
      apply (filled_same _ _ _ (run_cells fc stripeEnd ofs dst));
        [apply same_cells_sym; exact Hd1 | exact Hrun].
  - rewrite stripe_loop_done by lia. exists dst. split; [reflexivity|].
    apply filled_empty. lia.
Qed.

(** The bounds that [operator()] computes for a sub-range. *)
Lemma range_bounds total_ n a b :
  0 <= total_ < 2 ^ 62 -> 1 <= n <= INT_MAX -> 0 <= a < b -> b <= n ->
  let S := stripeSize_of total_ n in
  stripeStart_of total_ n (mkRange a b) = a * S
  /\ stripeEnd_of total_ n (mkRange a b) = Z.min (b * S) total_
  /\ total_ <= n * S /\ 0 <= S.
Proof.
  intros Ht Hn Ha Hb S.
  unfold INT_MAX in *.
  destruct (stripeSize_nowrap total_ n ltac:(lia) ltac:(unfold INT_MAX; lia)
                              ltac:(lia)) as (_ & H1 & H2 & H3).
  fold S in H1, H2, H3.
  unfold stripeStart_of, stripeEnd_of; cbn [start end_]. fold S.
  rewrite (to_size_t_small a) by lia.
  rewrite (to_size_t_small (a * S)) by nia.
  split; [reflexivity|]. split; [|split; assumption].
  destruct (Z.eqb_spec b n) as [->|E]; [lia|].
  rewrite (to_size_t_small b) by lia.
  rewrite (to_size_t_small (b * S)) by nia. reflexivity.
Qed.

Hypothesis nstripes_int : 1 <= nstripes_ fc <= INT_MAX.

Local Notation "'total_'" := (nsamples * nw0).
Local Notation "'S_'" := (stripeSize_of (nsamples * nw0) (nstripes_ fc)).

(** One call of the body fills the cells of its sub-range. *)
Lemma FullConnected_call_filled a b dst :
  0 <= a < b -> b <= nstripes_ fc ->
  range_fits total_ (nstripes_ fc) (mkRange a b) = true ->
  exists d, FullConnected_call simd128 fc (mkRange a b) dst = Ok d
            /\ filled fc (Z.min (a * S_) total_) (Z.min (b * S_) total_) dst d.
Proof.
  intros Ha Hb Hfit. unfold FullConnected_call.
  rewrite (total_exact fc nsamples_int nw0_int).
  unfold INT_MAX in *.
  rewrite (to_size_t_small (nstripes_ fc)) by lia.
  destruct (Z.eqb_spec (nstripes_ fc) 0); [lia|].
  assert (Ht : 0 <= total_ < 2 ^ 62) by nia.
  destruct (range_bounds total_ (nstripes_ fc) a b Ht
                         ltac:(unfold INT_MAX; lia) Ha Hb)
    as (Es & Ee & Hcov & HS).
  unfold range_fits in Hfit. apply Z.leb_le in Hfit. unfold INT_MAX in Hfit.
  rewrite Es, Ee in *.
  assert (A1 : 0 <= a * S_) by nia.
  assert (A2 : Z.min (b * S_) total_ <= total_) by lia.
  assert (A3 : Z.min (b * S_) total_ - a * S_ <= INT_MAX)
    by (unfold INT_MAX; lia).
  assert (A4 : (1 <= S (Z.to_nat nsamples))%nat) by lia.
  assert (A5 : a * S_ < Z.min (b * S_) total_ ->
               1 + nsamples - a * S_ / nw0 <= Z.of_nat (S (Z.to_nat nsamples))).
  { intros L.
    assert (0 <= a * S_ / nw0) by (apply Z.div_pos; nia). lia. }
  destruct (stripe_loop_filled (S (Z.to_nat nsamples)) (Z.min (b * S_) total_)
                               (a * S_) dst A1 A2 A3 A4 A5) as (d & E & F).
  - exists d. split; [exact E|].
    destruct (Z_le_gt_dec (a * S_) total_) as [L|L].
    + rewrite (Z.min_l (a * S_)) by lia. exact F.
    + eapply filled_range; [|exact F]. intros o. lia.
Qed.

(** The calls for the sub-ranges of a cut fill the cells one after the
    other, up to the last cell of the output. *)
Lemma parallel_for_filled split :
  forall a dst,
    0 <= a -> is_split a (nstripes_ fc) split = true ->
    fits total_ (nstripes_ fc) split = true ->
    exists d, parallel_for_ split (FullConnected_call simd128 fc) dst = Ok d
              /\ filled fc (Z.min (a * S_) total_) total_ dst d.
Proof.
  assert (Ht : 0 <= total_ < 2 ^ 62) by (unfold INT_MAX in *; nia).
  induction split as [|r split IH]; intros a dst Ha Hs Hf.
  - cbn in Hs. apply Z.eqb_eq in Hs. subst a.
    exists dst. split; [reflexivity|].
    apply filled_empty.
    destruct (stripeSize_nowrap total_ (nstripes_ fc) ltac:(lia) nstripes_int
                                ltac:(unfold INT_MAX in *; lia))
      as (_ & H1 & _).
    lia.
  - cbn [is_split] in Hs. rewrite !andb_true_iff in Hs.
    destruct Hs as [[[Hs1 Hs2] Hs3] Hs4].
    apply Z.eqb_eq in Hs1. apply Z.ltb_lt in Hs2. apply Z.leb_le in Hs3.
    cbn [fits forallb] in Hf. apply andb_true_iff in Hf. destruct Hf as [Hf1 Hf2].
    destruct r as [ra rb]. cbn [start end_] in *. subst ra.
    destruct (FullConnected_call_filled a rb dst ltac:(lia) Hs3 Hf1)
      as (d1 & E1 & F1).
    cbn [parallel_for_]. rewrite E1. cbn [bind].
    destruct (IH rb d1 ltac:(lia) Hs4 Hf2) as (d2 & E2 & F2).
    exists d2. split; [exact E2|].
    destruct (range_bounds total_ (nstripes_ fc) a rb Ht nstripes_int
                           ltac:(lia) Hs3) as (_ & _ & _ & HS).
    apply (filled_compose (Z.min (a * S_) total_) (Z.min (rb * S_) total_)
                          total_ dst d1 d2); try assumption; nia.
Qed.

End Filling.

(** ** One matrix of the batch *)

Lemma FullConnected_new_inv srcMat weights biasMat dstMat n fc :
  FullConnected_new srcMat weights biasMat dstMat n = Ok fc ->
  fc = mkFullConnected srcMat weights biasMat dstMat n
  /\ dims srcMat = 2 /\ cols srcMat = cols weights
  /\ rows dstMat = rows srcMat /\ cols dstMat = rows weights.
Proof.
  unfold FullConnected_new. intros H.
  apply bind_Ok in H. destruct H as ([] & Hc & [= <-]).
  apply CV_Assert_Ok in Hc. rewrite !andb_true_iff in Hc.
  destruct Hc as [[[[[[[D C] R] C'] _] _] _] _].
  apply Z.eqb_eq in D, C, R, C'. repeat split; assumption.
Qed.

(** The rows of a reshaped matrix do not overlap, and it has the cells of
    the matrix it was made from. *)
Lemma reshape_layout y o m :
  size_ok y = true -> reshape y o = Ok m ->
  (0 < cols m -> cols m <= step1 m)
  /\ (0 <= rows m -> rows m * cols m = total y)
  /\ data m = data y.
Proof.
  intros Hok Hr.
  destruct (size_ok_inv y Hok) as (Hf & _ & Hst).
  assert (Hy : (0 < cols y -> cols y <= step1 y)
               /\ (0 <= rows y -> rows y * cols y = total y)).
  { unfold dims, cols, rows, total, prod in *.
    destruct (size y) as [|a [|b [|c t]]]; cbn in *; try lia;
      try (split; [intros _; apply Hst; reflexivity | lia]). }
  unfold reshape in Hr.
  destruct (Z.eqb_spec o 0); [injection Hr as <-; tauto|].
  destruct ((dims y =? 2) && (o =? rows y)); [injection Hr as <-; tauto|].
  destruct (Z.ltb_spec o 0); [discriminate|].
  destruct (negb (isContinuous y)); [discriminate|].
  destruct (total y <? o); [discriminate|].
  destruct (Z.eqb_spec (total y mod o) 0) as [E|E]; cbn [negb] in Hr;
    [|discriminate].
  injection Hr as <-. unfold cols, rows. cbn [size step1 data].
  split; [lia|]. split; [|reflexivity].
  intros _. pose proof (Z.div_mod (total y) o ltac:(lia)). lia.
Qed.

Section OneMatrix.

Variables (simd128 : bool) (l : FullyConnectedLayerImpl).
Variables (n : Z) (split : list Range).

Hypothesis layer : layer_ok l.
Hypothesis threads : 1 <= n <= INT_MAX.
Hypothesis cut : is_split 0 n split = true.

Lemma weights_rows_int : 0 <= rows (weightsMat l) <= INT_MAX.
Proof.
  destruct layer as (Hok & Hdims & _).
  destruct (size_ok_inv _ Hok) as (Hf & _).
  unfold dims, rows in *.
  destruct (size (weightsMat l)) as [|a [|b [|c t]]]; cbn in Hdims; try lia.
  apply Forall_inv in Hf. exact Hf.
Qed.

(** When the checks pass and the stripes fit, the round computes the whole
    output matrix and touches nothing else. *)
Lemma forward_one_filled outerSize x y srcMat dstMat fc :
  size_ok x = true -> size_ok y = true -> INT_MIN <= outerSize <= INT_MAX ->
  reshape x outerSize = Ok srcMat -> reshape y outerSize = Ok dstMat ->
  FullConnected_new srcMat (weightsMat l) (biasMat l) dstMat n = Ok fc ->
  fits (total y) n split = true ->
  rows srcMat * rows (weightsMat l) = total y
  /\ exists d,
      forward_one simd128 l n split outerSize x y
      = Ok (mkMat (size y) (type y) (step1 y) d)
      /\ filled fc 0 (total y) (data y) d.
Proof.
  intros Hx Hy Ho Esrc Edst Efc Hfit.
  destruct (FullConnected_new_inv _ _ _ _ _ _ Efc) as (-> & Hd & Hc & Hr & Hc').
  pose proof (reshape_rows_int x outerSize srcMat Hx Ho Esrc Hd) as Hrows.
  pose proof weights_rows_int as Hw.
  destruct (reshape_layout y outerSize dstMat Hy Edst) as (L1 & L2 & L3).
  assert (Et : rows srcMat * rows (weightsMat l) = total y)
    by (rewrite <- L2 by lia; rewrite Hr, Hc'; reflexivity).
  split; [exact Et|].
  unfold forward_one. rewrite Esrc, Edst. cbn [bind]. rewrite Efc. cbn [bind].
  set (fc := mkFullConnected srcMat (weightsMat l) (biasMat l) dstMat n).
  assert (B1 : 0 <= rows (srcMat_ fc) <= INT_MAX) by exact Hrows.
  assert (B2 : 0 <= rows (weights_ fc) <= INT_MAX) by exact Hw.
  assert (B3 : cols (srcMat_ fc) = cols (weights_ fc)) by exact Hc.
  assert (B4 : simd128 = true -> pad_zero (weights_ fc))
    by (intros _; apply layer).
  assert (B5 : 0 < rows (weights_ fc) -> rows (weights_ fc) <= step1 (dstMat_ fc)).
  { cbn [fc weights_ dstMat_]. intros Hpos. rewrite <- Hc'. apply L1. lia. }
  assert (B6 : 1 <= nstripes_ fc <= INT_MAX) by exact threads.
  assert (B7 : fits (rows (srcMat_ fc) * rows (weights_ fc)) (nstripes_ fc) split
               = true)
    by (cbn [fc srcMat_ weights_ nstripes_]; rewrite Et; exact Hfit).
  destruct (parallel_for_filled simd128 fc B1 B2 B3 B4 B5 B6 split 0
                                (data dstMat) ltac:(lia) cut B7)
    as (d & E & F).
  exists d. rewrite E. cbn [bind]. split; [reflexivity|].
  rewrite <- L3. rewrite <- Et.
  eapply filled_range; [|exact F].
  intros o. cbn [fc srcMat_ weights_]. lia.
Qed.

End OneMatrix.

(** ** The whole batch *)

Lemma reshape_cases x o :
  (exists m, reshape x o = Ok m) \/ reshape x o = Throw StsBadArg.
Proof.
  unfold reshape.
  repeat match goal with
         | |- context [if ?b then _ else _] => destruct b
         end; eauto.
Qed.

Lemma FullConnected_new_cases srcMat weights biasMat dstMat n :
  (exists fc, FullConnected_new srcMat weights biasMat dstMat n = Ok fc)
  \/ FullConnected_new srcMat weights biasMat dstMat n = Throw StsAssert.
Proof.
  unfold FullConnected_new.
  match goal with |- context [CV_Assert ?b] => destruct b end; cbn; eauto.
Qed.

Lemma forward_one_cases simd128 l n split outerSize x y :
  (exists e, forward_one simd128 l n split outerSize x y = Throw e)
  \/ (exists srcMat dstMat fc,
         reshape x outerSize = Ok srcMat /\ reshape y outerSize = Ok dstMat
         /\ FullConnected_new srcMat (weightsMat l) (biasMat l) dstMat n = Ok fc).
Proof.
  unfold forward_one.
  destruct (reshape_cases x outerSize) as [(srcMat & ->)| ->];
    [|left; eexists; reflexivity].
  destruct (reshape_cases y outerSize) as [(dstMat & ->)| ->];
    [|left; eexists; reflexivity].
  cbn [bind].
  destruct (FullConnected_new_cases srcMat (weightsMat l) (biasMat l) dstMat n)
    as [(fc & E)|E].
  - right. exists srcMat, dstMat, fc. repeat split; [reflexivity.. | exact E].
  - left. rewrite E. eexists. reflexivity.
Qed.

(** The cell in row [r], column [j] of the output, among the offsets. *)
Lemma cell_of_offset fc r j :
  0 <= r -> 0 <= j < rows (weights_ fc) ->
  cell_addr fc (r * rows (weights_ fc) + j) = row_ofs (dstMat_ fc) r + j
  /\ cell_value fc (r * rows (weights_ fc) + j)
     = (data (biasMat_ fc) j
        + dot (Z.to_nat (cols (srcMat_ fc))) (row (srcMat_ fc) r)
              (row (weights_ fc) j))%Qc.
Proof.
  intros Hr Hj. unfold cell_addr, cell_value.
  assert (Eq : (r * rows (weights_ fc) + j) / rows (weights_ fc) = r)
    by (symmetry; apply Z.div_unique with (r := j); lia).
  assert (Em : (r * rows (weights_ fc) + j) mod rows (weights_ fc) = j)
    by (symmetry; apply Z.mod_unique with (q := r); lia).
  rewrite Eq, Em. split; reflexivity.
Qed.

Section Batch.

Variables (simd128 : bool) (l : FullyConnectedLayerImpl).
Variables (n : Z) (split : list Range).

Hypothesis layer : layer_ok l.
Hypothesis threads : 1 <= n <= INT_MAX.
Hypothesis cut : is_split 0 n split = true.

Lemma forward_loop_correct outerSize :
  INT_MIN <= outerSize <= INT_MAX ->
  forall input output res outs,
    Forall (fun x => size_ok x = true) input ->
    Forall (fun y => size_ok y = true /\ fits (total y) n split = true) output ->
    (length input <= length output)%nat ->
    forward_loop simd128 l n split outerSize input output = (res, outs) ->
    (forall e, res <> Throw e) ->
    res = Ok tt
    /\ forall i x y,
        nth_error input i = Some x -> nth_error output i = Some y ->
        exists srcMat dstMat y',
          reshape x outerSize = Ok srcMat /\ reshape y outerSize = Ok dstMat
          /\ nth_error outs i = Some y' /\ size y' = size y
          /\ forall r j, 0 <= r < rows srcMat -> 0 <= j < rows (weightsMat l) ->
                         data y' (row_ofs dstMat r + j) = affine l srcMat r j.
Proof.
  intros Ho. induction input as [|x input IH]; intros output res outs Hin Hout Hlen E Hres.
  - cbn in E. injection E as <- <-. split; [reflexivity|].
    intros [|i] x y Hx; discriminate.
  - destruct output as [|y output]; [cbn in Hlen; lia|].
    cbn [forward_loop] in E.
    inversion Hin as [|? ? Hx Hin']; subst.
    inversion Hout as [|? ? [Hy Hfit] Hout']; subst.
    destruct (forward_one_cases simd128 l n split outerSize x y)
      as [(e & Et)|(srcMat & dstMat & fc & Esrc & Edst & Efc)].
    { rewrite Et in E. injection E as <- _. exfalso. eapply Hres. reflexivity. }
    destruct (forward_one_filled simd128 l n split layer threads cut outerSize
                x y srcMat dstMat fc Hx Hy Ho Esrc Edst Efc Hfit)
      as (Etot & d & E1 & F).
    rewrite E1 in E.
    destruct (forward_loop simd128 l n split outerSize input output)
      as [res' outs'] eqn:E'.
    injection E as <- <-.
    destruct (IH output res' outs' Hin' Hout' ltac:(cbn in Hlen; lia) E' Hres)
      as (-> & Hcells).
    split; [reflexivity|].
    intros [|i] x' y' Hx' Hy'.
    + cbn in Hx', Hy'. injection Hx' as <-. injection Hy' as <-.
      exists srcMat, dstMat, (mkMat (size y) (type y) (step1 y) d).
      repeat split; try assumption.
      intros r j Hr Hj. cbn [data].
      destruct (FullConnected_new_inv _ _ _ _ _ _ Efc) as (-> & _ & Hc & _).
      destruct F as [F1 _].
      pose proof (cell_of_offset
                    (mkFullConnected srcMat (weightsMat l) (biasMat l) dstMat n)
                    r j ltac:(lia) Hj) as [Ea Ev].
      cbn [srcMat_ weights_ dstMat_ biasMat_] in *.
      rewrite <- Ea, F1 by nia. rewrite Ev. unfold affine. rewrite Hc. reflexivity.
    + cbn [nth_error] in *. apply (Hcells i x' y' Hx' Hy').
Qed.

Lemma forward_correct input output res outs :
  Forall (fun x => size_ok x = true) input ->
  Forall (fun y => size_ok y = true /\ fits (total y) n split = true) output ->
  (1 <= length input <= length output)%nat ->
  forward simd128 l n split input output = (res, outs) ->
  (forall e, res <> Throw e) -> res <> Undefined ->
  res = Ok tt
  /\ exists outerSize,
      forall i x y,
        nth_error input i = Some x -> nth_error output i = Some y ->
        exists srcMat dstMat y',
          reshape x outerSize = Ok srcMat /\ reshape y outerSize = Ok dstMat
          /\ nth_error outs i = Some y' /\ size y' = size y
          /\ forall r j, 0 <= r < rows srcMat -> 0 <= j < rows (weightsMat l) ->
                         data y' (row_ofs dstMat r + j) = affine l srcMat r j.
Proof.
  intros Hin Hout Hlen E Hres Hund. unfold forward in E.
  destruct input as [|x0 input]; [cbn in Hlen; lia|].
  destruct (axisCan <- clamp (axis l) (dims x0);; total_range x0 0 axisCan)
    as [t|e| |] eqn:Ep.
  - destruct (forward_loop_correct (to_int t) (to_int_range t) (x0 :: input)
                output res outs Hin Hout ltac:(lia) E Hres) as [-> H].
    split; [reflexivity|]. exists (to_int t). exact H.
  - injection E as <- _. exfalso. eapply Hres. reflexivity.
  - injection E as <- _. exfalso. apply Hund. reflexivity.
  - exfalso. unfold clamp, int_op, total_range, CV_Assert in Ep.
    repeat match type of Ep with
           | context [if ?b then _ else _] => destruct b; cbn [bind] in Ep
           end; discriminate.
Qed.

End Batch.

(** ** Outputs of 2^31 cells and more *)

Lemma forward_single simd128 l n split x y t y' :
  forward_outerSize l x = Ok t ->
  forward_one simd128 l n split (to_int t) x y = Ok y' ->
  forward simd128 l n split [x] [y] = (Ok tt, [y']).
Proof.
  intros E1 E2. unfold forward. fold (forward_outerSize l x). rewrite E1.
  cbn [forward_loop]. rewrite E2. reflexivity.
Qed.

(** C1: a valid configuration on which [forward] completes without having
    written the output.  The input is 65536 x 8, the weights are 32768 x 8,
    the output is 65536 x 32768 and one stripe is used: [(int)(stripeEnd -
    ofs)] is [INT_MIN], so [nw] is negative, the scalar kernel writes no
    cell and [ofs += nw] ends the loop; the output still holds what it held
    before the call, which is not the affine value.  In a build with the
    4-wide kernel, [nw - 4] overflows. *)
Theorem forward_leaves_large_output_unwritten :
  let w := tensor [32768; 8] junk in
  let x := tensor [65536; 8] junk in
  let y := tensor [65536; 32768] zero_heap in
  exists l,
    FullyConnectedLayerImpl_new (mkParams 32768 false 1) [w] zero_heap = Ok l
    /\ cols x = cols (weightsMat l) /\ rows y = rows x
    /\ cols y = rows (weightsMat l) /\ total (biasMat l) = rows (weightsMat l)
    /\ forward false l 1 (unit_split 1) [x] [y] = (Ok tt, [y])
    /\ data y 0 <> affine l x 0 0
    /\ fst (forward true l 1 (unit_split 1) [x] [y]) = Undefined.
Proof.
  intros w x y.
  exists (mkLayer [w] false 1 w (zeros 32768 CV_32F zero_heap)).
  split; [reflexivity|]. split; [reflexivity|]. split; [reflexivity|].
  split; [reflexivity|]. split; [reflexivity|].
  split; [vm_compute; reflexivity|].
  split; [|vm_compute; reflexivity].
  intros H. apply (f_equal this) in H. vm_compute in H. discriminate.
Qed.

(** C4: on the same input, one stripe and two stripes do not give the same
    output: with two stripes each stripe has 2^30 cells and the output is
    computed, with one stripe it is left as it was. *)
Theorem stripe_count_changes_large_output :
  let w := tensor [32768; 8] junk in
  let x := tensor [65536; 8] junk in
  let y := tensor [65536; 32768] zero_heap in
  exists l y1 y2,
    FullyConnectedLayerImpl_new (mkParams 32768 false 1) [w] zero_heap = Ok l
    /\ 1 <= 1 <= rows x * rows (weightsMat l)
    /\ 1 <= 2 <= rows x * rows (weightsMat l)
    /\ forward false l 1 (unit_split 1) [x] [y] = (Ok tt, [y1])
    /\ forward false l 2 (unit_split 2) [x] [y] = (Ok tt, [y2])
    /\ data y2 0 = affine l x 0 0
    /\ data y1 0 <> data y2 0.
Proof.
  intros w x y.
  set (l := mkLayer [w] false 1 w (zeros 32768 CV_32F zero_heap)).
  assert (Hnew : FullyConnectedLayerImpl_new (mkParams 32768 false 1) [w] zero_heap
                 = Ok l) by reflexivity.
  assert (Hl : layer_ok l)
    by exact (new_layer_ok _ w [] _ l eq_refl eq_refl Hnew).
  set (fc := mkFullConnected x (weightsMat l) (biasMat l) y 2).
  destruct (forward_one_filled false l 2 (unit_split 2) Hl
              ltac:(unfold INT_MAX; lia) eq_refl 65536 x y x y fc
              eq_refl eq_refl ltac:(unfold INT_MIN, INT_MAX; lia)
              eq_refl eq_refl eq_refl eq_refl)
    as (_ & d & E & F1 & _).
  assert (Ht : total y = 2147483648) by reflexivity.
  specialize (F1 0 ltac:(rewrite Ht; lia)).
  change (cell_addr fc 0) with 0 in F1.
  exists l, y, (mkMat (size y) (type y) (step1 y) d).
  split; [exact Hnew|].
  split; [change (rows x * rows (weightsMat l)) with 2147483648; lia|].
  split; [change (rows x * rows (weightsMat l)) with 2147483648; lia|].
  split; [vm_compute; reflexivity|].
  split; [apply forward_single with (t := 65536); [reflexivity | exact E]|].
  cbn [data]. rewrite F1. split; [reflexivity|].
  intros H. apply (f_equal this) in H. vm_compute in H. discriminate.
Qed.

(** C9: an input on which the two kernels part.  The weight blob is
    32768 x 6, which the constructor pads with zeros to rows of 8; the input
    is 65536 x 6, the output 65536 x 32768, and one stripe is used.  Every
    check of the round passes.  [(int)(stripeEnd - ofs)] is [INT_MIN], so
    [nw] is [INT_MIN]: without the 4-wide block the loop over the rows runs
    no round and [forward] returns with the output as it was, whereas the
    test [i <= nw - 4] of the 4-wide block overflows. *)
Theorem kernels_part_on_large_output :
  let w := tensor [32768; 6] junk in
  let x := tensor [65536; 6] junk in
  let y := tensor [65536; 32768] zero_heap in
  exists l,
    FullyConnectedLayerImpl_new (mkParams 32768 false 1) [w] zero_heap = Ok l
    /\ step1 (weightsMat l) = 8 /\ pad_zero (weightsMat l)
    /\ checks_pass l 1 65536 x y
    /\ forward false l 1 (unit_split 1) [x] [y] = (Ok tt, [y])
    /\ fst (forward true l 1 (unit_split 1) [x] [y]) = Undefined.
Proof.
  intros w x y.
  set (wm := mkMat [32768; 6] CV_32F 8 (padded zero_heap w 6 8)).
  set (l := mkLayer [wm] false 1 wm (zeros 32768 CV_32F zero_heap)).
  assert (Hnew : FullyConnectedLayerImpl_new (mkParams 32768 false 1) [w] zero_heap
                 = Ok l) by reflexivity.
  exists l. split; [exact Hnew|]. split; [reflexivity|].
  split; [exact (proj2 (proj2 (new_layer_ok _ w [] _ l eq_refl eq_refl Hnew)))|].
  split.
  { exists x, y, (mkFullConnected x wm (biasMat l) y 1).
    split; [reflexivity|]. split; reflexivity. }
  split; [vm_compute; reflexivity | vm_compute; reflexivity].
Qed.

(** ** Errors *)


(** A loop that stops on an error stops in some round [k]: the matrices
    before [k] have been computed, those from [k] on are as they were. *)
Lemma forward_loop_throw simd128 l n split outerSize input :
  forall output e outs,
    forward_loop simd128 l n split outerSize input output = (Throw e, outs) ->
    exists k x y,
      nth_error input k = Some x /\ nth_error output k = Some y
      /\ forward_one simd128 l n split outerSize x y = Throw e
      /\ skipn k outs = skipn k output
      /\ forall i, (i < k)%nat ->
           exists xi yi yi',
             nth_error input i = Some xi /\ nth_error output i = Some yi
             /\ nth_error outs i = Some yi'
             /\ forward_one simd128 l n split outerSize xi yi = Ok yi'.
Proof.
  induction input as [|x input IH]; intros output e outs E.
  - cbn in E. discriminate.
  - cbn [forward_loop] in E. destruct output as [|y output]; [discriminate|].
    destruct (forward_one simd128 l n split outerSize x y) as [y'|e'| |] eqn:E1.
    + destruct (forward_loop simd128 l n split outerSize input output)
        as [res' outs'] eqn:E'.
      injection E as -> <-.
      destruct (IH output e outs' E') as (k & xk & yk & Hx & Hy & Hk & Hs & Hbefore).
      exists (S k), xk, yk. cbn [nth_error skipn].
      split; [exact Hx|]. split; [exact Hy|]. split; [exact Hk|].
      split; [exact Hs|].
      intros [|i] Hi.
      * exists x, y, y'. cbn [nth_error]. auto.
      * cbn [nth_error]. apply Hbefore. lia.
    + injection E as <- <-. exists 0%nat, x, y. cbn [nth_error skipn].
      split; [reflexivity|]. split; [reflexivity|]. split; [exact E1|].
      split; [reflexivity|]. intros i Hi. lia.
    + discriminate.
    + discriminate.
Qed.




(** ** The batch row count *)

Lemma reshape_rows x o m :
  reshape x o = Ok m -> o <> 0 -> rows m = o.
Proof.
  unfold reshape. intros E Ho.
  destruct (Z.eqb_spec o 0); [contradiction|].
  destruct (dims x =? 2) eqn:Ed; cbn [andb] in E.
  - destruct (Z.eqb_spec o (rows x)).
    + injection E as <-. congruence.
    + repeat match type of E with
             | context [if ?b then _ else _] => destruct b
             end; try discriminate.
      injection E as <-. reflexivity.
  - repeat match type of E with
           | context [if ?b then _ else _] => destruct b
           end; try discriminate.
    injection E as <-. reflexivity.
Qed.

Lemma forward_loop_reshapes simd128 l n split outerSize input :
  forall output outs,
    forward_loop simd128 l n split outerSize input output = (Ok tt, outs) ->
    Forall (fun x => exists srcMat,
                reshape x outerSize = Ok srcMat
                /\ (outerSize <> 0 -> rows srcMat = outerSize)) input.
Proof.
  induction input as [|x input IH]; intros output outs E; [constructor|].
  cbn [forward_loop] in E. destruct output as [|y output]; [discriminate|].
  destruct (forward_one simd128 l n split outerSize x y) as [y'|e| |] eqn:E1;
    try discriminate.
  destruct (forward_loop simd128 l n split outerSize input output)
    as [res' outs'] eqn:E'.
  injection E as -> <-.
  constructor; [|eapply IH; exact E'].
  unfold forward_one in E1.
  destruct (reshape x outerSize) as [srcMat| | |] eqn:Er; try discriminate.
  exists srcMat. split; [reflexivity|].
  intros Ho. eapply reshape_rows; eauto.
Qed.

Lemma nth_error_resize {A : Type} (v : list A) (n : nat) (a : A) i :
  (length v <= i < n)%nat -> nth_error (resize v n a) i = Some a.
Proof.
  intros Hi. unfold resize.
  rewrite nth_error_app2 by (rewrite length_firstn; lia).
  rewrite length_firstn.
  replace (Nat.min n (length v)) with (length v) by lia.
  apply nth_error_repeat. lia.
Qed.

(** C10, as the code has it: [getMemoryShapes] computes the batch row
    count from [inputs[0]] alone and resizes the output list to the number
    of inputs with [outerSize x numOutput] as the filling shape: every entry
    that it adds has that shape, whatever the other input shapes are, and
    the entries that the list already had are kept.  [forward] computes the
    row count from [*input[0]] alone and passes every input matrix through
    [reshape(1, outerSize)], which gives a matrix of [outerSize] rows unless
    [outerSize] is 0. *)
Theorem outerSize_from_first_input l :
  (forall inputs requiredOutputs outputs0 b outputs,
     getMemoryShapes l inputs requiredOutputs outputs0 = Ok (b, outputs) ->
     exists in0 rest b0 brest outerSize,
       inputs = in0 :: rest /\ blobs l = b0 :: brest
       /\ shapes_outerSize l in0 = Ok outerSize
       /\ outputs = resize outputs0 (length inputs)
                           [outerSize; nth 0 (size b0) 0]
       /\ length outputs = length inputs
       /\ (forall i, (length outputs0 <= i < length inputs)%nat ->
             nth_error outputs i = Some [outerSize; nth 0 (size b0) 0])
       /\ (forall i, (i < length outputs0)%nat -> (i < length inputs)%nat ->
             nth_error outputs i = nth_error outputs0 i))
  /\ (forall simd128 nthreads split input output outs,
        forward simd128 l nthreads split input output = (Ok tt, outs) ->
        exists x0 rest t,
          input = x0 :: rest /\ forward_outerSize l x0 = Ok t
          /\ Forall (fun x => exists srcMat,
                       reshape x (to_int t) = Ok srcMat
                       /\ (to_int t <> 0 -> rows srcMat = to_int t)) input).
Proof.
  split.
  - intros inputs req outputs0 b outputs E. unfold getMemoryShapes in E.
    destruct inputs as [|in0 rest]; [cbn in E; discriminate|].
    change (0 <? Z.of_nat (length (in0 :: rest))) with true in E.
    cbn [CV_Assert bind] in E.
    destruct ((1 <=? Z.of_nat (length (blobs l)))
              && (Z.of_nat (length (blobs l)) <=? 2)); [|discriminate].
    cbn [CV_Assert bind] in E.
    destruct (blobs l) as [|b0 brest] eqn:Eb; [discriminate|].
    destruct (dims b0 =? 2); [|discriminate]. cbn [CV_Assert bind] in E.
    destruct (clamp (axis l) (Z.of_nat (length in0))) as [cAxis| | |] eqn:Ec;
      try discriminate.
    cbn [bind] in E.
    destruct (shape_total in0 0 cAxis) as [outerSize| | |] eqn:Es;
      try discriminate.
    cbn [bind] in E. unfold shape in E.
    assert (Eouter : shapes_outerSize l in0 = Ok outerSize)
      by (unfold shapes_outerSize; rewrite Ec; exact Es).
    assert (Eo : outputs = resize outputs0 (length (in0 :: rest))
                                  [outerSize; nth 0 (size b0) 0]).
    { destruct (bias l).
      - destruct brest as [|b1 brest']; [discriminate|].
        destruct (to_size_t (nth 0 (size b0) 0) =? total b1); [|discriminate].
        cbn [CV_Assert bind] in E. injection E as _ <-. reflexivity.
      - injection E as _ <-. reflexivity. }
    exists in0, rest, b0, brest, outerSize.
    split; [reflexivity|]. split; [reflexivity|]. split; [exact Eouter|].
    split; [exact Eo|]. rewrite Eo.
    split; [|split].
    + unfold resize. rewrite length_app, length_firstn, repeat_length. lia.
    + intros i Hi. apply nth_error_resize. exact Hi.
    + intros i Hi Hn. unfold resize.
      rewrite nth_error_app1 by (rewrite length_firstn; lia).
      rewrite nth_error_firstn.
      destruct (Nat.ltb_spec i (length (in0 :: rest))); [reflexivity | lia].
  - intros simd128 nthreads split input output outs E. unfold forward in E.
    destruct input as [|x0 rest]; [discriminate|].
    fold (forward_outerSize l x0) in E.
    destruct (forward_outerSize l x0) as [t| | |] eqn:Ep; try discriminate.
    exists x0, rest, t. split; [reflexivity|]. split; [exact Ep|].
    eapply forward_loop_reshapes. exact E.
Qed.

Lemma outerSize_from_first_input_witness :
  let w := tensor [3; 8] junk in
  let l := mkLayer [w] false 1 w (zeros 3 CV_32F junk) in
  getMemoryShapes l [[5; 8]; [4; 7; 9]] 1 [] = Ok (false, [[5; 3]; [5; 3]])
  /\ exists in0 rest b0 brest outerSize,
       [[5; 8]; [4; 7; 9]] = in0 :: rest /\ blobs l = b0 :: brest
       /\ shapes_outerSize l in0 = Ok outerSize
       /\ [[5; 3]; [5; 3]] = resize [] (length [[5; 8]; [4; 7; 9]])
                                    [outerSize; nth 0 (size b0) 0]
       /\ length [[5; 3]; [5; 3]] = length [[5; 8]; [4; 7; 9]]
       /\ (forall i, (length (@nil MatShape) <= i < length [[5; 8]; [4; 7; 9]])%nat ->
             nth_error [[5; 3]; [5; 3]] i = Some [outerSize; nth 0 (size b0) 0])
       /\ (forall i, (i < length (@nil MatShape))%nat ->
             (i < length [[5; 8]; [4; 7; 9]])%nat ->
             nth_error [[5; 3]; [5; 3]] i = nth_error [] i).
Proof.
  intros w l. split; [reflexivity|].
  exact (proj1 (outerSize_from_first_input l)
               [[5; 8]; [4; 7; 9]] 1 [] false [[5; 3]; [5; 3]] eq_refl).
Defined.

(** C10 as stated fails: an output shape that the caller's list already
    holds is kept as it is, and with a first input of no rows the other
    inputs keep their own row count. *)
Lemma getMemoryShapes_keeps_entries :
  let w := tensor [3; 8] junk in
  let l := mkLayer [w] false 1 w (zeros 3 CV_32F junk) in
  let x0 := tensor [0; 8] junk in
  let x1 := tensor [5; 8] junk in
  FullyConnectedLayerImpl_new (mkParams 3 false 1) [w] junk = Ok l
  /\ shapes_outerSize l [1; 8] = Ok 1
  /\ getMemoryShapes l [[1; 8]] 1 [[7]] = Ok (false, [[7]])
  /\ [7] <> shape 1 3
  /\ forward_outerSize l x0 = Ok 0
  /\ fst (forward false l 1 (unit_split 1) [x0; x1]
                  [tensor [0; 3] junk; tensor [5; 3] junk]) = Ok tt
  /\ reshape x1 0 = Ok x1 /\ rows x1 <> 0.
Proof.
  intros w l x0 x1.
  split; [reflexivity|]. split; [reflexivity|]. split; [reflexivity|].
  split; [discriminate|]. split; [reflexivity|].
  split; [vm_compute; reflexivity|].
  split; [reflexivity | discriminate].
Qed.

(** ** Batches whose checks pass *)

(** When the checks of every round pass and the stripes fit, every round
    completes: it fills the cells of its output matrix and leaves the other
    addresses of that matrix's buffer as they were. *)
Lemma forward_loop_filled simd128 l n split outerSize :
  layer_ok l -> 1 <= n <= INT_MAX -> is_split 0 n split = true ->
  INT_MIN <= outerSize <= INT_MAX ->
  forall input output,
    Forall2 (fun x y => size_ok x = true /\ size_ok y = true
                        /\ fits (total y) n split = true
                        /\ checks_pass l n outerSize x y) input output ->
    exists outs,
      forward_loop simd128 l n split outerSize input output = (Ok tt, outs)
      /\ forall i x y srcMat dstMat,
           nth_error input i = Some x -> nth_error output i = Some y ->
           reshape x outerSize = Ok srcMat -> reshape y outerSize = Ok dstMat ->
           exists d,
             nth_error outs i = Some (mkMat (size y) (type y) (step1 y) d)
             /\ rows srcMat * rows (weightsMat l) = total y
             /\ filled (mkFullConnected srcMat (weightsMat l) (biasMat l) dstMat n)
                       0 (total y) (data y) d.
Proof.
  intros Hl Hn Hs Ho input output H.
  induction H as [|x y input output (Hx & Hy & Hf & s & d & fc & Es & Ed & Efc) _ IH].
  - exists []. split; [reflexivity|]. intros [|i]; discriminate.
  - destruct (forward_one_filled simd128 l n split Hl Hn Hs outerSize x y s d fc
                                 Hx Hy Ho Es Ed Efc Hf) as (Et & d' & E & F).
    destruct (FullConnected_new_inv _ _ _ _ _ _ Efc) as (-> & _).
    destruct IH as (outs & E' & Hcells).
    exists (mkMat (size y) (type y) (step1 y) d' :: outs). split.
    + cbn [forward_loop]. rewrite E, E'. reflexivity.
    + intros [|i] x' y' srcMat dstMat Hx' Hy' Esrc Edst.
      * cbn in Hx', Hy'. injection Hx' as <-. injection Hy' as <-.
        rewrite Es in Esrc. injection Esrc as <-.
        rewrite Ed in Edst. injection Edst as <-.
        exists d'. split; [reflexivity|]. split; assumption.
      * cbn [nth_error] in *. eapply Hcells; eassumption.
Qed.

(** The bias row of a constructed layer holds the bias of the blobs. *)
Lemma new_bias params b0 rest heap l j :
  size_ok b0 = true -> dense b0 = true ->
  Forall (fun b => size_ok b = true /\ dense b = true) rest ->
  FullyConnectedLayerImpl_new params (b0 :: rest) heap = Ok l ->
  0 <= j < num_output params ->
  data (biasMat l) j = raw_bias params rest j.
Proof.
  intros Hok Hd Hrest Hnew Hj.
  destruct (new_spec params b0 rest heap l Hok Hd Hnew)
    as (c & s & _ & _ & _ & _ & _ & _ & _ & _ & _ & _ & _ & _ & _ & _ & _ & _
        & _ & _ & Hnb & Hb).
  destruct (biasMat_size params b0 rest heap l Hok Hd Hrest Hnew) as (_ & _ & Hbd).
  unfold raw_bias. destruct (bias_term params) eqn:Eb.
  - destruct (Hb eq_refl) as (b1 & -> & _).
    destruct (Hbd b1 eq_refl eq_refl) as [_ ->]. reflexivity.
  - rewrite (Hnb eq_refl). cbn [zeros data].
    replace (0 <=? j) with true by (symmetry; apply Z.leb_le; lia).
    replace (j <? num_output params) with true by (symmetry; apply Z.ltb_lt; lia).
    reflexivity.
Qed.

(** X1: for a layer made by the constructor, when the batch row count can
    be computed, the checks of every round pass and no scheduled range spans
    more than [INT_MAX] cells, [forward] returns normally; under exact
    arithmetic the cell in row [r], column [j] of every output matrix then
    holds the bias of [j] plus the dot product of row [r] of the input with
    row [j] of the weight blob as it was given to the constructor, and
    every address of the output's buffer that is not such a cell (the gap
    between rows of a matrix with a larger row stride, or what lies around
    it) holds what it held before.  With the 4-wide kernel the row length
    is taken to be a multiple of 4, so that no load goes past the end of an
    input row. *)
Theorem forward_computes_from_raw_blobs
        simd128 params b0 rest heap l n split x0 input output t :
  FullyConnectedLayerImpl_new params (b0 :: rest) heap = Ok l ->
  Forall (fun b => size_ok b = true /\ dense b = true) (b0 :: rest) ->
  (simd128 = true -> (total b0 / num_output params) mod 4 = 0) ->
  1 <= n <= INT_MAX -> is_split 0 n split = true ->
  forward_outerSize l x0 = Ok t ->
  Forall2 (fun x y => size_ok x = true /\ size_ok y = true
                      /\ fits (total y) n split = true
                      /\ checks_pass l n (to_int t) x y) (x0 :: input) output ->
  let innerSize := total b0 / num_output params in
  exists outs,
    forward simd128 l n split (x0 :: input) output = (Ok tt, outs)
    /\ forall i x y srcMat dstMat,
         nth_error (x0 :: input) i = Some x -> nth_error output i = Some y ->
         reshape x (to_int t) = Ok srcMat -> reshape y (to_int t) = Ok dstMat ->
         exists y',
           nth_error outs i = Some y' /\ size y' = size y
           /\ (forall r j, 0 <= r < rows srcMat -> 0 <= j < num_output params ->
                 data y' (row_ofs dstMat r + j)
                 = (raw_bias params rest j
                    + dot (Z.to_nat innerSize) (row srcMat r)
                          (shift (data b0) (j * innerSize)))%Qc)
           /\ (forall a,
                 (forall r j, 0 <= r < rows srcMat -> 0 <= j < num_output params ->
                              row_ofs dstMat r + j <> a) ->
                 data y' a = data y a).
Proof.
  intros Hnew Hall _ Hn Hs Ep H innerSize.
  inversion Hall as [|? ? [Hok Hd] Hrest]; subst.
  pose proof (new_layer_ok params b0 rest heap l Hok Hd Hnew) as Hl.
  destruct (new_spec params b0 rest heap l Hok Hd Hnew)
    as (c & s & Hn0 & Hc & Hnc & _ & _ & _ & Hsz & _ & _ & _ & _ & _ & Hlow & _).
  assert (Ec : innerSize = c).
  { unfold innerSize. rewrite <- Hnc.
    rewrite Z.mul_comm. apply Z.div_mul. lia. }
  assert (Er : rows (weightsMat l) = num_output params)
    by (unfold rows; rewrite Hsz; reflexivity).
  assert (Ecw : cols (weightsMat l) = c)
    by (unfold cols; rewrite Hsz; reflexivity).
  destruct (forward_loop_filled simd128 l n split (to_int t) Hl Hn Hs
                                (to_int_range t) (x0 :: input) output H)
    as (outs & E & Hcells).
  exists outs. split.
  - unfold forward. fold (forward_outerSize l x0). rewrite Ep. exact E.
  - intros i x y srcMat dstMat Hx Hy Esrc Edst.
    destruct (Hcells i x y srcMat dstMat Hx Hy Esrc Edst) as (d & Hd' & Et & F1 & F2).
    assert (Hchk : checks_pass l n (to_int t) x y).
    { clear -H Hx Hy. revert i Hx Hy.
      induction H as [|a b la lb (_ & _ & _ & Hc) _ IH]; intros [|i] Hx Hy;
        try discriminate.
      - cbn in Hx, Hy. injection Hx as <-. injection Hy as <-. exact Hc.
      - cbn in Hx, Hy. eapply IH; eassumption. }
    destruct Hchk as (s' & d'' & fc & Es' & Ed' & Efc).
    rewrite Esrc in Es'. injection Es' as <-.
    rewrite Edst in Ed'. injection Ed' as <-.
    destruct (FullConnected_new_inv _ _ _ _ _ _ Efc) as (_ & _ & Hcs & _).
    exists (mkMat (size y) (type y) (step1 y) d).
    split; [exact Hd'|]. split; [reflexivity|]. cbn [data].
    assert (Et' : rows srcMat * num_output params = total y)
      by (rewrite <- Er; exact Et).
    split.
    + intros r j Hr Hj.
      assert (Hj' : 0 <= j < rows (weightsMat l)) by (rewrite Er; exact Hj).
      destruct (cell_of_offset
                  (mkFullConnected srcMat (weightsMat l) (biasMat l) dstMat n)
                  r j ltac:(lia) Hj') as [Ea Ev].
      cbn [srcMat_ weights_ dstMat_ biasMat_] in Ea, Ev.
      rewrite <- Ea. rewrite F1 by (rewrite Er; nia).
      rewrite Ev, Hcs, Ecw, Ec.
      rewrite (new_bias params b0 rest heap l j Hok Hd Hrest Hnew Hj).
      f_equal. apply dot_ext. intros k Hk.
      change (row (weightsMat l) j k) with (at_ (weightsMat l) j k).
      rewrite Hlow by lia. reflexivity.
    + intros a Ha. apply F2. intros ofs Hofs.
      unfold cell_addr. cbn [weights_ dstMat_]. rewrite Er.
      assert (Hnp : 0 < num_output params) by lia.
      pose proof (Z.div_mod ofs (num_output params) ltac:(lia)).
      pose proof (Z.mod_pos_bound ofs (num_output params) Hnp).
      assert (0 <= ofs / num_output params) by (apply Z.div_pos; lia).
      assert (ofs / num_output params < rows srcMat)
        by (apply Z.div_lt_upper_bound; nia).
      apply Ha; lia.
Qed.

(** A batch of two four-dimensional inputs of shape 2 x 2 x 2 x 2 for a
    layer of five outputs: with two stripes each run has five cells, four
    of them computed by the 4-wide block. *)
Lemma forward_computes_from_raw_blobs_witness :
  let b0 := tensor [5; 8] junk in
  let b1 := tensor [5] (of_list [10; 20; 30; 40; 50] junk) in
  let l := mkLayer [b0; tensor [1; 5] (of_list [10; 20; 30; 40; 50] junk)] true 1 b0
                   (mkMat [1; 5] CV_32F 5 (of_list [10; 20; 30; 40; 50] junk)) in
  let x := tensor [2; 2; 2; 2] junk in
  let y := tensor [2; 5] zero_heap in
  FullyConnectedLayerImpl_new (mkParams 5 true 1) [b0; b1] junk = Ok l
  /\ exists outs,
       forward true l 2 (unit_split 2) [x; x] [y; y] = (Ok tt, outs)
       /\ forall i x' y' srcMat dstMat,
            nth_error [x; x] i = Some x' -> nth_error [y; y] i = Some y' ->
            reshape x' (to_int 2) = Ok srcMat -> reshape y' (to_int 2) = Ok dstMat ->
            exists y'',
              nth_error outs i = Some y'' /\ size y'' = size y'
              /\ (forall r j, 0 <= r < rows srcMat -> 0 <= j < 5 ->
                    data y'' (row_ofs dstMat r + j)
                    = (raw_bias (mkParams 5 true 1) [b1] j
                       + dot (Z.to_nat (total b0 / 5)) (row srcMat r)
                             (shift (data b0) (j * (total b0 / 5))))%Qc)
              /\ (forall a,
                    (forall r j, 0 <= r < rows srcMat -> 0 <= j < 5 ->
                                 row_ofs dstMat r + j <> a) ->
                    data y'' a = data y' a).
Proof.
  intros b0 b1 l x y.
  assert (Hnew : FullyConnectedLayerImpl_new (mkParams 5 true 1) [b0; b1] junk = Ok l)
    by reflexivity.
  split; [exact Hnew|].
  assert (Hc : checks_pass l 2 (to_int 2) x y).
  { exists (mkMat [2; 8] CV_32F 8 junk), y,
      (mkFullConnected (mkMat [2; 8] CV_32F 8 junk) (weightsMat l) (biasMat l) y 2).
    split; [reflexivity|]. split; reflexivity. }
  apply (forward_computes_from_raw_blobs true (mkParams 5 true 1) b0 [b1] junk l 2
           (unit_split 2) x [x] [y; y] 2 Hnew).
  - repeat constructor.
  - intros _. reflexivity.
  - unfold INT_MAX. lia.
  - reflexivity.
  - reflexivity.
  - repeat constructor; assumption.
Defined.

(** ** Calls of the body on sub-ranges *)

(** What the assertion of the constructor and the headers give the body. *)
Lemma FullConnected_new_bounds srcMat weights biasMat dstMat n fc :
  FullConnected_new srcMat weights biasMat dstMat n = Ok fc ->
  size_ok srcMat = true -> size_ok dstMat = true ->
  fc = mkFullConnected srcMat weights biasMat dstMat n
  /\ 0 <= rows srcMat <= INT_MAX /\ 0 <= rows weights <= INT_MAX
  /\ cols srcMat = cols weights
  /\ (0 < rows weights -> rows weights <= step1 dstMat).
Proof.
  intros Hnew Hs Hd.
  destruct (FullConnected_new_inv _ _ _ _ _ _ Hnew) as (-> & Hdims & Hc & Hr & Hc').
  destruct (size_ok_inv _ Hs) as (Hfs & _ & _).
  destruct (size_ok_inv _ Hd) as (Hfd & _ & Hstep).
  assert (Hrs : 0 <= rows srcMat <= INT_MAX).
  { unfold dims, rows in *.
    destruct (size srcMat) as [|r [|c [|? ?]]]; cbn in Hdims; try lia.
    apply Forall_inv in Hfs. exact Hfs. }
  assert (Hdd : dims dstMat = 2 \/ size dstMat = []).
  { unfold dims, rows in *.
    destruct (size dstMat) as [|r [|c [|? ?]]]; cbn; try lia; auto. }
  split; [reflexivity|]. split; [exact Hrs|].
  rewrite <- Hc'. split; [|split; [exact Hc|]].
  - destruct Hdd as [D|E].
    + unfold dims, cols in *.
      destruct (size dstMat) as [|r [|c [|? ?]]]; cbn in D; try lia.
      apply Forall_inv_tail, Forall_inv in Hfd. exact Hfd.
    + unfold cols. rewrite E. unfold INT_MAX. lia.
  - intros Hpos. destruct Hdd as [D|E].
    + apply Hstep. exact D.
    + unfold cols in Hpos. rewrite E in Hpos. lia.
Qed.

Lemma call_filled simd128 srcMat weights biasMat dstMat n fc a b dst :
  FullConnected_new srcMat weights biasMat dstMat n = Ok fc ->
  size_ok srcMat = true -> size_ok dstMat = true ->
  (simd128 = true -> pad_zero weights) ->
  1 <= n <= INT_MAX -> 0 <= a < b -> b <= n ->
  range_fits (rows srcMat * rows weights) n (mkRange a b) = true ->
  let total_ := rows srcMat * rows weights in
  0 <= stripeStart_of total_ n (mkRange a b)
  /\ stripeStart_of total_ n (mkRange a b) = a * stripeSize_of total_ n
  /\ stripeEnd_of total_ n (mkRange a b) = Z.min (b * stripeSize_of total_ n) total_
  /\ 0 <= stripeSize_of total_ n
  /\ exists d,
      FullConnected_call simd128 fc (mkRange a b) dst = Ok d
      /\ filled fc (stripeStart_of total_ n (mkRange a b))
                (stripeEnd_of total_ n (mkRange a b)) dst d.
Proof.
  intros Hnew Hs Hd Hpad Hn Ha Hb Hfit total_.
  destruct (FullConnected_new_bounds _ _ _ _ _ _ Hnew Hs Hd)
    as (-> & Hrs & Hrw & Hc & Hst).
  assert (Ht : 0 <= total_ < 2 ^ 62) by (unfold total_, INT_MAX in *; nia).
  destruct (range_bounds total_ n a b Ht Hn Ha Hb) as (Es & Ee & _ & HS).
  split; [rewrite Es; nia|]. split; [exact Es|]. split; [exact Ee|].
  split; [exact HS|].
  destruct (FullConnected_call_filled simd128
              (mkFullConnected srcMat weights biasMat dstMat n)
              Hrs Hrw Hc Hpad Hst Hn a b dst Ha Hb Hfit) as (d & E & F).
  exists d. split; [exact E|].
  cbn [srcMat_ weights_ nstripes_] in F. fold total_ in F.
  rewrite Es, Ee. eapply filled_range; [|exact F].
  intros o. lia.
Qed.

(** The bias row of a constructed layer is not empty. *)
Lemma new_bias_not_empty params b0 rest heap l :
  FullyConnectedLayerImpl_new params (b0 :: rest) heap = Ok l ->
  Forall (fun b => size_ok b = true /\ dense b = true) (b0 :: rest) ->
  empty (biasMat l) = false.
Proof.
  intros Hnew Hall.
  inversion Hall as [|? ? [Hok Hd] Hrest]; subst.
  destruct (new_spec params b0 rest heap l Hok Hd Hnew) as (c & s & Hn & _).
  destruct (biasMat_size params b0 rest heap l Hok Hd Hrest Hnew) as (Hbs & _).
  unfold empty, total. rewrite Hbs. cbn [prod fold_right].
  apply Z.eqb_neq. lia.
Qed.

(** X2: with the weights and the bias of a layer made by the constructor
    (so that the bias is not empty), one call of [operator()] on a
    sub-range that spans at most [INT_MAX] cells returns normally; under
    exact arithmetic it leaves in every cell of the offsets between
    [stripeStart] and [stripeEnd] the bias plus the dot product, and it
    leaves every other address of the destination as it was: a worker
    writes no cell of another worker's stripe.  With the 4-wide kernel the
    row length is taken to be a multiple of 4, so that no load goes past
    the end of an input row. *)
Theorem call_writes_own_cells
        simd128 params b0 rest heap l srcMat dstMat n fc a b dst :
  FullyConnectedLayerImpl_new params (b0 :: rest) heap = Ok l ->
  Forall (fun m => size_ok m = true /\ dense m = true) (b0 :: rest) ->
  FullConnected_new srcMat (weightsMat l) (biasMat l) dstMat n = Ok fc ->
  size_ok srcMat = true -> size_ok dstMat = true ->
  (simd128 = true -> cols srcMat mod 4 = 0) ->
  1 <= n <= INT_MAX -> 0 <= a < b -> b <= n ->
  range_fits (rows srcMat * rows (weightsMat l)) n (mkRange a b) = true ->
  let stripeStart :=
    stripeStart_of (rows srcMat * rows (weightsMat l)) n (mkRange a b) in
  let stripeEnd :=
    stripeEnd_of (rows srcMat * rows (weightsMat l)) n (mkRange a b) in
  empty (biasMat l) = false
  /\ exists d,
      FullConnected_call simd128 fc (mkRange a b) dst = Ok d
      /\ (forall ofs, stripeStart <= ofs < stripeEnd ->
            d (cell_addr fc ofs) = cell_value fc ofs)
      /\ (forall addr,
            (forall ofs, stripeStart <= ofs < stripeEnd -> cell_addr fc ofs <> addr) ->
            d addr = dst addr).
Proof.
  intros Hnew Hall Hfc Hs Hd _ Hn Ha Hb Hfit stripeStart stripeEnd.
  split; [exact (new_bias_not_empty _ _ _ _ _ Hnew Hall)|].
  assert (Hpad : simd128 = true -> pad_zero (weightsMat l)).
  { intros _. inversion Hall as [|? ? [Hok Hdn] _]; subst.
    apply (new_layer_ok params b0 rest heap l Hok Hdn Hnew). }
  destruct (call_filled simd128 _ _ _ _ _ _ a b dst Hfc Hs Hd Hpad Hn Ha Hb Hfit)
    as (_ & _ & _ & _ & d & E & F1 & F2).
  exists d. split; [exact E|]. split; [exact F1 | exact F2].
Qed.

(** The second of two stripes of an output of 2 x 5 cells: a run of five
    cells, four of them computed by the 4-wide block. *)
Lemma call_writes_own_cells_witness :
  let w := tensor [5; 8] junk in
  let l := mkLayer [w] false 1 w (zeros 5 CV_32F junk) in
  let src := tensor [2; 8] junk in
  let dst := tensor [2; 5] zero_heap in
  let fc := mkFullConnected src (weightsMat l) (biasMat l) dst 2 in
  FullyConnectedLayerImpl_new (mkParams 5 false 1) [w] junk = Ok l
  /\ empty (biasMat l) = false
  /\ exists d,
       FullConnected_call true fc (mkRange 1 2) junk = Ok d
       /\ (forall ofs, 5 <= ofs < 10 -> d (cell_addr fc ofs) = cell_value fc ofs)
       /\ (forall addr,
             (forall ofs, 5 <= ofs < 10 -> cell_addr fc ofs <> addr) ->
             d addr = junk addr).
Proof.
  intros w l src dst fc.
  assert (Hnew : FullyConnectedLayerImpl_new (mkParams 5 false 1) [w] junk = Ok l)
    by reflexivity.
  split; [exact Hnew|].
  apply (call_writes_own_cells true (mkParams 5 false 1) w [] junk l src dst 2 fc
           1 2 junk Hnew).
  - repeat constructor.
  - reflexivity.
  - reflexivity.
  - reflexivity.
  - intros _. reflexivity.
  - unfold INT_MAX. lia.
  - lia.
  - lia.
  - reflexivity.
Defined.

(** Whether an address is that of a cell of a range of offsets. *)
Lemma addr_in_range fc (k : nat) :
  forall lo a,
    (exists o, lo <= o < lo + Z.of_nat k /\ cell_addr fc o = a)
    \/ (forall o, lo <= o < lo + Z.of_nat k -> cell_addr fc o <> a).
Proof.
  induction k as [|k IH]; intros lo a.
  - right. intros o Ho. lia.
  - destruct (Z.eq_dec (cell_addr fc lo) a) as [E|E].
    + left. exists lo. split; [lia | exact E].
    + destruct (IH (lo + 1) a) as [(o & Ho & Eo)|H].
      * left. exists o. split; [lia | exact Eo].
      * right. intros o Ho.
        destruct (Z.eq_dec o lo) as [->|N]; [exact E|].
        apply H. lia.
Qed.

Lemma addr_in_range' fc lo hi a :
  (exists o, lo <= o < hi /\ cell_addr fc o = a)
  \/ (forall o, lo <= o < hi -> cell_addr fc o <> a).
Proof.
  destruct (addr_in_range fc (Z.to_nat (hi - lo)) lo a) as [(o & Ho & E)|H].
  - left. exists o. split; [lia | exact E].
  - right. intros o Ho. apply H. lia.
Qed.

(** X3: with the weights and the bias of a layer made by the constructor
    (so that the bias is not empty), the calls of [operator()] on two
    disjoint sub-ranges, each of at most [INT_MAX] cells, can run in either
    order: both orders return normally and leave the same value at every
    address of the destination.  Every cell is computed by the same call in
    both orders.  With the 4-wide kernel the row length is taken to be a
    multiple of 4, so that no load goes past the end of an input row. *)
Theorem disjoint_calls_commute
        simd128 params b0 rest heap l srcMat dstMat n fc a1 b1 a2 b2 dst :
  FullyConnectedLayerImpl_new params (b0 :: rest) heap = Ok l ->
  Forall (fun m => size_ok m = true /\ dense m = true) (b0 :: rest) ->
  FullConnected_new srcMat (weightsMat l) (biasMat l) dstMat n = Ok fc ->
  size_ok srcMat = true -> size_ok dstMat = true ->
  (simd128 = true -> cols srcMat mod 4 = 0) ->
  1 <= n <= INT_MAX ->
  0 <= a1 < b1 -> b1 <= a2 -> a2 < b2 -> b2 <= n ->
  range_fits (rows srcMat * rows (weightsMat l)) n (mkRange a1 b1) = true ->
  range_fits (rows srcMat * rows (weightsMat l)) n (mkRange a2 b2) = true ->
  empty (biasMat l) = false
  /\ exists d12 d21,
      (d <- FullConnected_call simd128 fc (mkRange a1 b1) dst ;;
       FullConnected_call simd128 fc (mkRange a2 b2) d) = Ok d12
      /\ (d <- FullConnected_call simd128 fc (mkRange a2 b2) dst ;;
          FullConnected_call simd128 fc (mkRange a1 b1) d) = Ok d21
      /\ same_cells d12 d21.
Proof.
  intros Hlay Hall Hnew Hs Hd _ Hn Ha1 Hb1 Ha2 Hb2 Hf1 Hf2.
  split; [exact (new_bias_not_empty _ _ _ _ _ Hlay Hall)|].
  assert (Hpad : simd128 = true -> pad_zero (weightsMat l)).
  { intros _. inversion Hall as [|? ? [Hok Hdn] _]; subst.
    apply (new_layer_ok params b0 rest heap l Hok Hdn Hlay). }
  set (weights := weightsMat l) in *. set (biasMat := biasMat l) in *.
  destruct (FullConnected_new_bounds _ _ _ _ _ _ Hnew Hs Hd)
    as (Efc & _ & Hrw & _ & Hst).
  assert (Hinj : forall o1 o2, 0 <= o1 -> 0 <= o2 ->
                   cell_addr fc o1 = cell_addr fc o2 -> o1 = o2).
  { subst fc. apply cell_addr_inj; assumption. }
  destruct (call_filled simd128 _ _ _ _ _ _ a1 b1 dst Hnew Hs Hd Hpad Hn
                        ltac:(lia) ltac:(lia) Hf1)
    as (P1 & S1 & E1 & HS & d1 & C1 & F1a & F1b).
  destruct (call_filled simd128 _ _ _ _ _ _ a2 b2 d1 Hnew Hs Hd Hpad Hn
                        ltac:(lia) ltac:(lia) Hf2)
    as (P2 & S2 & E2 & _ & d12 & C12 & F12a & F12b).
  destruct (call_filled simd128 _ _ _ _ _ _ a2 b2 dst Hnew Hs Hd Hpad Hn
                        ltac:(lia) ltac:(lia) Hf2)
    as (_ & _ & _ & _ & d2 & C2 & F2a & F2b).
  destruct (call_filled simd128 _ _ _ _ _ _ a1 b1 d2 Hnew Hs Hd Hpad Hn
                        ltac:(lia) ltac:(lia) Hf1)
    as (_ & _ & _ & _ & d21 & C21 & F21a & F21b).
  set (total_ := rows srcMat * rows weights) in *.
  set (s1 := stripeStart_of total_ n (mkRange a1 b1)) in *.
  set (e1 := stripeEnd_of total_ n (mkRange a1 b1)) in *.
  set (s2 := stripeStart_of total_ n (mkRange a2 b2)) in *.
  set (e2 := stripeEnd_of total_ n (mkRange a2 b2)) in *.
  assert (Hord : e1 <= s2) by nia.
  exists d12, d21. rewrite C1, C2. cbn [bind].
  split; [exact C12|]. split; [exact C21|].
  intros x.
  destruct (addr_in_range' fc s1 e1 x) as [(o & Ho & Eo)|N1].
  - rewrite F12b.
    + rewrite <- Eo. rewrite F1a, F21a by exact Ho. reflexivity.
    + intros o' Ho' E'. rewrite <- Eo in E'. apply Hinj in E'; lia.
  - destruct (addr_in_range' fc s2 e2 x) as [(o & Ho & Eo)|N2].
    + rewrite (F21b x N1). rewrite <- Eo.
      rewrite F12a, F2a by exact Ho. reflexivity.
    + rewrite (F12b x N2), (F1b x N1), (F21b x N1), (F2b x N2). reflexivity.
Qed.

Lemma disjoint_calls_commute_witness :
  let w := tensor [5; 8] junk in
  let src := tensor [2; 8] junk in
  let dst := tensor [2; 5] zero_heap in
  exists l,
    FullyConnectedLayerImpl_new (mkParams 5 false 1) [w] junk = Ok l
    /\ step1 (weightsMat l) = 8
    /\ empty (biasMat l) = false
    /\ exists d12 d21,
         (d <- FullConnected_call true
                 (mkFullConnected src (weightsMat l) (biasMat l) dst 3)
                 (mkRange 0 1) junk ;;
          FullConnected_call true
            (mkFullConnected src (weightsMat l) (biasMat l) dst 3) (mkRange 1 3) d)
         = Ok d12
         /\ (d <- FullConnected_call true
                    (mkFullConnected src (weightsMat l) (biasMat l) dst 3)
                    (mkRange 1 3) junk ;;
             FullConnected_call true
               (mkFullConnected src (weightsMat l) (biasMat l) dst 3)
               (mkRange 0 1) d)
            = Ok d21
         /\ same_cells d12 d21.
Proof.
  intros w src dst. eexists. split; [reflexivity|]. split; [reflexivity|].
  refine (disjoint_calls_commute true (mkParams 5 false 1) w [] junk _ src dst 3 _
            0 1 1 3 junk eq_refl _ eq_refl eq_refl eq_refl _ _ _ _ _ _
            eq_refl eq_refl).
  - repeat constructor.
  - intros _. reflexivity.
  - unfold INT_MAX. lia.
  - lia.
  - lia.
  - lia.
  - lia.
Defined.

(** ** Constructed layers: blobs, shapes and cost *)

(** The blobs the constructor leaves in the layer. *)
Lemma new_blobs params b0 rest heap l :
  FullyConnectedLayerImpl_new params (b0 :: rest) heap = Ok l ->
  bias l = bias_term params
  /\ blobs l = weightsMat l :: (if bias l then [biasMat l] else rest).
Proof.
  intros Hnew. unfold FullyConnectedLayerImpl_new in Hnew.
  apply bind_Ok in Hnew. destruct Hnew as ([] & _ & Hnew).
  apply bind_Ok in Hnew. destruct Hnew as (innerSize & _ & Hnew).
  apply bind_Ok in Hnew. destruct Hnew as ([] & _ & Hnew).
  apply bind_Ok in Hnew. destruct Hnew as ([] & _ & Hnew).
  apply bind_Ok in Hnew. destruct Hnew as (w0 & _ & Hnew).
  apply bind_Ok in Hnew. destruct Hnew as (wm & _ & Hnew).
  destruct rest as [|b1 rest']; destruct (bias_term params) eqn:Eb.
  - discriminate.
  - injection Hnew as <-. split; reflexivity.
  - apply bind_Ok in Hnew. destruct Hnew as (bm & _ & Hnew).
    injection Hnew as <-. split; reflexivity.
  - injection Hnew as <-. split; reflexivity.
Qed.

(** X4: for a layer made by the constructor, [getMemoryShapes] fails no
    assertion on the blobs: given at least one input shape it ends as the
    computation of the batch row count from the first shape ends, and when
    that succeeds it returns [false] and the output list resized to the
    number of inputs with [outerSize x num_output] as the filling shape. *)
Theorem getMemoryShapes_of_constructed params b0 rest heap l in0 ins req outputs0 :
  FullyConnectedLayerImpl_new params (b0 :: rest) heap = Ok l ->
  Forall (fun b => size_ok b = true /\ dense b = true) (b0 :: rest) ->
  getMemoryShapes l (in0 :: ins) req outputs0
  = (outerSize <- shapes_outerSize l in0 ;;
     Ok (false, resize outputs0 (S (length ins))
                       (shape outerSize (num_output params)))).
Proof.
  intros Hnew Hall.
  inversion Hall as [|? ? [Hok Hd] Hrest]; subst.
  destruct (new_spec params b0 rest heap l Hok Hd Hnew)
    as (c & s & Hn & _ & _ & _ & _ & Hlen & Hsz & _).
  destruct (biasMat_size params b0 rest heap l Hok Hd Hrest Hnew) as (Hbs & _).
  destruct (new_blobs params b0 rest heap l Hnew) as (Eb & Ebl).
  assert (Hl2 : (length (blobs l) <= 2)%nat).
  { rewrite Ebl. destruct (bias l); cbn [length]; lia. }
  unfold getMemoryShapes, shapes_outerSize.
  change (0 <? Z.of_nat (length (in0 :: ins))) with true.
  cbn [CV_Assert bind].
  rewrite CV_Assert_true
    by (rewrite Ebl in *; cbn [length] in *; apply andb_true_iff; split;
        apply Z.leb_le; lia).
  cbn [bind]. rewrite Ebl.
  assert (Ed : dims (weightsMat l) = 2) by (unfold dims; rewrite Hsz; reflexivity).
  rewrite Ed. change (2 =? 2) with true. cbn [CV_Assert bind].
  rewrite Hsz. cbn [nth].
  destruct (clamp (axis l) (Z.of_nat (length in0))) as [cAxis| | |];
    cbn [bind]; try reflexivity.
  destruct (shape_total in0 0 cAxis) as [outerSize| | |]; cbn [bind];
    try reflexivity.
  destruct (bias l); [|reflexivity].
  assert (Et : total (biasMat l) = num_output params).
  { unfold total. rewrite Hbs. cbn [prod fold_right]. lia. }
  rewrite Et, to_size_t_small by (unfold INT_MAX in *; lia).
  rewrite Z.eqb_refl. reflexivity.
Qed.

Lemma getMemoryShapes_of_constructed_witness :
  let b0 := tensor [3; 10] junk in
  let b1 := tensor [3] junk in
  exists l,
    FullyConnectedLayerImpl_new (mkParams 3 true 1) [b0; b1] junk = Ok l
    /\ getMemoryShapes l [[4; 2; 5]; [7]] 1 [] = Ok (false, [[4; 3]; [4; 3]]).
Proof.
  intros b0 b1. eexists. split; [reflexivity|].
  refine (eq_trans (getMemoryShapes_of_constructed (mkParams 3 true 1) b0 [b1]
                      junk _ [4; 2; 5] [[7]] 1 [] eq_refl _) _).
  - repeat constructor.
  - reflexivity.
Defined.

(** The running product of the dimensions stays below their product when
    no dimension is zero. *)
Lemma int_prod_exact l :
  Forall (fun d => 1 <= d) l ->
  forall e, 1 <= e -> e * prod l <= INT_MAX -> int_prod l e = Ok (e * prod l).
Proof.
  induction 1 as [|d l Hd Hl IH]; intros e He Hm.
  - cbn. f_equal. lia.
  - cbn [int_prod prod fold_right] in *. fold (prod l) in *.
    assert (Hp : 1 <= prod l).
    { clear -Hl. induction Hl as [|x l Hx _ IH']; cbn; [lia|].
      fold (prod l). nia. }
    rewrite int_op_in by (unfold INT_MIN; nia). cbn [bind].
    rewrite IH by nia. f_equal. ring.
Qed.

Lemma shape_total_all_exact o :
  o <> [] -> Forall (fun d => 1 <= d) o -> prod o <= INT_MAX ->
  shape_total_all o = Ok (prod o).
Proof.
  intros Hne Hall Hm. unfold shape_total_all, shape_total.
  destruct o as [|d o']; [contradiction|].
  rewrite CV_Assert_true.
  - cbn [bind]. rewrite Z.sub_0_r, Nat2Z.id. cbn [skipn Z.to_nat].
    rewrite firstn_all. rewrite int_prod_exact by (auto; lia).
    f_equal. lia.
  - cbn [length]. repeat (apply andb_true_iff; split);
      try apply Z.leb_le; try apply Z.ltb_lt; lia.
Qed.

(** X5: for a layer made by the constructor, as long as [3*innerSize] and
    every product [3*innerSize*total(outputs[i])] are values of [int] (the
    output shapes being non-empty with no zero dimension), [getFLOPS]
    returns exactly the sum of [3 * innerSize * total(outputs[i])], with
    [innerSize] the unpadded row length of the weight blob. *)
Theorem getFLOPS_exact_in_int params b0 rest heap l inputs outputs :
  FullyConnectedLayerImpl_new params (b0 :: rest) heap = Ok l ->
  size_ok b0 = true -> dense b0 = true ->
  let innerSize := total b0 / num_output params in
  3 * innerSize <= INT_MAX ->
  Forall (fun o => o <> [] /\ Forall (fun d => 1 <= d) o /\ prod o <= INT_MAX
                   /\ 3 * innerSize * prod o <= INT_MAX) outputs ->
  flops_sum innerSize outputs <= 2 ^ 63 - 1 ->
  getFLOPS l inputs outputs = Ok (flops_sum innerSize outputs).
Proof.
  intros Hnew Hok Hd innerSize Hi Hall Hs.
  destruct (new_spec params b0 rest heap l Hok Hd Hnew)
    as (c & s & Hn & Hc & Hnc & _ & _ & _ & Hsz & _).
  destruct (new_blobs params b0 rest heap l Hnew) as (_ & Ebl).
  assert (Ec : innerSize = c).
  { unfold innerSize. rewrite <- Hnc. rewrite Z.mul_comm. apply Z.div_mul. lia. }
  assert (Ecw : cols (weightsMat l) = c) by (unfold cols; rewrite Hsz; reflexivity).
  rewrite Ec in *. rewrite <- Ecw in *.
  apply (getFLOPS_exact l (weightsMat l) _ inputs outputs Ebl).
  - lia.
  - unfold dims. rewrite Hsz. reflexivity.
  - eapply Forall_impl; [|exact Hall]. cbv beta.
    intros o (Hne & Hpos & Hm & Hm3).
    split; [apply shape_total_all_exact; assumption|].
    split; [|exact Hm3].
    clear -Hpos. induction Hpos as [|x o Hx _ IH]; cbn; [lia|].
    fold (prod o). nia.
  - exact Hs.
Qed.

Lemma getFLOPS_exact_in_int_witness :
  let b0 := tensor [3; 10] junk in
  exists l,
    FullyConnectedLayerImpl_new (mkParams 3 false 1) [b0] junk = Ok l
    /\ step1 (weightsMat l) = 16
    /\ getFLOPS l [[4; 10]; [2; 10]] [[4; 3]; [2; 3]] = Ok 540.
Proof.
  intros b0. eexists. split; [reflexivity|]. split; [reflexivity|].
  apply (getFLOPS_exact_in_int (mkParams 3 false 1) b0 [] junk _
           [[4; 10]; [2; 10]] [[4; 3]; [2; 3]] eq_refl eq_refl eq_refl).
  - vm_compute. discriminate.
  - repeat constructor; try discriminate; try lia; vm_compute; discriminate.
  - vm_compute. discriminate.
Defined.

(** X6: what the constructor accepts is limited by its [int] arithmetic:
    it returns a layer only for a positive [num_output] and a weight blob
    of at most [INT_MAX] elements, and the padded row length of the layer
    is an [int]; with one or two blobs and [num_output = 0] it divides by
    zero. *)
Theorem construction_limits params blobs0 heap :
  (forall b0 rest l,
      blobs0 = b0 :: rest -> size_ok b0 = true -> dense b0 = true ->
      FullyConnectedLayerImpl_new params blobs0 heap = Ok l ->
      0 < num_output params <= INT_MAX /\ total b0 <= INT_MAX
      /\ cols (weightsMat l) <= step1 (weightsMat l) <= INT_MAX)
  /\ (num_output params = 0 -> (1 <= length blobs0 <= 2)%nat ->
      FullyConnectedLayerImpl_new params blobs0 heap = Undefined).
Proof.
  split.
  - intros b0 rest l -> Hok Hd Hnew.
    destruct (new_spec params b0 rest heap l Hok Hd Hnew)
      as (c & s & Hn & _ & _ & Ht & _ & _ & Hsz & Hst & _ & Hcs & _).
    split; [exact Hn|]. split; [exact Ht|].
    unfold cols. rewrite Hsz, Hst. exact Hcs.
  - intros Hz Hlen. unfold FullyConnectedLayerImpl_new.
    rewrite CV_Assert_true
      by (apply andb_true_iff; split; apply Z.leb_le; lia).
    cbn [bind].
    destruct blobs0 as [|b0 rest]; [reflexivity|].
    unfold int_div. rewrite Hz. reflexivity.
Qed.

Lemma construction_limits_witness :
  let b0 := tensor [3; 10] junk in
  exists l,
    FullyConnectedLayerImpl_new (mkParams 3 false 1) [b0] junk = Ok l
    /\ (0 < 3 <= INT_MAX /\ total b0 <= INT_MAX
        /\ cols (weightsMat l) <= step1 (weightsMat l) <= INT_MAX)
    /\ FullyConnectedLayerImpl_new (mkParams 0 false 1) [b0] junk = Undefined.
Proof.
  intros b0. eexists. split; [reflexivity|]. split.
  - apply (proj1 (construction_limits (mkParams 3 false 1) [b0] junk) b0 []);
      reflexivity.
  - apply (proj2 (construction_limits (mkParams 0 false 1) [b0] junk)).
    + reflexivity.
    + cbn. lia.
Defined.

(** ** The stripe count and the cut of the range *)

Lemma FullConnected_new_nstripes srcMat weights biasMat dstMat n1 n2 fc :
  FullConnected_new srcMat weights biasMat dstMat n1 = Ok fc ->
  FullConnected_new srcMat weights biasMat dstMat n2
  = Ok (mkFullConnected srcMat weights biasMat dstMat n2).
Proof.
  unfold FullConnected_new.
  match goal with |- context [CV_Assert ?b] => destruct b end; cbn;
    [reflexivity | discriminate].
Qed.

Lemma FullConnected_new_throw srcMat weights biasMat dstMat n1 n2 e :
  FullConnected_new srcMat weights biasMat dstMat n1 = Throw e ->
  FullConnected_new srcMat weights biasMat dstMat n2 = Throw e.
Proof.
  unfold FullConnected_new.
  match goal with |- context [CV_Assert ?b] => destruct b end; cbn;
    [discriminate | auto].
Qed.

Lemma Forall2_Mat_equiv_refl l : Forall2 Mat_equiv l l.
Proof. induction l; constructor; auto using Mat_equiv_refl. Qed.

(** One round gives the same matrix for two stripe counts and two cuts. *)
Lemma forward_one_schedule simd128 l n1 n2 split1 split2 outerSize x y :
  layer_ok l ->
  1 <= n1 <= INT_MAX -> 1 <= n2 <= INT_MAX ->
  is_split 0 n1 split1 = true -> is_split 0 n2 split2 = true ->
  size_ok x = true -> size_ok y = true -> INT_MIN <= outerSize <= INT_MAX ->
  fits (total y) n1 split1 = true -> fits (total y) n2 split2 = true ->
  agree false Mat_equiv (forward_one simd128 l n1 split1 outerSize x y)
        (forward_one simd128 l n2 split2 outerSize x y).
Proof.
  intros Hl Hn1 Hn2 Hs1 Hs2 Hx Hy Ho Hf1 Hf2.
  destruct (reshape_cases x outerSize) as [(srcMat & Es)|Es];
    [|unfold forward_one; rewrite Es; reflexivity].
  destruct (reshape_cases y outerSize) as [(dstMat & Ed)|Ed];
    [|unfold forward_one; rewrite Es, Ed; reflexivity].
  destruct (FullConnected_new_cases srcMat (weightsMat l) (biasMat l) dstMat n1)
    as [(fc1 & E1)|E1].
  - pose proof (FullConnected_new_nstripes _ _ _ _ _ n2 _ E1) as E2.
    destruct (FullConnected_new_inv _ _ _ _ _ _ E1) as (-> & _).
    destruct (forward_one_filled simd128 l n1 split1 Hl Hn1 Hs1 outerSize x y
                _ _ _ Hx Hy Ho Es Ed E1 Hf1) as (_ & d1 & R1 & F1a & F1b).
    destruct (forward_one_filled simd128 l n2 split2 Hl Hn2 Hs2 outerSize x y
                _ _ _ Hx Hy Ho Es Ed E2 Hf2) as (_ & d2 & R2 & F2a & F2b).
    rewrite R1, R2. cbn [agree].
    split; [reflexivity|]. split; [reflexivity|]. split; [reflexivity|].
    cbn [data]. intros a.
    destruct (addr_in_range'
                (mkFullConnected srcMat (weightsMat l) (biasMat l) dstMat n1)
                0 (total y) a) as [(o & Hin & Eo)|N].
    + rewrite <- Eo at 1. rewrite (F1a o Hin).
      change (cell_addr (mkFullConnected srcMat (weightsMat l) (biasMat l) dstMat n1) o)
        with (cell_addr (mkFullConnected srcMat (weightsMat l) (biasMat l) dstMat n2) o)
        in Eo.
      rewrite <- Eo. rewrite (F2a o Hin). reflexivity.
    + rewrite (F1b a N). symmetry. apply F2b. exact N.
  - pose proof (FullConnected_new_throw _ _ _ _ _ n2 _ E1) as E2.
    unfold forward_one. rewrite Es, Ed. cbn [bind]. rewrite E1, E2. reflexivity.
Qed.

Lemma forward_loop_schedule simd128 l n1 n2 split1 split2 outerSize :
  layer_ok l ->
  1 <= n1 <= INT_MAX -> 1 <= n2 <= INT_MAX ->
  is_split 0 n1 split1 = true -> is_split 0 n2 split2 = true ->
  INT_MIN <= outerSize <= INT_MAX ->
  forall input output,
    Forall (fun x => size_ok x = true) input ->
    Forall (fun y => size_ok y = true /\ fits (total y) n1 split1 = true
                     /\ fits (total y) n2 split2 = true) output ->
    fst (forward_loop simd128 l n1 split1 outerSize input output)
    = fst (forward_loop simd128 l n2 split2 outerSize input output)
    /\ Forall2 Mat_equiv
               (snd (forward_loop simd128 l n1 split1 outerSize input output))
               (snd (forward_loop simd128 l n2 split2 outerSize input output)).
Proof.
  intros Hl Hn1 Hn2 Hs1 Hs2 Ho.
  induction input as [|x input IH]; intros output Hin Hout.
  - split; [reflexivity | apply Forall2_Mat_equiv_refl].
  - destruct output as [|y output].
    + split; [reflexivity | constructor].
    + inversion Hin as [|? ? Hx Hin']; subst.
      inversion Hout as [|? ? (Hy & Hf1 & Hf2) Hout']; subst.
      pose proof (forward_one_schedule simd128 l n1 n2 split1 split2 outerSize x y
                    Hl Hn1 Hn2 Hs1 Hs2 Hx Hy Ho Hf1 Hf2) as A.
      cbn [forward_loop].
      destruct (forward_one simd128 l n1 split1 outerSize x y) as [y1|e1| |];
        destruct (forward_one simd128 l n2 split2 outerSize x y) as [y2|e2| |];
        cbn [agree] in A; try contradiction; try discriminate.
      * destruct (IH output Hin' Hout') as [I1 I2].
        destruct (forward_loop simd128 l n1 split1 outerSize input output)
          as [r1 o1].
        destruct (forward_loop simd128 l n2 split2 outerSize input output)
          as [r2 o2].
        cbn [fst snd] in *. split; [exact I1|]. constructor; assumption.
      * subst e2. split; [reflexivity | apply Forall2_Mat_equiv_refl].
      * split; [reflexivity | apply Forall2_Mat_equiv_refl].
      * split; [reflexivity | apply Forall2_Mat_equiv_refl].
Qed.

(** X7: for a layer made by the constructor, as long as no scheduled
    range spans more than [INT_MAX] cells, the result of [forward] depends
    neither on the number of stripes nor on how the runtime cuts the range
    of stripes into sub-ranges: two calls on the same matrices end the same
    way and, under exact arithmetic, leave the same value in every cell of
    every output.  Without the 4-wide block every cell is computed by the
    same operations whatever the cut; with it (the row length being a
    multiple of 4, so that no load goes past the end of an input row) a
    cell is summed lane by lane or from left to right according to where
    the runs fall, which floating-point rounding can tell apart. *)
Theorem forward_schedule_irrelevant
        simd128 params b0 rest heap l n1 n2 split1 split2 input output :
  FullyConnectedLayerImpl_new params (b0 :: rest) heap = Ok l ->
  Forall (fun m => size_ok m = true /\ dense m = true) (b0 :: rest) ->
  (simd128 = true -> (total b0 / num_output params) mod 4 = 0) ->
  1 <= n1 <= INT_MAX -> 1 <= n2 <= INT_MAX ->
  is_split 0 n1 split1 = true -> is_split 0 n2 split2 = true ->
  Forall (fun x => size_ok x = true) input ->
  Forall (fun y => size_ok y = true /\ fits (total y) n1 split1 = true
                   /\ fits (total y) n2 split2 = true) output ->
  empty (biasMat l) = false
  /\ fst (forward simd128 l n1 split1 input output)
     = fst (forward simd128 l n2 split2 input output)
  /\ Forall2 Mat_equiv (snd (forward simd128 l n1 split1 input output))
             (snd (forward simd128 l n2 split2 input output)).
Proof.
  intros Hnew Hall _ Hn1 Hn2 Hs1 Hs2 Hin Hout.
  split; [exact (new_bias_not_empty _ _ _ _ _ Hnew Hall)|].
  assert (Hl : layer_ok l).
  { inversion Hall as [|? ? [Hok Hd] _]; subst.
    exact (new_layer_ok params b0 rest heap l Hok Hd Hnew). }
  unfold forward.
  destruct input as [|x0 input];
    [split; [reflexivity | apply Forall2_Mat_equiv_refl]|].
  destruct (axisCan <- clamp (axis l) (dims x0);; total_range x0 0 axisCan)
    as [t|e| |]; try (split; [reflexivity | apply Forall2_Mat_equiv_refl]).
  apply forward_loop_schedule; auto using to_int_range.
Qed.

(** One stripe against five stripes cut in two sub-ranges, for a layer of
    five outputs: with one stripe the 4-wide block computes four cells of
    each row, with five stripes every run has four cells and runs across
    the rows. *)
Lemma forward_schedule_irrelevant_witness :
  let w := tensor [5; 8] junk in
  let l := mkLayer [w] false 1 w (zeros 5 CV_32F junk) in
  let x := tensor [4; 8] junk in
  let y := tensor [4; 5] zero_heap in
  FullyConnectedLayerImpl_new (mkParams 5 false 1) [w] junk = Ok l
  /\ fst (forward true l 1 [mkRange 0 1] [x] [y]) = Ok tt
  /\ empty (biasMat l) = false
  /\ fst (forward true l 1 [mkRange 0 1] [x] [y])
     = fst (forward true l 5 [mkRange 0 2; mkRange 2 5] [x] [y])
  /\ Forall2 Mat_equiv (snd (forward true l 1 [mkRange 0 1] [x] [y]))
             (snd (forward true l 5 [mkRange 0 2; mkRange 2 5] [x] [y])).
Proof.
  intros w l x y.
  assert (Hnew : FullyConnectedLayerImpl_new (mkParams 5 false 1) [w] junk = Ok l)
    by reflexivity.
  split; [exact Hnew|]. split; [vm_compute; reflexivity|].
  apply (forward_schedule_irrelevant true (mkParams 5 false 1) w [] junk l 1 5
           [mkRange 0 1] [mkRange 0 2; mkRange 2 5] [x] [y] Hnew).
  - repeat constructor.
  - intros _. reflexivity.
  - unfold INT_MAX. lia.
  - unfold INT_MAX. lia.
  - reflexivity.
  - reflexivity.
  - repeat constructor.
  - repeat constructor.
Defined.

(** ** Where errors come from *)

Lemma kernel_no_throw sptr w biasptr wstep wofs0 dofs vecsize nw simd128 dst e :
  kernel sptr w biasptr wstep wofs0 dofs vecsize nw simd128 dst <> Throw e.
Proof.
  unfold kernel, int_op. destruct simd128; [|discriminate].
  destruct (in_int (nw - 4)); cbn [bind]; [|discriminate].
  destruct (simd_rows sptr w biasptr wstep dofs vecsize nw (wofs0, dst)).
  discriminate.
Qed.

Lemma stripe_loop_no_throw simd128 fc fuel :
  forall stripeEnd ofs dst e,
    stripe_loop simd128 fc fuel stripeEnd ofs dst <> Throw e.
Proof.
  induction fuel as [|fuel IH]; intros stripeEnd ofs dst e; [discriminate|].
  cbn [stripe_loop]. destruct (ofs <? stripeEnd); [|discriminate].
  cbv zeta. unfold int_op at 1.
  match goal with |- context [in_int ?v] => destruct (in_int v) end;
    cbn [bind]; [|discriminate].
  match goal with |- context [kernel ?a ?b ?c ?d ?f ?g ?h ?i ?j ?k] =>
    pose proof (kernel_no_throw a b c d f g h i j k e) as K;
    destruct (kernel a b c d f g h i j k) end;
    cbn [bind]; try discriminate; [apply IH | exact K].
Qed.

Lemma parallel_for_no_throw simd128 fc split :
  forall dst e, parallel_for_ split (FullConnected_call simd128 fc) dst <> Throw e.
Proof.
  induction split as [|r split IH]; intros dst e; [discriminate|].
  cbn [parallel_for_].
  assert (C : FullConnected_call simd128 fc r dst <> Throw e).
  { unfold FullConnected_call.
    destruct (to_size_t (nstripes_ fc) =? 0); [discriminate|].
    apply stripe_loop_no_throw. }
  destruct (FullConnected_call simd128 fc r dst); cbn [bind];
    try discriminate; [apply IH | exact C].
Qed.

(** An error of a round is the error of one of its three checks. *)
Lemma forward_one_throw simd128 l n split outerSize x y e :
  forward_one simd128 l n split outerSize x y = Throw e ->
  reshape x outerSize = Throw e
  \/ (exists srcMat, reshape x outerSize = Ok srcMat
                     /\ reshape y outerSize = Throw e)
  \/ (exists srcMat dstMat,
         reshape x outerSize = Ok srcMat /\ reshape y outerSize = Ok dstMat
         /\ FullConnected_new srcMat (weightsMat l) (biasMat l) dstMat n = Throw e).
Proof.
  unfold forward_one. intros H.
  destruct (reshape x outerSize) as [srcMat|e1| |]; cbn [bind] in H;
    try discriminate; [|left; exact H].
  destruct (reshape y outerSize) as [dstMat|e2| |]; cbn [bind] in H;
    try discriminate; [|right; left; eauto].
  destruct (FullConnected_new srcMat (weightsMat l) (biasMat l) dstMat n)
    as [fc|e3| |] eqn:E; cbn [bind] in H; try discriminate;
    [|right; right; exists srcMat, dstMat; injection H as <-; auto].
  exfalso.
  pose proof (parallel_for_no_throw simd128 fc split (data dstMat) e) as P.
  destruct (parallel_for_ split (FullConnected_call simd128 fc) (data dstMat));
    cbn [bind] in H; try discriminate.
  apply P. injection H as ->. reflexivity.
Qed.

(** X8: the kernels raise no error: when [forward] raises one, it is the
    error of the computation of the batch row count, or that of one of the
    checks of some round (a [reshape], or the assertion of the
    [FullConnected] constructor), and the output matrix of that round is as
    it was; in particular a call on a single matrix that raises an error
    leaves the output unchanged. *)
Theorem forward_errors_come_from_checks simd128 l n split input output e outs :
  forward simd128 l n split input output = (Throw e, outs) ->
  exists x0 rest,
    input = x0 :: rest
    /\ (forward_outerSize l x0 = Throw e /\ outs = output
        \/ exists t k x y,
             forward_outerSize l x0 = Ok t
             /\ nth_error input k = Some x /\ nth_error output k = Some y
             /\ nth_error outs k = Some y
             /\ (reshape x (to_int t) = Throw e
                 \/ (exists srcMat, reshape x (to_int t) = Ok srcMat
                                    /\ reshape y (to_int t) = Throw e)
                 \/ (exists srcMat dstMat,
                        reshape x (to_int t) = Ok srcMat
                        /\ reshape y (to_int t) = Ok dstMat
                        /\ FullConnected_new srcMat (weightsMat l) (biasMat l)
                                             dstMat n = Throw e)))
    /\ (rest = [] -> outs = output).
Proof.
  intros E. unfold forward in E.
  destruct input as [|x0 rest]; [discriminate|].
  exists x0, rest. split; [reflexivity|].
  fold (forward_outerSize l x0) in E.
  destruct (forward_outerSize l x0) as [t|e'| |] eqn:Ep; try discriminate.
  - destruct (forward_loop_throw _ _ _ _ _ _ _ _ _ E)
      as (k & x & y & Hx & Hy & Hk & Hs & _).
    assert (Hyk : nth_error outs k = Some y).
    { rewrite <- (Nat.add_0_r k) at 1. rewrite <- nth_error_skipn, Hs.
      rewrite nth_error_skipn, Nat.add_0_r. exact Hy. }
    split.
    + right. exists t, k, x, y.
      split; [reflexivity|]. split; [exact Hx|]. split; [exact Hy|].
      split; [exact Hyk|].
      eapply forward_one_throw. exact Hk.
    + intros ->. destruct k as [|k]; [exact Hs|].
      cbn in Hx. destruct k; discriminate.
  - injection E as <- <-. split; [left; split; reflexivity | reflexivity].
Qed.

Lemma forward_errors_come_from_checks_witness :
  let w := tensor [3; 8] junk in
  let l := mkLayer [w] false 1 w (zeros 3 CV_32F junk) in
  let x := mkMat [2; 8] CV_64F 8 junk in
  let y := tensor [2; 3] zero_heap in
  FullyConnectedLayerImpl_new (mkParams 3 false 1) [w] junk = Ok l
  /\ forward false l 2 (unit_split 2) [x] [y] = (Throw StsAssert, [y])
  /\ exists x0 rest,
       [x] = x0 :: rest
       /\ (forward_outerSize l x0 = Throw StsAssert /\ [y] = [y]
           \/ exists t k x' y',
                forward_outerSize l x0 = Ok t
                /\ nth_error [x] k = Some x' /\ nth_error [y] k = Some y'
                /\ nth_error [y] k = Some y'
                /\ (reshape x' (to_int t) = Throw StsAssert
                    \/ (exists srcMat, reshape x' (to_int t) = Ok srcMat
                                       /\ reshape y' (to_int t) = Throw StsAssert)
                    \/ (exists srcMat dstMat,
                           reshape x' (to_int t) = Ok srcMat
                           /\ reshape y' (to_int t) = Ok dstMat
                           /\ FullConnected_new srcMat (weightsMat l) (biasMat l)
                                                dstMat 2 = Throw StsAssert)))
       /\ (rest = [] -> [y] = [y]).
Proof.
  intros w l x y.
  split; [reflexivity|]. split; [reflexivity|].
  apply (forward_errors_come_from_checks false l 2 (unit_split 2) [x] [y]
           StsAssert [y]).
  reflexivity.
Defined.

(** ** Fewer outputs than inputs *)

Lemma forward_loop_short simd128 l n split outerSize input :
  forall output,
    (length output < length input)%nat ->
    fst (forward_loop simd128 l n split outerSize input output) <> Ok tt.
Proof.
  induction input as [|x input IH]; intros output Hlen; [cbn in Hlen; lia|].
  cbn [forward_loop]. destruct output as [|y output]; [discriminate|].
  destruct (forward_one simd128 l n split outerSize x y); try discriminate.
  specialize (IH output ltac:(cbn in Hlen; lia)).
  destruct (forward_loop simd128 l n split outerSize input output). exact IH.
Qed.

(** X9: [forward] indexes [input[0]] and [output[i]] without a check: with
    no input, or with fewer output matrices than inputs, it never returns
    normally. *)
Theorem forward_needs_an_output_per_input simd128 l n split input output :
  input = [] \/ (length output < length input)%nat ->
  fst (forward simd128 l n split input output) <> Ok tt.
Proof.
  intros [->|Hlen]; [discriminate|].
  unfold forward. destruct input as [|x0 rest]; [discriminate|].
  destruct (axisCan <- clamp (axis l) (dims x0);; total_range x0 0 axisCan);
    try discriminate.
  apply forward_loop_short. exact Hlen.
Qed.

Lemma forward_needs_an_output_per_input_witness :
  let w := tensor [3; 8] junk in
  let l := mkLayer [w] false 1 w (zeros 3 CV_32F junk) in
  let x := tensor [2; 8] junk in
  let y := tensor [2; 3] zero_heap in
  fst (forward false l 2 (unit_split 2) [x; x] [y]) = Undefined
  /\ fst (forward false l 2 (unit_split 2) [x; x] [y]) <> Ok tt.
Proof.
  intros w l x y. split; [vm_compute; reflexivity|].
  apply forward_needs_an_output_per_input. right. cbn. lia.
Defined.

(** ** The sizes of the stripes *)

(** X10: the stripes are balanced: with [S = ceil(total / nstripes)], no
    stripe has more than [S] cells, a stripe that ends at or before [total]
    has exactly [S], and a stripe that would start at or after [total] is
    empty; [nstripes * S] exceeds [total] by less than [nstripes]. *)
Theorem stripes_balanced total_ n s :
  0 <= total_ -> 1 <= n <= INT_MAX -> total_ + n - 1 < 2 ^ 64 -> 0 <= s < n ->
  let S := stripeSize_of total_ n in
  S = (total_ + n - 1) / n
  /\ total_ <= n * S < total_ + n
  /\ stripe_cells total_ n s <= S
  /\ ((s + 1) * S <= total_ -> stripe_cells total_ n s = S)
  /\ (total_ <= s * S -> stripe_cells total_ n s = 0).
Proof.
  intros Ht Hn Hw Hs S.
  destruct (stripeSize_nowrap total_ n Ht Hn Hw) as (HS & H1 & H2 & H3).
  fold S in HS, H1, H2, H3.
  unfold stripe_cells. rewrite stripe_nowrap by assumption. fold S.
  cbn [fst snd].
  split; [exact HS|]. split; [lia|].
  split; [nia|]. split; intros H; nia.
Qed.

Lemma stripes_balanced_witness :
  map (stripe_cells 10 4) [0; 1; 2; 3] = [3; 3; 3; 1]
  /\ stripeSize_of 10 4 = (10 + 4 - 1) / 4
  /\ 10 <= 4 * stripeSize_of 10 4 < 10 + 4
  /\ stripe_cells 10 4 3 <= stripeSize_of 10 4
  /\ ((3 + 1) * stripeSize_of 10 4 <= 10 -> stripe_cells 10 4 3 = stripeSize_of 10 4)
  /\ (10 <= 3 * stripeSize_of 10 4 -> stripe_cells 10 4 3 = 0).
Proof.
  split; [reflexivity|].
  apply (stripes_balanced 10 4 3); unfold INT_MAX; lia.
Defined.

(** ** Shape inference and the checks of [forward] *)

Lemma int_prod_Ok l :
  forall e r, int_prod l e = Ok r ->
              r = e * prod l /\ (INT_MIN <= e <= INT_MAX -> INT_MIN <= r <= INT_MAX).
Proof.
  induction l as [|d l IH]; intros e r H.
  - cbn in H. injection H as <-. cbn. split; [lia | auto].
  - cbn [int_prod] in H. apply bind_Ok in H. destruct H as (e' & He & H).
    apply int_op_Ok in He. destruct He as [-> He].
    destruct (IH _ _ H) as [-> Hr].
    cbn [prod fold_right]. fold (prod l). split; [ring | auto].
Qed.

(** The row count that [getMemoryShapes] computes from a shape is the one
    that [forward] computes from a matrix of that shape. *)
Lemma outerSize_agree l x outerSize :
  shapes_outerSize l (size x) = Ok outerSize -> outerSize <> 0 ->
  forward_outerSize l x = Ok outerSize /\ INT_MIN <= outerSize <= INT_MAX.
Proof.
  unfold shapes_outerSize, forward_outerSize. intros H Hnz.
  change (Z.of_nat (length (size x))) with (dims x) in H.
  destruct (clamp (axis l) (dims x)) as [cAxis| | |]; try discriminate.
  cbn [bind] in *. unfold shape_total in H.
  destruct (size x) as [|d s] eqn:Es; [injection H as <-; contradiction|].
  apply bind_Ok in H. destruct H as ([] & Hc & H).
  apply CV_Assert_Ok in Hc. rewrite !andb_true_iff in Hc.
  destruct Hc as [[[_ _] _] Hc].
  destruct (int_prod_Ok _ _ _ H) as [-> Hr].
  unfold total_range. rewrite Es, Hc. cbn [andb CV_Assert bind].
  change (0 <=? 0) with true. cbn [andb CV_Assert bind].
  change (Z.to_nat 0) with 0%nat. cbn [skipn].
  split; [f_equal; lia|].
  apply Hr. unfold INT_MIN, INT_MAX. lia.
Qed.

Lemma prod_two a b : prod [a; b] = a * b.
Proof. cbn. lia. Qed.

(** X11: shape inference and [forward] fit together.  For a layer made by
    the constructor from float blobs, take a dense float input whose
    element count is [outerSize * innerSize], where [outerSize x numOutput]
    is the shape that [getMemoryShapes] infers from the input's shape; then
    [forward] computes the same [outerSize], and every float output matrix
    of the inferred shape passes the checks of its round. *)
Theorem inferred_shape_passes_checks
        params b0 rest heap l x req outerSize numOutput n y :
  FullyConnectedLayerImpl_new params (b0 :: rest) heap = Ok l ->
  Forall (fun b => size_ok b = true /\ dense b = true /\ type b = CV_32F)
         (b0 :: rest) ->
  size_ok x = true -> dense x = true -> type x = CV_32F ->
  getMemoryShapes l [size x] req [] = Ok (false, [[outerSize; numOutput]]) ->
  0 < outerSize -> 0 < total b0 ->
  total x = outerSize * (total b0 / num_output params) ->
  size y = [outerSize; numOutput] -> type y = CV_32F ->
  numOutput = num_output params
  /\ forward_outerSize l x = Ok outerSize /\ to_int outerSize = outerSize
  /\ checks_pass l n outerSize x y.
Proof.
  intros Hnew Hall Hx Hdx Htx Hshape Ho Hw Htot Hsy Hty.
  inversion Hall as [|? ? (Hok & Hd & Htb0) Hrest]; subst.
  assert (Hrest' : Forall (fun b => size_ok b = true /\ dense b = true) rest)
    by (eapply Forall_impl; [|exact Hrest]; cbv beta; tauto).
  destruct (new_spec params b0 rest heap l Hok Hd Hnew)
    as (c & s & Hn & Hc & Hnc & _ & _ & _ & Hsz & _ & Htw & _ & _ & _ & _ & _ & _
        & _ & _ & _ & Hnb & Hb).
  destruct (biasMat_size params b0 rest heap l Hok Hd Hrest' Hnew)
    as (Hbs & Hbst & Hbd).
  destruct (new_blobs params b0 rest heap l Hnew) as (_ & Ebl).
  assert (Ec : total b0 / num_output params = c).
  { rewrite <- Hnc. rewrite Z.mul_comm. apply Z.div_mul. lia. }
  rewrite Ec in Htot.
  assert (Hcpos : 0 < c) by nia.
  (* what [getMemoryShapes] computed *)
  assert (Hinf : shapes_outerSize l (size x) = Ok outerSize
                 /\ numOutput = num_output params).
  { unfold getMemoryShapes in Hshape.
    apply bind_Ok in Hshape. destruct Hshape as ([] & _ & Hshape).
    apply bind_Ok in Hshape. destruct Hshape as ([] & _ & Hshape).
    rewrite Ebl in Hshape.
    apply bind_Ok in Hshape. destruct Hshape as ([] & _ & Hshape).
    apply bind_Ok in Hshape. destruct Hshape as (cAxis & Hca & Hshape).
    apply bind_Ok in Hshape. destruct Hshape as (o & Hto & Hshape).
    rewrite Hsz in Hshape. cbn [nth length resize firstn repeat Nat.sub app] in Hshape.
    unfold shape in Hshape.
    assert (E : [[o; num_output params]] = [[outerSize; numOutput]]).
    { destruct (bias l).
      - apply bind_Ok in Hshape. destruct Hshape as ([] & _ & Hshape).
        injection Hshape as <- <-. reflexivity.
      - injection Hshape as <- <-. reflexivity. }
    injection E as -> <-.
    split; [|reflexivity].
    unfold shapes_outerSize. rewrite Hca. exact Hto. }
  destruct Hinf as [Hso ->].
  destruct (outerSize_agree l x outerSize Hso ltac:(lia)) as [Hfo Hint].
  split; [reflexivity|]. split; [exact Hfo|].
  split; [apply to_int_small; exact Hint|].
  (* the input as a matrix of [outerSize] rows *)
  assert (Hsrc : exists srcMat,
             reshape x outerSize = Ok srcMat /\ size srcMat = [outerSize; c]
             /\ type srcMat = CV_32F).
  { unfold reshape.
    destruct (Z.eqb_spec outerSize 0); [lia|].
    destruct ((dims x =? 2) && (outerSize =? rows x)) eqn:E2.
    - exists x. apply andb_true_iff in E2. destruct E2 as [E2 E3].
      apply Z.eqb_eq in E2, E3.
      split; [reflexivity|]. split; [|exact Htx].
      unfold dims, rows, total in *.
      destruct (size x) as [|r [|c' [|? ?]]]; cbn in E2; try lia.
      rewrite prod_two in Htot. subst r. f_equal. f_equal. nia.
    - destruct (Z.ltb_spec outerSize 0); [lia|].
      assert (Hcont : isContinuous x = true).
      { unfold isContinuous, dense in *.
        destruct (size x) as [|r [|c' [|? ?]]]; try reflexivity.
        rewrite Hdx. reflexivity. }
      rewrite Hcont. cbn [negb].
      destruct (Z.ltb_spec (total x) outerSize); [nia|].
      rewrite Htot, Z.mul_comm, Z.mod_mul by lia.
      change (0 =? 0) with true. cbn [negb].
      rewrite Z.div_mul by lia.
      eexists. split; [reflexivity|]. split; [reflexivity | exact Htx]. }
  destruct Hsrc as (srcMat & Esrc & Hss & Hts).
  assert (Edst : reshape y outerSize = Ok y).
  { unfold reshape. destruct (Z.eqb_spec outerSize 0); [lia|].
    unfold dims, rows. rewrite Hsy. cbn [length].
    change (Z.of_nat 2 =? 2) with true. rewrite Z.eqb_refl. reflexivity. }
  exists srcMat, y, (mkFullConnected srcMat (weightsMat l) (biasMat l) y n).
  split; [exact Esrc|]. split; [exact Edst|].
  unfold FullConnected_new.
  rewrite CV_Assert_true; [reflexivity|].
  assert (Tb : type (biasMat l) = CV_32F).
  { destruct (bias_term params) eqn:Eb.
    - destruct (Hb eq_refl) as (b1 & -> & _).
      destruct (Hbd b1 eq_refl eq_refl) as [-> _].
      inversion Hrest as [|? ? (_ & _ & T) _]. exact T.
    - rewrite (Hnb eq_refl). cbn [zeros type]. rewrite Htw. exact Htb0. }
  assert (Totb : total (biasMat l) = num_output params).
  { unfold total. rewrite Hbs. rewrite prod_two. lia. }
  unfold dims, cols, rows, isContinuous.
  rewrite Hss, Hsz, Hsy, Hbs, Hts, Htw, Htb0, Hty, Tb, Totb.
  cbn [length ElemType_eqb].
  rewrite to_int_small by (unfold INT_MIN, INT_MAX in *; lia).
  rewrite !Z.eqb_refl. change (Z.of_nat 2 =? 2) with true.
  change (1 <=? 1) with true.
  destruct (empty (biasMat l));
    destruct (step1 (biasMat l) =? num_output params); reflexivity.
Qed.

(** A four-dimensional input of shape 2 x 2 x 2 x 2 for a layer of eight
    inputs and three outputs. *)
Lemma inferred_shape_passes_checks_witness :
  let b0 := tensor [3; 8] junk in
  let b1 := tensor [3] junk in
  let x := tensor [2; 2; 2; 2] junk in
  let y := tensor [2; 3] zero_heap in
  exists l,
    FullyConnectedLayerImpl_new (mkParams 3 true 1) [b0; b1] junk = Ok l
    /\ getMemoryShapes l [size x] 1 [] = Ok (false, [[2; 3]])
    /\ 3 = num_output (mkParams 3 true 1)
    /\ forward_outerSize l x = Ok 2 /\ to_int 2 = 2
    /\ checks_pass l 4 2 x y.
Proof.
  intros b0 b1 x y. eexists.
  split; [reflexivity|]. split; [reflexivity|].
  apply (inferred_shape_passes_checks (mkParams 3 true 1) b0 [b1] junk _ x 1 2 3 4 y
           eq_refl).
  - repeat constructor.
  - reflexivity.
  - reflexivity.
  - reflexivity.
  - reflexivity.
  - lia.
  - reflexivity.
  - reflexivity.
  - reflexivity.
  - reflexivity.
Defined.

(** ** What the fresh allocations hold *)

(** Whether the constructor accepts the blobs does not depend on what the
    memory it allocates holds. *)
Lemma new_any_heap params blobs0 heap1 heap2 l1 :
  FullyConnectedLayerImpl_new params blobs0 heap1 = Ok l1 ->
  exists l2, FullyConnectedLayerImpl_new params blobs0 heap2 = Ok l2.
Proof.
  unfold FullyConnectedLayerImpl_new. intros H.
  destruct (CV_Assert _) in H |- *; cbn [bind] in *; try discriminate.
  destruct blobs0 as [|b0 rest]; [discriminate|].
  destruct (int_div _ _) as [innerSize| | |] in H |- *; cbn [bind] in *;
    try discriminate.
  destruct (CV_Assert _) in H |- *; cbn [bind] in *; try discriminate.
  destruct (CV_Assert _) in H |- *; cbn [bind] in *; try discriminate.
  destruct (reshape b0 (num_output params)) as [w0| | |]; cbn [bind] in *;
    try discriminate.
  destruct (negb (Z.rem (cols w0) VEC_ALIGN =? 0)); cbv zeta in *.
  - destruct (to_int (alignSize (cols w0) VEC_ALIGN) <? 0); cbn [bind] in *;
      try discriminate.
    destruct rest as [|b1 rest']; destruct (bias_term params); try discriminate;
      eauto.
    all: try (destruct (reshape b1 1); cbn [bind] in *; try discriminate; eauto).
  - cbn [bind] in *.
    destruct rest as [|b1 rest']; destruct (bias_term params); try discriminate;
      eauto.
    all: try (destruct (reshape b1 1); cbn [bind] in *; try discriminate; eauto).
Qed.

(** X12: what the memory that the constructor allocates holds before it is
    written (the padded weight buffer, the zero bias row) has no influence:
    construction succeeds for one content if it does for another, and the
    forward passes of the two layers end the same way and leave the same
    value in every cell of every output. *)
Theorem forward_ignores_allocation_content
        simd128 params b0 rest heap1 heap2 l1 n split input output :
  FullyConnectedLayerImpl_new params (b0 :: rest) heap1 = Ok l1 ->
  Forall (fun b => size_ok b = true /\ dense b = true) (b0 :: rest) ->
  Forall (fun x => size_ok x = true) input ->
  exists l2,
    FullyConnectedLayerImpl_new params (b0 :: rest) heap2 = Ok l2
    /\ fst (forward simd128 l1 n split input output)
       = fst (forward simd128 l2 n split input output)
    /\ Forall2 Mat_equiv (snd (forward simd128 l1 n split input output))
               (snd (forward simd128 l2 n split input output)).
Proof.
  intros H1 Hall Hin.
  destruct (new_any_heap params (b0 :: rest) heap1 heap2 l1 H1) as (l2 & H2).
  exists l2. split; [exact H2|].
  inversion Hall as [|? ? [Hok Hd] Hrest]; subst.
  destruct (new_spec params b0 rest heap1 l1 Hok Hd H1)
    as (c1 & s1 & Hn & _ & _ & _ & _ & _ & Hsz1 & _ & Hty1 & _ & _ & _ & _ & _
        & _ & _ & _ & Hax1 & Hnb1 & Hb1).
  destruct (new_spec params b0 rest heap2 l2 Hok Hd H2)
    as (c2 & s2 & _ & _ & _ & _ & _ & _ & Hsz2 & _ & Hty2 & _ & _ & _ & _ & _
        & _ & _ & _ & Hax2 & Hnb2 & Hb2).
  destruct (biasMat_size params b0 rest heap1 l1 Hok Hd Hrest H1) as (S1 & T1 & D1).
  destruct (biasMat_size params b0 rest heap2 l2 Hok Hd Hrest H2) as (S2 & T2 & D2).
  destruct (new_same_weights params params b0 rest rest heap1 heap2 l1 l2 Hok Hd
                             eq_refl H1 H2) as (W1 & W2 & W3 & W4).
  assert (Er : rows (weightsMat l1) = num_output params)
    by (unfold rows; rewrite Hsz1; reflexivity).
  assert (Hsame : same_layer l1 l2).
  { unfold same_layer. rewrite Hax1, Hax2, S1, S2, T1, T2.
    repeat split; try assumption.
    - destruct (bias_term params) eqn:Eb.
      + destruct (Hb1 eq_refl) as (b1 & Erest & _).
        destruct (D1 b1 eq_refl Erest) as [-> _].
        destruct (D2 b1 eq_refl Erest) as [-> _]. reflexivity.
      + rewrite (Hnb1 eq_refl), (Hnb2 eq_refl). cbn [zeros type]. congruence.
    - intros j Hj. rewrite Er in Hj.
      rewrite (new_bias params b0 rest heap1 l1 j Hok Hd Hrest H1 Hj).
      rewrite (new_bias params b0 rest heap2 l2 j Hok Hd Hrest H2 Hj).
      reflexivity. }
  pose proof (forward_agree false simd128 simd128 l1 l2 n split Hsame
                (new_layer_ok _ _ _ _ _ Hok Hd H1)
                (new_layer_ok _ _ _ _ _ Hok Hd H2)
                (or_introl eq_refl) input output Hin) as [[U _]|H];
    [discriminate | exact H].
Qed.

Lemma forward_ignores_allocation_content_witness :
  let b0 := tensor [3; 10] junk in
  let x := tensor [2; 10] junk in
  let y := tensor [2; 3] zero_heap in
  exists l1 l2,
    FullyConnectedLayerImpl_new (mkParams 3 false 1) [b0] junk = Ok l1
    /\ FullyConnectedLayerImpl_new (mkParams 3 false 1) [b0] zero_heap = Ok l2
    /\ fst (forward true l1 2 (unit_split 2) [x] [y]) = Ok tt
    /\ fst (forward true l1 2 (unit_split 2) [x] [y])
       = fst (forward true l2 2 (unit_split 2) [x] [y])
    /\ Forall2 Mat_equiv (snd (forward true l1 2 (unit_split 2) [x] [y]))
               (snd (forward true l2 2 (unit_split 2) [x] [y])).
Proof.
  intros b0 x y.
  destruct (forward_ignores_allocation_content true (mkParams 3 false 1) b0 []
              junk zero_heap _ 2 (unit_split 2) [x] [y] eq_refl
              ltac:(repeat constructor) ltac:(repeat constructor))
    as (l2 & H2 & H).
  eexists. exists l2.
  split; [reflexivity|]. split; [exact H2|].
  split; [vm_compute; reflexivity | exact H].
Defined.

(** ** A single stripe of 2^31 cells and more *)

Lemma to_int_high T : 2 ^ 31 <= T < 2 ^ 32 -> to_int T = T - 2 ^ 32.
Proof.
  intros H. unfold to_int.
  assert (E : (T + 2 ^ 31) mod 2 ^ 32 = T + 2 ^ 31 - 2 ^ 32)
    by (symmetry; apply Z.mod_unique with (q := 1); lia).
  lia.
Qed.

Lemma to_int_multiple T : T mod 2 ^ 32 = 0 -> to_int T = 0.
Proof.
  intros H. unfold to_int.
  pose proof (Z.div_mod T (2 ^ 32) ltac:(lia)) as Hd.
  assert (E : (T + 2 ^ 31) mod 2 ^ 32 = 2 ^ 31)
    by (symmetry; apply Z.mod_unique with (q := T / 2 ^ 32); lia).
  lia.
Qed.

(** A run of no cell writes nothing. *)
Lemma kernel_nothing sptr w biasptr wstep wofs0 dofs vecsize nw simd128 dst :
  nw <= 0 -> (simd128 = true -> INT_MIN <= nw - 4) ->
  exists d,
    kernel sptr w biasptr wstep wofs0 dofs vecsize nw simd128 dst = Ok d
    /\ same_cells d dst.
Proof.
  intros Hnw Hs.
  assert (Hc := cells_none sptr w biasptr wstep wofs0 dofs vecsize dst nw Hnw).
  destruct simd128.
  - destruct (kernel_simd_spec sptr w biasptr wstep wofs0 dofs vecsize nw dst)
      as (d & E & Hd).
    + specialize (Hs eq_refl). unfold INT_MAX. lia.
    + intros j k Hj. lia.
    + exists d. split; [exact E|].
      eapply same_cells_trans; [exact Hd | apply same_cells_sym; exact Hc].
  - destruct (kernel_scalar_spec sptr w biasptr wstep wofs0 dofs vecsize nw dst)
      as (d & E & Hd).
    exists d. split; [exact E|].
    eapply same_cells_trans; [exact Hd | apply same_cells_sym; exact Hc].
Qed.

Lemma single_stripe_bounds T :
  stripeStart_of T 1 (mkRange 0 1) = 0 /\ stripeEnd_of T 1 (mkRange 0 1) = T.
Proof.
  unfold stripeStart_of, stripeEnd_of. cbn [start end_].
  change (to_size_t 0) with 0. rewrite Z.mul_0_l.
  change (to_size_t 0) with 0. split; reflexivity.
Qed.

Lemma call_single_large simd128 fc dst :
  0 <= rows (srcMat_ fc) <= INT_MAX -> 0 <= rows (weights_ fc) <= INT_MAX ->
  nstripes_ fc = 1 ->
  2 ^ 31 <= rows (srcMat_ fc) * rows (weights_ fc) < 2 ^ 32 ->
  (simd128 = true -> 2 ^ 31 + 4 <= rows (srcMat_ fc) * rows (weights_ fc)) ->
  exists d, FullConnected_call simd128 fc (mkRange 0 1) dst = Ok d
            /\ same_cells d dst.
Proof.
  intros Hs Hw Hn HT Hsimd. unfold FullConnected_call.
  rewrite (total_exact fc Hs Hw). rewrite Hn.
  change (to_size_t 1 =? 0) with false. cbv iota.
  set (T := rows (srcMat_ fc) * rows (weights_ fc)) in *.
  destruct (single_stripe_bounds T) as [-> ->].
  assert (Hw0 : 0 < rows (weights_ fc)) by (unfold T in HT; nia).
  assert (Hs0 : 0 < rows (srcMat_ fc)) by (unfold T in HT; nia).
  rewrite (stripe_loop_step simd128 fc Hs Hw) by (fold T; lia).
  assert (Erl : run_length (rows (weights_ fc)) T 0 = T - 2 ^ 32).
  { unfold run_length. rewrite Z.mod_0_l by lia. rewrite !Z.sub_0_r.
    rewrite to_int_high by exact HT. lia. }
  unfold run_kernel. rewrite Erl.
  match goal with
  | |- context [kernel ?a ?b ?c ?d ?e ?f ?g ?nw ?s ?t] =>
      destruct (kernel_nothing a b c d e f g nw s t) as (d' & E & Hd')
  end.
  - lia.
  - intros Es. specialize (Hsimd Es). unfold INT_MIN. lia.
  - rewrite E. cbn [bind].
    assert (Eo : to_size_t (0 + to_size_t (T - 2 ^ 32)) = T - 2 ^ 32 + 2 ^ 64).
    { assert (E1 : to_size_t (T - 2 ^ 32) = T - 2 ^ 32 + 2 ^ 64)
        by (unfold to_size_t; symmetry; apply Z.mod_unique with (q := -1); lia).
      rewrite E1. apply to_size_t_small. lia. }
    rewrite Eo.
    destruct (Z.to_nat (rows (srcMat_ fc))) as [|k] eqn:Ek; [lia|].
    rewrite stripe_loop_done by lia.
    exists d'. split; [reflexivity | exact Hd'].
Qed.

(** X13: beyond the [int]: when a matrix whose checks pass has between
    2^31 and 2^32 - 1 output cells and a single stripe is used, [(int)
    (stripeEnd - ofs)] is negative and [forward] returns normally with the
    output exactly as it was before the call (in a build with the 4-wide
    kernel, from 2^31 + 4 cells on). *)
Theorem single_stripe_large_output_unwritten simd128 l x y t :
  layer_ok l -> size_ok x = true -> size_ok y = true ->
  forward_outerSize l x = Ok t -> checks_pass l 1 (to_int t) x y ->
  2 ^ 31 <= total y < 2 ^ 32 -> (simd128 = true -> 2 ^ 31 + 4 <= total y) ->
  exists y',
    forward simd128 l 1 [mkRange 0 1] [x] [y] = (Ok tt, [y'])
    /\ Mat_equiv y' y.
Proof.
  intros Hl Hx Hy Ep (srcMat & dstMat & fc & Es & Ed & Efc) HT Hsimd.
  destruct (FullConnected_new_inv _ _ _ _ _ _ Efc) as (-> & Hd2 & _ & Hr & Hc).
  pose proof (reshape_rows_int x (to_int t) srcMat Hx (to_int_range t) Es Hd2) as Hrs.
  pose proof (weights_rows_int l Hl) as Hrw.
  destruct (reshape_layout y (to_int t) dstMat Hy Ed) as (_ & L2 & L3).
  assert (Et : rows srcMat * rows (weightsMat l) = total y)
    by (rewrite <- L2 by lia; rewrite Hr, Hc; reflexivity).
  destruct (call_single_large simd128
              (mkFullConnected srcMat (weightsMat l) (biasMat l) dstMat 1)
              (data dstMat) Hrs Hrw eq_refl) as (d & E & Hd).
  { cbn [srcMat_ weights_]. rewrite Et. exact HT. }
  { cbn [srcMat_ weights_]. rewrite Et. exact Hsimd. }
  exists (mkMat (size y) (type y) (step1 y) d). split.
  - unfold forward. fold (forward_outerSize l x). rewrite Ep.
    cbn [forward_loop]. unfold forward_one.
    rewrite Es, Ed. cbn [bind]. rewrite Efc. cbn [bind parallel_for_].
    rewrite E. reflexivity.
  - split; [reflexivity|]. split; [reflexivity|]. split; [reflexivity|].
    cbn [data]. rewrite <- L3. exact Hd.
Qed.

Lemma single_stripe_large_output_unwritten_witness :
  let w := tensor [32768; 8] junk in
  let l := mkLayer [w] false 1 w (zeros 32768 CV_32F zero_heap) in
  let x := tensor [65536; 8] junk in
  let y := tensor [65536; 32768] zero_heap in
  FullyConnectedLayerImpl_new (mkParams 32768 false 1) [w] zero_heap = Ok l
  /\ exists y',
       forward false l 1 [mkRange 0 1] [x] [y] = (Ok tt, [y'])
       /\ Mat_equiv y' y.
Proof.
  intros w l x y.
  assert (Hnew : FullyConnectedLayerImpl_new (mkParams 32768 false 1) [w] zero_heap
                 = Ok l) by reflexivity.
  split; [exact Hnew|].
  apply (single_stripe_large_output_unwritten false l x y 65536).
  - exact (new_layer_ok _ w [] _ l eq_refl eq_refl Hnew).
  - reflexivity.
  - reflexivity.
  - reflexivity.
  - exists x, y, (mkFullConnected x (weightsMat l) (biasMat l) y 1).
    split; [reflexivity|]. split; reflexivity.
  - change (total y) with 2147483648. lia.
  - intros H. discriminate H.
Defined.

(** X14: when the number of output cells is a positive multiple of 2^32
    and a single stripe is used, [(int)(stripeEnd - ofs)] is 0: every round
    of the loop of [operator()] has [nw = 0], writes nothing and leaves
    [ofs] where it was, so that the loop does not end, however many rounds
    it is given. *)
Theorem single_stripe_loop_makes_no_progress simd128 fc :
  0 <= rows (srcMat_ fc) <= INT_MAX -> 0 <= rows (weights_ fc) <= INT_MAX ->
  let total_ := rows (srcMat_ fc) * rows (weights_ fc) in
  0 < total_ -> total_ mod 2 ^ 32 = 0 ->
  forall fuel dst,
    stripe_loop simd128 fc fuel (stripeEnd_of total_ 1 (mkRange 0 1))
                (stripeStart_of total_ 1 (mkRange 0 1)) dst = OutOfFuel.
Proof.
  intros Hs Hw total_ Hpos Hmod fuel.
  destruct (single_stripe_bounds total_) as [-> ->].
  assert (Hw0 : 0 < rows (weights_ fc)) by (unfold total_ in Hpos; nia).
  induction fuel as [|fuel IH]; intros dst; [reflexivity|].
  rewrite (stripe_loop_step simd128 fc Hs Hw) by (fold total_; lia).
  assert (Erl : run_length (rows (weights_ fc)) total_ 0 = 0).
  { unfold run_length. rewrite Z.mod_0_l by lia. rewrite !Z.sub_0_r.
    rewrite to_int_multiple by exact Hmod. lia. }
  unfold run_kernel. rewrite Erl.
  match goal with
  | |- context [kernel ?a ?b ?c ?d ?e ?f ?g ?nw ?s ?t] =>
      destruct (kernel_nothing a b c d e f g nw s t) as (d' & E & _)
  end.
  - lia.
  - intros _. unfold INT_MIN. lia.
  - rewrite E. cbn [bind]. change (to_size_t (0 + to_size_t 0)) with 0.
    apply IH.
Qed.

Lemma single_stripe_loop_makes_no_progress_witness :
  let fc := mkFullConnected (tensor [65536; 8] junk) (tensor [65536; 8] junk)
                            (tensor [1; 65536] zero_heap)
                            (tensor [65536; 65536] zero_heap) 1 in
  FullConnected_new (srcMat_ fc) (weights_ fc) (biasMat_ fc) (dstMat_ fc) 1 = Ok fc
  /\ forall fuel dst,
       stripe_loop false fc fuel (stripeEnd_of (65536 * 65536) 1 (mkRange 0 1))
                   (stripeStart_of (65536 * 65536) 1 (mkRange 0 1)) dst
       = OutOfFuel.
Proof.
  intros fc. split; [reflexivity|].
  apply (single_stripe_loop_makes_no_progress false fc).
  - cbn. unfold INT_MAX. lia.
  - cbn. unfold INT_MAX. lia.
  - reflexivity.
  - reflexivity.
Defined.
